(** * Snuxtify: the streaming-connection hooks of the trading dashboard

    A shallow embedding of the two React hooks that own the WebSocket
    connection of the dashboard,

    - [Basic]    : [src/frontend/hooks/useWebSocket.ts]  ([useWebSocket]),
    - [Enhanced] : [src/unnamed/part_004]  ([useEnhancedWebSocket]),

    together with the small part of the JavaScript run time they rely on:
    JSON values, truthiness, the [in] operator, property reads, the clock
    ([new Date()], [Date.now()]), [Math.random()], the [WebSocket] ready
    states and the timer queue. *)

From Stdlib Require Import ZArith QArith Lia Lqa Ascii String.
From stdpp Require Import gmap strings list fin_maps pretty.

Local Open Scope Z_scope.
Set Warnings "-register-all".

(* ===================================================================== *)
(** * 1. The JavaScript run time *)
(* ===================================================================== *)

(** Epoch milliseconds, as returned by [Date.now()] and held by [Date]. *)
Definition Time := Z.

(** JavaScript numbers are IEEE doubles.  The hooks only test them for
    truthiness, compare them with small constants, subtract them and turn
    them into property keys, so the development is generic in an
    implementation of exactly these operations. *)
Class JSNumber := {
  number : Type;
  number_of_Z : Z -> number;
  number_nan : number;
  (** ToBoolean: false for +0, -0 and NaN *)
  number_truthy : number -> bool;
  (** Number::toString, as used by ToPropertyKey *)
  number_to_string : number -> string;
  (** StringToNumber, as used by ToNumber on a string *)
  string_to_number : string -> number;
  (** the global [parseInt] with one argument *)
  parseInt : string -> number;
  number_sub : number -> number -> number;
  (** [===] on two numbers *)
  number_eqb : number -> number -> bool;
  (** [<] on two numbers *)
  number_ltb : number -> number -> bool
}.

(** The values a handler can see: whatever [JSON.parse] produces, plus
    [undefined] (the value of a missing property).  An object is the list
    of its own properties. *)
Inductive JSValue `{JSNumber} : Type :=
  | JUndefined
  | JNull
  | JBool (b : bool)
  | JNum (n : number)
  | JStr (s : string)
  | JArr (items : list JSValue)
  | JObj (props : list (string * JSValue)).

Inductive JSError := TypeError (message : string).

Inductive Result (A : Type) : Type :=
  | Ok (a : A)
  | Throw (e : JSError).
Arguments Ok {A} a.
Arguments Throw {A} e.

(** What the environment decides: the successive readings of the clock
    and the successive values of [Math.random()]; [ticks] and [draws]
    count the readings already consumed. *)
Record World := {
  clock : nat -> Time;
  ticks : nat;
  random : nat -> Q;
  draws : nat
}.

(** Code that may read the clock, draw a random number, or throw. *)
Definition M (A : Type) : Type := World -> Result (A * World).

Definition ret {A} (a : A) : M A := fun w => Ok (a, w).

Definition bind {A B} (c : M A) (k : A -> M B) : M B :=
  fun w => match c w with
           | Ok (a, w') => k a w'
           | Throw e => Throw e
           end.

Definition throw {A} (e : JSError) : M A := fun _ => Throw e.

Definition lift {A} (r : Result A) : M A :=
  fun w => match r with Ok a => Ok (a, w) | Throw e => Throw e end.

Declare Scope js_scope.
Delimit Scope js_scope with js.
Notation "'do' x <- c ; k" := (bind c (fun x => k))
  (at level 10, x name, c at level 100, k at level 200) : js_scope.
Notation "c1 ;; c2" := (bind c1 (fun _ => c2))
  (at level 100, c2 at level 200, right associativity, only parsing) : js_scope.
Local Open Scope js_scope.

(** The instant the next clock reading returns, and the world after it. *)
Definition now (w : World) : Time := clock w (ticks w).

Definition tick (w : World) : World :=
  {| clock := clock w; ticks := S (ticks w); random := random w; draws := draws w |}.

Definition draw (w : World) : World :=
  {| clock := clock w; ticks := ticks w; random := random w; draws := S (draws w) |}.

(** [new Date()] and [Date.now()] *)
Definition Date_now : M Time := fun w => Ok (now w, tick w).

(** [Math.random()] *)
Definition Math_random : M Q := fun w => Ok (random w (draws w), draw w).

(** [forEach] over an array, threading the accumulated value. *)
Fixpoint forEach {A B} (f : B -> A -> M B) (l : list A) (acc : B) : M B :=
  match l with
  | [] => ret acc
  | x :: rest => do acc' <- f acc x; forEach f rest acc'
  end.

Section Values.
Context `{JSNumber}.

(** ToBoolean *)
Definition ToBoolean (v : JSValue) : bool :=
  match v with
  | JUndefined | JNull => false
  | JBool b => b
  | JNum n => number_truthy n
  | JStr s => negb (String.eqb s "")
  | JArr _ | JObj _ => true
  end.

(** [a || b] *)
Definition js_or (a b : JSValue) : JSValue := if ToBoolean a then a else b.

(** [typeof v === 'object'] (true for [null], arrays and objects) *)
Definition typeof_object (v : JSValue) : bool :=
  match v with
  | JNull | JArr _ | JObj _ => true
  | _ => false
  end.

(** [typeof v === 'string'] *)
Definition typeof_string (v : JSValue) : bool :=
  match v with JStr _ => true | _ => false end.

(** [Array.isArray(v)] *)
Definition Array_isArray (v : JSValue) : bool :=
  match v with JArr _ => true | _ => false end.

Fixpoint own_property (key : string) (props : list (string * JSValue)) : option JSValue :=
  match props with
  | [] => None
  | (k, v) :: rest => if String.eqb k key then Some v else own_property key rest
  end.

(** [key in v].  The right operand must be an object, otherwise a
    TypeError is thrown.  The names the hooks test ('symbol', 'positions',
    'orders', 'message', 'timestamp') are neither array indices nor
    inherited from [Object.prototype] or [Array.prototype], so the test is
    own-property membership, and false on an array. *)
Definition js_in (key : string) (v : JSValue) : Result bool :=
  match v with
  | JObj props => Ok (bool_decide (is_Some (own_property key props)))
  | JArr _ => Ok false
  | _ => Throw (TypeError "Cannot use 'in' operator to search for a key in a primitive")
  end.

(** [v.key].  Reading a property of [null] or [undefined] throws; on any
    other value a missing property reads as [undefined] (the names the
    hooks read are not members of strings, numbers, booleans or arrays). *)
Definition js_get (key : string) (v : JSValue) : Result JSValue :=
  match v with
  | JUndefined | JNull => Throw (TypeError "Cannot read properties of null or undefined")
  | JObj props => Ok (default JUndefined (own_property key props))
  | _ => Ok JUndefined
  end.

(** [v?.key] *)
Definition js_get_optional (key : string) (v : JSValue) : JSValue :=
  match v with
  | JObj props => default JUndefined (own_property key props)
  | _ => JUndefined
  end.

(** ToString, which is also ToPropertyKey for the values at hand. *)
Fixpoint ToString (v : JSValue) : string :=
  match v with
  | JUndefined => "undefined"
  | JNull => "null"
  | JBool true => "true"
  | JBool false => "false"
  | JNum n => number_to_string n
  | JStr s => s
  | JArr items =>
      String.concat ","
        (List.map (fun x => match x with
                            | JUndefined | JNull => ""
                            | _ => ToString x
                            end) items)
  | JObj _ => "[object Object]"
  end.

(** ToNumber *)
Definition ToNumber (v : JSValue) : number :=
  match v with
  | JUndefined => number_nan
  | JNull => number_of_Z 0
  | JBool b => number_of_Z (if b then 1 else 0)
  | JNum n => n
  | JStr s => string_to_number s
  | JArr _ | JObj _ => string_to_number (ToString v)
  end.

(** A frame after [JSON.parse], as the handlers destructure it:
    [const { type, data } = message]. *)
Record WebSocketMessage := {
  type : JSValue;
  data : JSValue
}.

End Values.

(* ===================================================================== *)
(** * 2. The transport and the timer queue *)
(* ===================================================================== *)

Inductive ReadyState := CONNECTING | OPEN | CLOSING | CLOSED.

Definition ReadyState_eqb (a b : ReadyState) : bool :=
  match a, b with
  | CONNECTING, CONNECTING | OPEN, OPEN | CLOSING, CLOSING | CLOSED, CLOSED => true
  | _, _ => false
  end.

(** A [WebSocket] object: its ready state and the frames handed to
    [send] (before [JSON.stringify]), oldest first. *)
Record WebSocket `{JSNumber} := {
  readyState : ReadyState;
  sent : list JSValue
}.

(** [ws.close(code, reason)]: a socket that is connecting or open starts
    closing; one that is closing or closed is left alone. *)
Definition WebSocket_close `{JSNumber} (ws : WebSocket) : WebSocket :=
  match readyState ws with
  | CONNECTING | OPEN => {| readyState := CLOSING; sent := sent ws |}
  | CLOSING | CLOSED => ws
  end.

(** [ws.send(frame)] on an open socket. *)
Definition WebSocket_send `{JSNumber} (frame : JSValue) (ws : WebSocket) : WebSocket :=
  {| readyState := readyState ws; sent := sent ws ++ [frame] |}.

Definition set_readyState `{JSNumber} (r : ReadyState) (ws : WebSocket) : WebSocket :=
  {| readyState := r; sent := sent ws |}.

(** A transport that is connecting or open. *)
Definition live `{JSNumber} (ws : WebSocket) : bool :=
  match readyState ws with
  | CONNECTING | OPEN => true
  | CLOSING | CLOSED => false
  end.

(* ===================================================================== *)
(** * 3. The enhanced hook: [useEnhancedWebSocket] *)
(* ===================================================================== *)

Module Enhanced.

(** The constants of [@/lib/config], which is not among the sources: the
    six entries of [DEFAULT_CONFIG] (after the caller's overrides, that is
    [finalConfig]) and the entries of [CONFIG] the hook reads directly. *)
Record Config := {
  maxReconnectAttempts : Z;   (* CONFIG.WEBSOCKET.RECONNECT.MAX_ATTEMPTS *)
  reconnectDelay : Z;         (* CONFIG.WEBSOCKET.RECONNECT.INITIAL_DELAY *)
  heartbeatInterval : Z;      (* CONFIG.WEBSOCKET.HEARTBEAT.INTERVAL *)
  connectionTimeout : Z;      (* CONFIG.WEBSOCKET.HEARTBEAT.TIMEOUT *)
  enablePubSub : bool;        (* CONFIG.REALTIME.ENABLE_PUBSUB *)
  autoSubscribe : bool;       (* CONFIG.REALTIME.AUTO_SUBSCRIBE *)
  BACKOFF_FACTOR : Z;         (* CONFIG.WEBSOCKET.RECONNECT.BACKOFF_FACTOR *)
  MAX_DELAY : Z;              (* CONFIG.WEBSOCKET.RECONNECT.MAX_DELAY *)
  JITTER : bool;              (* CONFIG.WEBSOCKET.RECONNECT.JITTER *)
  BATCH_UPDATES : bool;       (* CONFIG.REALTIME.BATCH_UPDATES *)
  BUFFER_SIZE : Z;            (* CONFIG.REALTIME.BUFFER_SIZE *)
  MAX_UPDATE_FREQUENCY : Z;   (* CONFIG.REALTIME.MAX_UPDATE_FREQUENCY *)
  ACCOUNT_UPDATES : string;   (* CONFIG.WEBSOCKET.CHANNELS.ACCOUNT_UPDATES *)
  POSITION_UPDATES : string;  (* CONFIG.WEBSOCKET.CHANNELS.POSITION_UPDATES *)
  ORDER_UPDATES : string;     (* CONFIG.WEBSOCKET.CHANNELS.ORDER_UPDATES *)
  CONNECTION_STATUS : string  (* CONFIG.WEBSOCKET.CHANNELS.CONNECTION_STATUS *)
}.

Section Hook.
Context `{JSNumber}.

(** ** The snapshot and its reducer *)

Record WebSocketState := {
  accountData : JSValue;
  marketData : option (gmap string JSValue);
  positions : JSValue;
  orders : JSValue;
  isConnected : bool;
  error : JSValue;
  connectionAttempts : Z;
  lastMessageTime : option Time;
  subscribedChannels : gset string;
  latency : number;
  messageBuffer : list WebSocketMessage
}.

Inductive WebSocketAction :=
  | CONNECTED
  | DISCONNECTED (reason : option string)
  | RECONNECTING
  | MESSAGE (payload : WebSocketMessage)
  | SUBSCRIBE (channel : string)
  | UNSUBSCRIBE (channel : string)
  | UPDATE_LATENCY (latency : number)
  | BATCH_UPDATE (messages : list WebSocketMessage).

Definition initialState : WebSocketState := {|
  accountData := JNull;
  marketData := None;
  positions := JNull;
  orders := JNull;
  isConnected := false;
  error := JNull;
  connectionAttempts := 0;
  lastMessageTime := None;
  subscribedChannels := ∅;
  latency := number_of_Z 0;
  messageBuffer := []
|}.

(** [{ ...s, field: v }] for the fields the reducer assigns. *)
Definition set_accountData (v : JSValue) (s : WebSocketState) : WebSocketState :=
  {| accountData := v; marketData := marketData s; positions := positions s;
     orders := orders s; isConnected := isConnected s; error := error s;
     connectionAttempts := connectionAttempts s; lastMessageTime := lastMessageTime s;
     subscribedChannels := subscribedChannels s; latency := latency s;
     messageBuffer := messageBuffer s |}.

Definition set_marketData (v : option (gmap string JSValue)) (s : WebSocketState) : WebSocketState :=
  {| accountData := accountData s; marketData := v; positions := positions s;
     orders := orders s; isConnected := isConnected s; error := error s;
     connectionAttempts := connectionAttempts s; lastMessageTime := lastMessageTime s;
     subscribedChannels := subscribedChannels s; latency := latency s;
     messageBuffer := messageBuffer s |}.

Definition set_positions (v : JSValue) (s : WebSocketState) : WebSocketState :=
  {| accountData := accountData s; marketData := marketData s; positions := v;
     orders := orders s; isConnected := isConnected s; error := error s;
     connectionAttempts := connectionAttempts s; lastMessageTime := lastMessageTime s;
     subscribedChannels := subscribedChannels s; latency := latency s;
     messageBuffer := messageBuffer s |}.

Definition set_orders (v : JSValue) (s : WebSocketState) : WebSocketState :=
  {| accountData := accountData s; marketData := marketData s; positions := positions s;
     orders := v; isConnected := isConnected s; error := error s;
     connectionAttempts := connectionAttempts s; lastMessageTime := lastMessageTime s;
     subscribedChannels := subscribedChannels s; latency := latency s;
     messageBuffer := messageBuffer s |}.

Definition set_error (v : JSValue) (s : WebSocketState) : WebSocketState :=
  {| accountData := accountData s; marketData := marketData s; positions := positions s;
     orders := orders s; isConnected := isConnected s; error := v;
     connectionAttempts := connectionAttempts s; lastMessageTime := lastMessageTime s;
     subscribedChannels := subscribedChannels s; latency := latency s;
     messageBuffer := messageBuffer s |}.

Definition set_lastMessageTime (v : option Time) (s : WebSocketState) : WebSocketState :=
  {| accountData := accountData s; marketData := marketData s; positions := positions s;
     orders := orders s; isConnected := isConnected s; error := error s;
     connectionAttempts := connectionAttempts s; lastMessageTime := v;
     subscribedChannels := subscribedChannels s; latency := latency s;
     messageBuffer := messageBuffer s |}.

Definition set_subscribedChannels (v : gset string) (s : WebSocketState) : WebSocketState :=
  {| accountData := accountData s; marketData := marketData s; positions := positions s;
     orders := orders s; isConnected := isConnected s; error := error s;
     connectionAttempts := connectionAttempts s; lastMessageTime := lastMessageTime s;
     subscribedChannels := v; latency := latency s;
     messageBuffer := messageBuffer s |}.

Definition set_latency (v : number) (s : WebSocketState) : WebSocketState :=
  {| accountData := accountData s; marketData := marketData s; positions := positions s;
     orders := orders s; isConnected := isConnected s; error := error s;
     connectionAttempts := connectionAttempts s; lastMessageTime := lastMessageTime s;
     subscribedChannels := subscribedChannels s; latency := v;
     messageBuffer := messageBuffer s |}.

(** The [case] labels of [switch (type)] in [processMessage]. *)
Inductive MessageCase :=
  | case_account_update
  | case_market_data
  | case_position_update
  | case_order_update
  | case_connection_status
  | case_connection_connected
  | case_connection_disconnected
  | case_error
  | case_pong
  | case_default.

(** [switch] compares with [===]: only a string can select a label. *)
Definition switch_type (t : JSValue) : MessageCase :=
  match t with
  | JStr s =>
      if String.eqb s "account_update" then case_account_update
      else if String.eqb s "market_data" then case_market_data
      else if String.eqb s "position_update" then case_position_update
      else if String.eqb s "order_update" then case_order_update
      else if String.eqb s "connection_status" then case_connection_status
      else if String.eqb s "connection_connected" then case_connection_connected
      else if String.eqb s "connection_disconnected" then case_connection_disconnected
      else if String.eqb s "error" then case_error
      else if String.eqb s "pong" then case_pong
      else case_default
  | _ => case_default
  end.

(** [a && b && (key in v)], evaluated left to right with short circuit. *)
Definition guarded_in (guard : bool) (key : string) (v : JSValue) : Result bool :=
  if guard then js_in key v else Ok false.

Definition processMessage (state : WebSocketState) (message : WebSocketMessage)
  : M WebSocketState :=
  let type_ := type message in
  let data_ := data message in
  do t <- Date_now;
  let newState := set_lastMessageTime (Some t) state in
  match switch_type type_ with
  | case_account_update =>
      ret (set_accountData data_ newState)
  | case_market_data =>
      let marketUpdate := data_ in
      do hasSymbol <- lift (guarded_in (ToBoolean marketUpdate && typeof_object marketUpdate)
                                       "symbol" marketUpdate);
      if hasSymbol : bool then
        do symbol <- lift (js_get "symbol" marketUpdate);
        do inner <- lift (js_get "data" marketUpdate);
        ret (set_marketData
               (Some (<[ToString symbol := js_or inner marketUpdate]>
                        (default ∅ (marketData newState))))
               newState)
      else ret newState
  | case_position_update =>
      let positionData := data_ in
      if Array_isArray positionData then ret (set_positions positionData newState)
      else
        do hasPositions <- lift (guarded_in (ToBoolean positionData) "positions" positionData);
        if hasPositions : bool then
          do v <- lift (js_get "positions" positionData);
          ret (set_positions v newState)
        else ret newState
  | case_order_update =>
      let orderData := data_ in
      if Array_isArray orderData then ret (set_orders orderData newState)
      else
        do hasOrders <- lift (guarded_in (ToBoolean orderData) "orders" orderData);
        if hasOrders : bool then
          do v <- lift (js_get "orders" orderData);
          ret (set_orders v newState)
        else ret newState
  | case_connection_status
  | case_connection_connected =>
      let statusData := data_ in
      ret (set_error
             (if ToBoolean (js_get_optional "connected" statusData) then JNull
              else js_or (js_get_optional "message" statusData)
                         (JStr "Connection status unknown"))
             newState)
  | case_connection_disconnected =>
      ret (set_error (JStr "MT5 connection lost") newState)
  | case_error =>
      if typeof_string data_ then ret (set_error data_ newState)
      else
        do hasMessage <- lift (guarded_in (ToBoolean data_ && typeof_object data_)
                                          "message" data_);
        if hasMessage : bool then
          ret (set_error (js_or (js_get_optional "message" data_)
                                (JStr "Unknown server error")) newState)
        else ret (set_error (JStr "Unknown server error") newState)
  | case_pong =>
      do hasTimestamp <- lift (guarded_in (ToBoolean data_ && typeof_object data_)
                                            "timestamp" data_);
      if hasTimestamp : bool then
        do stamp <- lift (js_get "timestamp" data_);
        if ToBoolean stamp then
          let timestamp := match stamp with
                           | JStr s => parseInt s
                           | other => ToNumber other
                           end in
          do t' <- Date_now;
          ret (set_latency (number_sub (number_of_Z t') timestamp) newState)
        else ret newState
      else ret newState
  | case_default => ret newState
  end.

Definition reducer (state : WebSocketState) (action : WebSocketAction) : M WebSocketState :=
  match action with
  | CONNECTED =>
      do t <- Date_now;
      ret {| accountData := accountData state; marketData := marketData state;
             positions := positions state; orders := orders state;
             isConnected := true;
             error := JNull;
             connectionAttempts := 0;
             lastMessageTime := Some t;
             subscribedChannels := subscribedChannels state; latency := latency state;
             messageBuffer := messageBuffer state |}
  | DISCONNECTED reason =>
      ret (set_subscribedChannels (subscribedChannels state)
             (set_error (JStr (match reason with
                               | Some r => if String.eqb r "" then "Connection lost." else r
                               | None => "Connection lost."
                               end))
                initialState))
  | RECONNECTING =>
      ret {| accountData := accountData state; marketData := marketData state;
             positions := positions state; orders := orders state;
             isConnected := false;
             error := JStr ("Reconnecting... Attempt "
                            +:+ pretty (connectionAttempts state + 1) +:+ ".");
             connectionAttempts := connectionAttempts state + 1;
             lastMessageTime := lastMessageTime state;
             subscribedChannels := subscribedChannels state; latency := latency state;
             messageBuffer := messageBuffer state |}
  | MESSAGE payload => processMessage state payload
  | BATCH_UPDATE messages => forEach processMessage messages state
  | SUBSCRIBE channel =>
      ret (set_subscribedChannels (subscribedChannels state ∪ {[channel]}) state)
  | UNSUBSCRIBE channel =>
      ret (set_subscribedChannels (subscribedChannels state ∖ {[channel]}) state)
  | UPDATE_LATENCY l => ret (set_latency l state)
  end.

Inductive ConnectionQuality := excellent | good | poor | disconnected.

Definition connectionQuality (state : WebSocketState) : ConnectionQuality :=
  if isConnected state then
    if number_eqb (latency state) (number_of_Z 0) then excellent
    else if number_ltb (latency state) (number_of_Z 100) then excellent
    else if number_ltb (latency state) (number_of_Z 300) then good
    else poor
  else disconnected.

(** ** The mutable side of the hook: [metaRef], the sockets, the timers *)

(** What a pending timer will run. *)
Inductive Task :=
  (** [connect]: close [ws] with 'Connection timeout' if still connecting *)
  | ConnectionTimeout (ws : nat)
  (** [startHeartbeat]: the ping interval *)
  | HeartbeatTick
  (** [startLatencyMonitoring]: the staleness check interval *)
  | LatencyCheckTick
  (** [ws.onclose]: [dispatch RECONNECTING; connect()] *)
  | ReconnectTimer
  (** [autoSubscribeToChannels]: [setTimeout(() => subscribe(channel), 100)] *)
  | SubscribeLater (channel : string)
  (** [reconnect]: [setTimeout(connect, 100)] *)
  | ConnectLater
  (** the buffer-processing effect: [setInterval(..., MAX_UPDATE_FREQUENCY)] *)
  | FlushTick.

Record TimerEntry := {
  timer_id : nat;
  timer_task : Task;
  timer_delay : Q;
  timer_repeats : bool
}.

(** [metaRef.current.timers] *)
Record Timers := {
  heartbeat : option nat;
  reconnect_timer : option nat;
  connection : option nat;
  latencyCheck : option nat
}.

(** [metaRef.current]; [ws] is an index into the sockets created so far. *)
Record MetaRef := {
  ws : option nat;
  timers : Timers;
  isManualClose : bool;
  ref_connectionAttempts : Z;
  ref_messageBuffer : list WebSocketMessage;
  lastPingTime : Time
}.

(** One mounted instance of the hook. *)
Record Client := {
  sockets : list WebSocket;
  metaRef : MetaRef;
  state : WebSocketState;
  pending : list TimerEntry;
  next_timer : nat;
  flush_interval : option nat
}.

Definition no_timers : Timers :=
  {| heartbeat := None; reconnect_timer := None; connection := None; latencyCheck := None |}.

Definition initialClient : Client := {|
  sockets := [];
  metaRef := {| ws := None; timers := no_timers; isManualClose := false;
                ref_connectionAttempts := 0; ref_messageBuffer := [];
                lastPingTime := 0 |};
  state := initialState;
  pending := [];
  next_timer := 0%nat;
  flush_interval := None
|}.

Definition set_metaRef (m : MetaRef) (c : Client) : Client :=
  {| sockets := sockets c; metaRef := m; state := state c; pending := pending c;
     next_timer := next_timer c; flush_interval := flush_interval c |}.

Definition set_sockets (l : list WebSocket) (c : Client) : Client :=
  {| sockets := l; metaRef := metaRef c; state := state c; pending := pending c;
     next_timer := next_timer c; flush_interval := flush_interval c |}.

Definition set_state (s : WebSocketState) (c : Client) : Client :=
  {| sockets := sockets c; metaRef := metaRef c; state := s; pending := pending c;
     next_timer := next_timer c; flush_interval := flush_interval c |}.

Definition set_pending (l : list TimerEntry) (c : Client) : Client :=
  {| sockets := sockets c; metaRef := metaRef c; state := state c; pending := l;
     next_timer := next_timer c; flush_interval := flush_interval c |}.

Definition set_flush_interval (i : option nat) (c : Client) : Client :=
  {| sockets := sockets c; metaRef := metaRef c; state := state c; pending := pending c;
     next_timer := next_timer c; flush_interval := i |}.

Definition set_ws (v : option nat) (m : MetaRef) : MetaRef :=
  {| ws := v; timers := timers m; isManualClose := isManualClose m;
     ref_connectionAttempts := ref_connectionAttempts m;
     ref_messageBuffer := ref_messageBuffer m; lastPingTime := lastPingTime m |}.

Definition set_timers (v : Timers) (m : MetaRef) : MetaRef :=
  {| ws := ws m; timers := v; isManualClose := isManualClose m;
     ref_connectionAttempts := ref_connectionAttempts m;
     ref_messageBuffer := ref_messageBuffer m; lastPingTime := lastPingTime m |}.

Definition set_isManualClose (v : bool) (m : MetaRef) : MetaRef :=
  {| ws := ws m; timers := timers m; isManualClose := v;
     ref_connectionAttempts := ref_connectionAttempts m;
     ref_messageBuffer := ref_messageBuffer m; lastPingTime := lastPingTime m |}.

Definition set_ref_connectionAttempts (v : Z) (m : MetaRef) : MetaRef :=
  {| ws := ws m; timers := timers m; isManualClose := isManualClose m;
     ref_connectionAttempts := v;
     ref_messageBuffer := ref_messageBuffer m; lastPingTime := lastPingTime m |}.

Definition set_ref_messageBuffer (v : list WebSocketMessage) (m : MetaRef) : MetaRef :=
  {| ws := ws m; timers := timers m; isManualClose := isManualClose m;
     ref_connectionAttempts := ref_connectionAttempts m;
     ref_messageBuffer := v; lastPingTime := lastPingTime m |}.

Definition set_lastPingTime (v : Time) (m : MetaRef) : MetaRef :=
  {| ws := ws m; timers := timers m; isManualClose := isManualClose m;
     ref_connectionAttempts := ref_connectionAttempts m;
     ref_messageBuffer := ref_messageBuffer m; lastPingTime := v |}.

(** [setTimeout] / [setInterval]: queue the task, return its handle. *)
Definition schedule (task : Task) (delay : Q) (repeats : bool) (c : Client) : nat * Client :=
  (next_timer c,
   {| sockets := sockets c; metaRef := metaRef c; state := state c;
      pending := pending c ++ [{| timer_id := next_timer c; timer_task := task;
                                  timer_delay := delay; timer_repeats := repeats |}];
      next_timer := S (next_timer c); flush_interval := flush_interval c |}).

(** [clearTimeout] / [clearInterval] (one pool of handles). *)
Definition clearTimeout (id : nat) (c : Client) : Client :=
  set_pending (filter (fun e => timer_id e ≠ id) (pending c)) c.

(** [if (timer) clearTimeout(timer)] *)
Definition clear_if_set (timer : option nat) (c : Client) : Client :=
  match timer with
  | Some id => clearTimeout id c
  | None => c
  end.

(** [dispatch(action)].  React applies the queued actions in dispatch
    order before the next render, and no handler of this hook reads
    [state], so the reducer is run here at once; an exception it throws
    surfaces when React renders, outside any [try] of the handler. *)
Definition dispatch (action : WebSocketAction) (c : Client) : M Client :=
  do s <- reducer (state c) action;
  ret (set_state s c).

Definition clearAllTimers (c : Client) : Client :=
  let t := timers (metaRef c) in
  let c := clear_if_set (heartbeat t) c in
  let c := clear_if_set (reconnect_timer t) c in
  let c := clear_if_set (connection t) c in
  let c := clear_if_set (latencyCheck t) c in
  set_metaRef (set_timers no_timers (metaRef c)) c.

(** [metaRef.current.ws?.readyState] *)
Definition ws_readyState (c : Client) : option ReadyState :=
  match ws (metaRef c) with
  | Some i => readyState <$> sockets c !! i
  | None => None
  end.

Definition sendMessage (message : JSValue) (c : Client) : Client :=
  match ws (metaRef c), ws_readyState c with
  | Some i, Some OPEN => set_sockets (alter (WebSocket_send message) i (sockets c)) c
  | _, _ => c   (* console.warn *)
  end.

Definition subscribe (channel : string) (c : Client) : M Client :=
  do t <- Date_now;
  let c := sendMessage (JObj [("type", JStr "subscribe"); ("channel", JStr channel);
                              ("timestamp", JNum (number_of_Z t))]) c in
  dispatch (SUBSCRIBE channel) c.

Definition unsubscribe (channel : string) (c : Client) : M Client :=
  do t <- Date_now;
  let c := sendMessage (JObj [("type", JStr "unsubscribe"); ("channel", JStr channel);
                              ("timestamp", JNum (number_of_Z t))]) c in
  dispatch (UNSUBSCRIBE channel) c.

Section WithConfig.
Variable finalConfig : Config.

Definition startHeartbeat (c : Client) : Client :=
  let '(id, c) := schedule HeartbeatTick (inject_Z (heartbeatInterval finalConfig)) true c in
  set_metaRef (set_timers {| heartbeat := Some id;
                             reconnect_timer := reconnect_timer (timers (metaRef c));
                             connection := connection (timers (metaRef c));
                             latencyCheck := latencyCheck (timers (metaRef c)) |}
                 (metaRef c)) c.

(** The body of the heartbeat interval. *)
Definition heartbeat_tick (c : Client) : M Client :=
  match ws_readyState c with
  | Some OPEN =>
      do t <- Date_now;
      let c := set_metaRef (set_lastPingTime t (metaRef c)) c in
      ret (sendMessage (JObj [("type", JStr "ping");
                              ("timestamp", JNum (number_of_Z (lastPingTime (metaRef c))))]) c)
  | _ => ret c
  end.

Definition startLatencyMonitoring (c : Client) : Client :=
  let '(id, c) := schedule LatencyCheckTick
                    (inject_Z (heartbeatInterval finalConfig) / 2)%Q true c in
  set_metaRef (set_timers {| heartbeat := heartbeat (timers (metaRef c));
                             reconnect_timer := reconnect_timer (timers (metaRef c));
                             connection := connection (timers (metaRef c));
                             latencyCheck := Some id |}
                 (metaRef c)) c.

(** The body of the latency-check interval. *)
Definition latencyCheck_tick (c : Client) : M Client :=
  if 0 <? lastPingTime (metaRef c) then
    do t <- Date_now;
    let timeSinceLastPing := t - lastPingTime (metaRef c) in
    if heartbeatInterval finalConfig * 2 <? timeSinceLastPing then
      (* Connection might be stale *)
      dispatch (UPDATE_LATENCY (number_of_Z (-1))) c
    else ret c
  else ret c.

Definition essentialChannels : list string :=
  [ACCOUNT_UPDATES finalConfig; POSITION_UPDATES finalConfig;
   ORDER_UPDATES finalConfig; CONNECTION_STATUS finalConfig].

Definition autoSubscribeToChannels (c : Client) : Client :=
  if negb (autoSubscribe finalConfig) then c
  else fold_left (fun c channel => snd (schedule (SubscribeLater channel) 100 false c))
                 essentialChannels c.

(** The test at the head of [connect]. *)
Definition connect_refused (c : Client) : bool :=
  match ws_readyState c with
  | Some CONNECTING | Some OPEN => true
  | _ => maxReconnectAttempts finalConfig <? ref_connectionAttempts (metaRef c)
  end.

Definition connect (c : Client) : Client :=
  if connect_refused c then c
  else
    let c := clearAllTimers c in
    let c := set_metaRef (set_isManualClose false (metaRef c)) c in
    let i := length (sockets c) in
    let c := set_sockets (sockets c ++ [{| readyState := CONNECTING; sent := [] |}]) c in
    let c := set_metaRef (set_ws (Some i) (metaRef c)) c in
    let '(id, c) := schedule (ConnectionTimeout i)
                      (inject_Z (connectionTimeout finalConfig)) false c in
    set_metaRef (set_timers {| heartbeat := heartbeat (timers (metaRef c));
                               reconnect_timer := reconnect_timer (timers (metaRef c));
                               connection := Some id;
                               latencyCheck := latencyCheck (timers (metaRef c)) |}
                   (metaRef c)) c.

(** The body of the connection-timeout timer armed for socket [i]. *)
Definition connectionTimeout_fires (i : nat) (c : Client) : Client :=
  match sockets c !! i with
  | Some s => if ReadyState_eqb (readyState s) CONNECTING
              then set_sockets (alter WebSocket_close i (sockets c)) c
              else c
  | None => c
  end.

Definition onopen (c : Client) : M Client :=
  let c := clearAllTimers c in
  let c := set_metaRef (set_ref_connectionAttempts 0 (metaRef c)) c in
  do c <- dispatch CONNECTED c;
  let c := startHeartbeat c in
  let c := startLatencyMonitoring c in
  ret (autoSubscribeToChannels c).

(** [message.type === kind] *)
Definition type_is (kind : string) (message : WebSocketMessage) : bool :=
  match type message with
  | JStr s => String.eqb s kind
  | _ => false
  end.

(** [ws.onmessage]; [None] stands for a frame on which [JSON.parse]
    (or the read of [message.type]) throws, which the handler catches. *)
Definition onmessage (frame : option WebSocketMessage) (c : Client) : M Client :=
  match frame with
  | None => ret c   (* console.error *)
  | Some message =>
      if type_is "pong" message then
        do t <- Date_now;
        dispatch (UPDATE_LATENCY (number_of_Z (t - lastPingTime (metaRef c)))) c
      else if type_is "heartbeat" message then ret c
      else if BATCH_UPDATES finalConfig then
        let c := set_metaRef (set_ref_messageBuffer
                                (ref_messageBuffer (metaRef c) ++ [message]) (metaRef c)) c in
        if BUFFER_SIZE finalConfig <=? Z.of_nat (length (ref_messageBuffer (metaRef c))) then
          do c <- dispatch (BATCH_UPDATE (ref_messageBuffer (metaRef c))) c;
          ret (set_metaRef (set_ref_messageBuffer [] (metaRef c)) c)
        else ret c
      else dispatch (MESSAGE message) c
  end.

(** [if (buffer.length > 0) { dispatch BATCH_UPDATE; buffer = [] }] *)
Definition flush (c : Client) : M Client :=
  if (0 <? length (ref_messageBuffer (metaRef c)))%nat then
    do c <- dispatch (BATCH_UPDATE (ref_messageBuffer (metaRef c))) c;
    ret (set_metaRef (set_ref_messageBuffer [] (metaRef c)) c)
  else ret c.

(** The delay of [ws.onclose] before jitter, from the counter as it
    stands when the delay is computed. *)
Definition backoff (attempts : Z) : Z :=
  Z.min (reconnectDelay finalConfig * BACKOFF_FACTOR finalConfig ^ attempts)
        (MAX_DELAY finalConfig).

Definition onclose (code : Z) (reason : string) (c : Client) : M Client :=
  let c := clearAllTimers c in
  (* Process any remaining buffered messages *)
  do c <- flush c;
  do c <- dispatch (DISCONNECTED (Some (if String.eqb reason "" then "Connection lost"
                                        else reason))) c;
  if isManualClose (metaRef c) || (code =? 1000) then ret c
  else
    (* Progressive backoff with jitter *)
    let c := set_metaRef (set_ref_connectionAttempts
                            (ref_connectionAttempts (metaRef c) + 1) (metaRef c)) c in
    let delay := inject_Z (backoff (ref_connectionAttempts (metaRef c))) in
    do delay <- (if JITTER finalConfig
                 then do r <- Math_random; ret (delay + r * 1000)%Q
                 else ret delay);
    let '(id, c) := schedule ReconnectTimer delay false c in
    ret (set_metaRef (set_timers {| heartbeat := heartbeat (timers (metaRef c));
                                    reconnect_timer := Some id;
                                    connection := connection (timers (metaRef c));
                                    latencyCheck := latencyCheck (timers (metaRef c)) |}
                        (metaRef c)) c).

Definition disconnect (c : Client) : M Client :=
  let c := set_metaRef (set_isManualClose true (metaRef c)) c in
  let c := set_metaRef (set_ref_connectionAttempts 0 (metaRef c)) c in
  let c := clearAllTimers c in
  let c := match ws (metaRef c) with
           | Some i => set_sockets (alter WebSocket_close i (sockets c)) c
           | None => c
           end in
  let c := set_metaRef (set_ws None (metaRef c)) c in
  dispatch (DISCONNECTED (Some "Manually disconnected")) c.

Definition reconnect (c : Client) : M Client :=
  do c <- disconnect c;
  ret (snd (schedule ConnectLater 100 false c)).

(** The two effects that run on mount, in source order. *)
Definition mount (c : Client) : Client :=
  let c := if BATCH_UPDATES finalConfig
           then let '(id, c) := schedule FlushTick
                                  (inject_Z (MAX_UPDATE_FREQUENCY finalConfig)) true c in
                set_flush_interval (Some id) c
           else c in
  connect c.

(** Their clean-ups, on unmount. *)
Definition unmount (c : Client) : M Client :=
  let c := clear_if_set (flush_interval c) c in
  disconnect c.

Definition run_task (task : Task) (c : Client) : M Client :=
  match task with
  | ConnectionTimeout i => ret (connectionTimeout_fires i c)
  | HeartbeatTick => heartbeat_tick c
  | LatencyCheckTick => latencyCheck_tick c
  | ReconnectTimer => do c <- dispatch RECONNECTING c; ret (connect c)
  | SubscribeLater channel => subscribe channel c
  | ConnectLater => ret (connect c)
  | FlushTick => flush c
  end.

(** ** Everything that can happen to a mounted hook *)

Inductive Event :=
  (** the component mounts / unmounts *)
  | Mount
  | Unmount
  (** calls of the functions of the hook *)
  | CallConnect
  | CallDisconnect
  | CallReconnect
  | CallSubscribe (channel : string)
  | CallUnsubscribe (channel : string)
  | CallSendMessage (message : JSValue)
  (** the browser reports on socket [i] *)
  | SocketOpen (i : nat)
  | SocketMessage (i : nat) (frame : option WebSocketMessage)
  | SocketClose (i : nat) (code : Z) (reason : string)
  (** the timer with handle [id] fires *)
  | TimerFires (id : nat)
  (** the peer starts the closing handshake on socket [i] *)
  | SocketClosing (i : nat).

(** One event.  The browser delivers [open] only to a connecting socket,
    [message] only to an open one and [close] once; a timer fires only
    while it is pending.  When the peer starts the closing handshake the
    browser sets the [readyState] of an open socket to CLOSING without
    running any handler of the hook; the [close] event comes later.
    Anything else leaves the client as it is. *)
Definition step (c : Client) (e : Event) : M Client :=
  match e with
  | Mount => ret (mount c)
  | Unmount => unmount c
  | CallConnect => ret (connect c)
  | CallDisconnect => disconnect c
  | CallReconnect => reconnect c
  | CallSubscribe channel => subscribe channel c
  | CallUnsubscribe channel => unsubscribe channel c
  | CallSendMessage message => ret (sendMessage message c)
  | SocketOpen i =>
      match readyState <$> sockets c !! i with
      | Some CONNECTING =>
          onopen (set_sockets (alter (set_readyState OPEN) i (sockets c)) c)
      | _ => ret c
      end
  | SocketMessage i frame =>
      match readyState <$> sockets c !! i with
      | Some OPEN => onmessage frame c
      | _ => ret c
      end
  | SocketClose i code reason =>
      match readyState <$> sockets c !! i with
      | Some CLOSED | None => ret c
      | Some _ =>
          onclose code reason (set_sockets (alter (set_readyState CLOSED) i (sockets c)) c)
      end
  | TimerFires id =>
      match List.find (fun e => Nat.eqb (timer_id e) id) (pending c) with
      | Some e =>
          let c := if timer_repeats e then c else clearTimeout id c in
          run_task (timer_task e) c
      | None => ret c
      end
  | SocketClosing i =>
      match readyState <$> sockets c !! i with
      | Some OPEN => ret (set_sockets (alter (set_readyState CLOSING) i (sockets c)) c)
      | _ => ret c
      end
  end.

(** A run: the events in the order they happen. *)
Definition run (events : list Event) (c : Client) : M Client :=
  forEach step events c.

End WithConfig.
End Hook.
End Enhanced.

(* ===================================================================== *)
(** * 4. The basic hook: [useWebSocket] *)
(* ===================================================================== *)

Module Basic.

Record WebSocketConnectionConfig := {
  maxReconnectAttempts : Z;
  reconnectDelay : Z;
  heartbeatInterval : Z;
  connectionTimeout : Z
}.

Definition DEFAULT_CONFIG : WebSocketConnectionConfig := {|
  maxReconnectAttempts := 5;
  reconnectDelay := 2000;
  heartbeatInterval := 30000;
  connectionTimeout := 10000
|}.

Section Hook.
Context `{JSNumber}.

Record WebSocketState := {
  accountData : JSValue;
  isConnected : bool;
  error : JSValue;
  connectionAttempts : Z;
  lastMessageTime : option Time
}.

Inductive WebSocketAction :=
  | CONNECTED
  | DISCONNECTED (reason : option string)
  | RECONNECTING
  | MESSAGE (payload : WebSocketMessage).

Definition initialState : WebSocketState := {|
  accountData := JNull;
  isConnected := false;
  error := JNull;
  connectionAttempts := 0;
  lastMessageTime := None
|}.

Definition set_accountData (v : JSValue) (s : WebSocketState) : WebSocketState :=
  {| accountData := v; isConnected := isConnected s; error := error s;
     connectionAttempts := connectionAttempts s; lastMessageTime := lastMessageTime s |}.

Definition set_error (v : JSValue) (s : WebSocketState) : WebSocketState :=
  {| accountData := accountData s; isConnected := isConnected s; error := v;
     connectionAttempts := connectionAttempts s; lastMessageTime := lastMessageTime s |}.

Definition set_lastMessageTime (v : option Time) (s : WebSocketState) : WebSocketState :=
  {| accountData := accountData s; isConnected := isConnected s; error := error s;
     connectionAttempts := connectionAttempts s; lastMessageTime := v |}.

(** The [case] labels of the inner [switch (type)]. *)
Inductive MessageCase :=
  | case_account_update
  | case_connection_status
  | case_connection_connected
  | case_connection_disconnected
  | case_error
  | case_default.

Definition switch_type (t : JSValue) : MessageCase :=
  match t with
  | JStr s =>
      if String.eqb s "account_update" then case_account_update
      else if String.eqb s "connection_status" then case_connection_status
      else if String.eqb s "connection_connected" then case_connection_connected
      else if String.eqb s "connection_disconnected" then case_connection_disconnected
      else if String.eqb s "error" then case_error
      else case_default
  | _ => case_default
  end.

Definition reducer (state : WebSocketState) (action : WebSocketAction) : M WebSocketState :=
  match action with
  | CONNECTED =>
      do t <- Date_now;
      ret {| accountData := accountData state;
             isConnected := true;
             error := JNull;
             connectionAttempts := 0;
             lastMessageTime := Some t |}
  | DISCONNECTED reason =>
      ret (set_error (JStr (match reason with
                            | Some r => if String.eqb r "" then "Connection lost." else r
                            | None => "Connection lost."
                            end))
             initialState)
  | RECONNECTING =>
      let newAttempts := connectionAttempts state + 1 in
      ret {| accountData := accountData state;
             isConnected := false;
             error := JStr ("Reconnecting... Attempt " +:+ pretty newAttempts +:+ ".");
             connectionAttempts := newAttempts;
             lastMessageTime := lastMessageTime state |}
  | MESSAGE payload =>
      let type_ := type payload in
      let data_ := data payload in
      do t <- Date_now;
      let newState := set_lastMessageTime (Some t) state in
      match switch_type type_ with
      | case_account_update => ret (set_accountData data_ newState)
      | case_connection_status
      | case_connection_connected =>
          let statusData := data_ in
          ret (set_error
                 (if ToBoolean (js_get_optional "connected" statusData) then JNull
                  else js_or (js_get_optional "message" statusData)
                             (JStr "Connection status unknown"))
                 newState)
      | case_connection_disconnected =>
          ret (set_error (JStr "MT5 connection lost") newState)
      | case_error =>
          ret (set_error (js_or (js_get_optional "message" data_)
                                (JStr "Unknown server error")) newState)
      | case_default => ret newState   (* Unhandled message types *)
      end
  end.

(** What a pending timer will run.  A timer set by a [connect] closure
    carries the [state.connectionAttempts] that closure was rendered with. *)
Inductive Task :=
  | ConnectionTimeout (ws : nat)
  | HeartbeatTick
  | ReconnectTimer (attempts : Z)
  | ConnectLater (attempts : Z).

Record TimerEntry := {
  timer_id : nat;
  timer_task : Task;
  timer_delay : Q;
  timer_repeats : bool
}.

Record Timers := {
  heartbeat : option nat;
  reconnect_timer : option nat;
  connection : option nat
}.

Record MetaRef := {
  ws : option nat;
  timers : Timers;
  isManualClose : bool
}.

(** One mounted instance of the hook; [captured] holds, for each socket,
    the [state.connectionAttempts] seen by the [connect] closure that
    created it and installed its handlers. *)
Record Client := {
  sockets : list WebSocket;
  captured : list Z;
  metaRef : MetaRef;
  state : WebSocketState;
  pending : list TimerEntry;
  next_timer : nat
}.

Definition initialClient : Client := {|
  sockets := [];
  captured := [];
  metaRef := {| ws := None;
                timers := {| heartbeat := None; reconnect_timer := None; connection := None |};
                isManualClose := false |};
  state := initialState;
  pending := [];
  next_timer := 0%nat
|}.

Definition set_metaRef (m : MetaRef) (c : Client) : Client :=
  {| sockets := sockets c; captured := captured c; metaRef := m; state := state c;
     pending := pending c; next_timer := next_timer c |}.

Definition set_sockets (l : list WebSocket) (c : Client) : Client :=
  {| sockets := l; captured := captured c; metaRef := metaRef c; state := state c;
     pending := pending c; next_timer := next_timer c |}.

Definition set_captured (l : list Z) (c : Client) : Client :=
  {| sockets := sockets c; captured := l; metaRef := metaRef c; state := state c;
     pending := pending c; next_timer := next_timer c |}.

Definition set_state (s : WebSocketState) (c : Client) : Client :=
  {| sockets := sockets c; captured := captured c; metaRef := metaRef c; state := s;
     pending := pending c; next_timer := next_timer c |}.

Definition set_pending (l : list TimerEntry) (c : Client) : Client :=
  {| sockets := sockets c; captured := captured c; metaRef := metaRef c; state := state c;
     pending := l; next_timer := next_timer c |}.

Definition set_ws (v : option nat) (m : MetaRef) : MetaRef :=
  {| ws := v; timers := timers m; isManualClose := isManualClose m |}.

Definition set_timers (v : Timers) (m : MetaRef) : MetaRef :=
  {| ws := ws m; timers := v; isManualClose := isManualClose m |}.

Definition set_isManualClose (v : bool) (m : MetaRef) : MetaRef :=
  {| ws := ws m; timers := timers m; isManualClose := v |}.

Definition schedule (task : Task) (delay : Q) (repeats : bool) (c : Client) : nat * Client :=
  (next_timer c,
   {| sockets := sockets c; captured := captured c; metaRef := metaRef c; state := state c;
      pending := pending c ++ [{| timer_id := next_timer c; timer_task := task;
                                  timer_delay := delay; timer_repeats := repeats |}];
      next_timer := S (next_timer c) |}).

Definition clearTimeout (id : nat) (c : Client) : Client :=
  set_pending (filter (fun e => timer_id e ≠ id) (pending c)) c.

Definition clear_if_set (timer : option nat) (c : Client) : Client :=
  match timer with
  | Some id => clearTimeout id c
  | None => c
  end.

(** [dispatch(action)], run at once (see [Enhanced.dispatch]); what a
    [connect] closure reads of [state] is passed to it explicitly. *)
Definition dispatch (action : WebSocketAction) (c : Client) : M Client :=
  do s <- reducer (state c) action;
  ret (set_state s c).

Definition clearAllTimers (c : Client) : Client :=
  let t := timers (metaRef c) in
  let c := clear_if_set (reconnect_timer t) c in
  let c := clear_if_set (heartbeat t) c in
  clear_if_set (connection t) c.

Definition ws_readyState (c : Client) : option ReadyState :=
  match ws (metaRef c) with
  | Some i => readyState <$> sockets c !! i
  | None => None
  end.

Definition sendMessage (message : JSValue) (c : Client) : Client :=
  match ws (metaRef c), ws_readyState c with
  | Some i, Some OPEN => set_sockets (alter (WebSocket_send message) i (sockets c)) c
  | _, _ => c   (* console.warn *)
  end.

Section WithConfig.
Variable config : WebSocketConnectionConfig.

(** The test at the head of [connect]; [attempts] is the
    [state.connectionAttempts] the closure was rendered with. *)
Definition connect_refused (attempts : Z) (c : Client) : bool :=
  match ws_readyState c with
  | Some CONNECTING | Some OPEN => true
  | _ => maxReconnectAttempts config <? attempts
  end.

Definition connect (attempts : Z) (c : Client) : Client :=
  if connect_refused attempts c then c
  else
    let c := clearAllTimers c in
    let c := set_metaRef (set_isManualClose false (metaRef c)) c in
    let i := length (sockets c) in
    let c := set_sockets (sockets c ++ [{| readyState := CONNECTING; sent := [] |}]) c in
    let c := set_captured (captured c ++ [attempts]) c in
    let c := set_metaRef (set_ws (Some i) (metaRef c)) c in
    let '(id, c) := schedule (ConnectionTimeout i)
                      (inject_Z (connectionTimeout config)) false c in
    set_metaRef (set_timers {| heartbeat := heartbeat (timers (metaRef c));
                               reconnect_timer := reconnect_timer (timers (metaRef c));
                               connection := Some id |}
                   (metaRef c)) c.

Definition connectionTimeout_fires (i : nat) (c : Client) : Client :=
  match sockets c !! i with
  | Some s => if ReadyState_eqb (readyState s) CONNECTING
              then set_sockets (alter WebSocket_close i (sockets c)) c
              else c
  | None => c
  end.

Definition onopen (c : Client) : M Client :=
  let c := clearAllTimers c in
  do c <- dispatch CONNECTED c;
  let '(id, c) := schedule HeartbeatTick (inject_Z (heartbeatInterval config)) true c in
  ret (set_metaRef (set_timers {| heartbeat := Some id;
                                  reconnect_timer := reconnect_timer (timers (metaRef c));
                                  connection := connection (timers (metaRef c)) |}
                      (metaRef c)) c).

Definition heartbeat_tick (c : Client) : M Client :=
  do t <- Date_now;
  ret (sendMessage (JObj [("type", JStr "ping"); ("timestamp", JNum (number_of_Z t))]) c).

Definition type_is (kind : string) (message : WebSocketMessage) : bool :=
  match type message with
  | JStr s => String.eqb s kind
  | _ => false
  end.

Definition onmessage (frame : option WebSocketMessage) (c : Client) : M Client :=
  match frame with
  | None => ret c   (* console.error *)
  | Some message =>
      if negb (type_is "pong" message) && negb (type_is "heartbeat" message)
      then dispatch (MESSAGE message) c
      else ret c
  end.

(** The delay of [ws.onclose], from the counter the closure was rendered
    with. *)
Definition backoff (attempts : Z) : Z :=
  Z.min (reconnectDelay config * 2 ^ attempts) 30000.

Definition onclose (attempts : Z) (code : Z) (reason : string) (c : Client) : M Client :=
  let c := clearAllTimers c in
  do c <- dispatch (DISCONNECTED (Some (if String.eqb reason "" then "Connection lost"
                                        else reason))) c;
  if isManualClose (metaRef c) || (code =? 1000) then ret c
  else
    let delay := backoff attempts in
    let '(id, c) := schedule (ReconnectTimer attempts) (inject_Z delay) false c in
    ret (set_metaRef (set_timers {| heartbeat := heartbeat (timers (metaRef c));
                                    reconnect_timer := Some id;
                                    connection := connection (timers (metaRef c)) |}
                        (metaRef c)) c).

Definition disconnect (c : Client) : M Client :=
  let c := set_metaRef (set_isManualClose true (metaRef c)) c in
  let c := clearAllTimers c in
  let c := match ws (metaRef c) with
           | Some i => set_sockets (alter WebSocket_close i (sockets c)) c
           | None => c
           end in
  let c := set_metaRef (set_ws None (metaRef c)) c in
  dispatch (DISCONNECTED (Some "Manually disconnected")) c.

Definition reconnect (attempts : Z) (c : Client) : M Client :=
  do c <- disconnect c;
  ret (snd (schedule (ConnectLater attempts) 100 false c)).

Definition run_task (task : Task) (c : Client) : M Client :=
  match task with
  | ConnectionTimeout i => ret (connectionTimeout_fires i c)
  | HeartbeatTick => heartbeat_tick c
  | ReconnectTimer attempts => do c <- dispatch RECONNECTING c; ret (connect attempts c)
  | ConnectLater attempts => ret (connect attempts c)
  end.

(** The events of a mounted hook.  The mount/unmount effect depends on
    [connect] and [disconnect]: it calls [connect] on mount and, whenever
    a render produces a new [connect], [disconnect] followed by the new
    [connect]; both show here as calls.  A call of [connect] or
    [reconnect] names the [state.connectionAttempts] of the render its
    closure comes from.  As in the enhanced hook, [SocketClosing] is the
    peer starting the closing handshake: the browser sets the
    [readyState] of an open socket to CLOSING and runs no handler. *)
Inductive Event :=
  | CallConnect (attempts : Z)
  | CallDisconnect
  | CallReconnect (attempts : Z)
  | CallSendMessage (message : JSValue)
  | SocketOpen (i : nat)
  | SocketMessage (i : nat) (frame : option WebSocketMessage)
  | SocketClose (i : nat) (code : Z) (reason : string)
  | TimerFires (id : nat)
  | SocketClosing (i : nat).

Definition step (c : Client) (e : Event) : M Client :=
  match e with
  | CallConnect attempts => ret (connect attempts c)
  | CallDisconnect => disconnect c
  | CallReconnect attempts => reconnect attempts c
  | CallSendMessage message => ret (sendMessage message c)
  | SocketOpen i =>
      match readyState <$> sockets c !! i with
      | Some CONNECTING =>
          onopen (set_sockets (alter (set_readyState OPEN) i (sockets c)) c)
      | _ => ret c
      end
  | SocketMessage i frame =>
      match readyState <$> sockets c !! i with
      | Some OPEN => onmessage frame c
      | _ => ret c
      end
  | SocketClose i code reason =>
      match readyState <$> sockets c !! i with
      | Some CLOSED | None => ret c
      | Some _ =>
          onclose (default 0 (captured c !! i)) code reason
                  (set_sockets (alter (set_readyState CLOSED) i (sockets c)) c)
      end
  | TimerFires id =>
      match List.find (fun e => Nat.eqb (timer_id e) id) (pending c) with
      | Some e =>
          let c := if timer_repeats e then c else clearTimeout id c in
          run_task (timer_task e) c
      | None => ret c
      end
  | SocketClosing i =>
      match readyState <$> sockets c !! i with
      | Some OPEN => ret (set_sockets (alter (set_readyState CLOSING) i (sockets c)) c)
      | _ => ret c
      end
  end.

Definition run (events : list Event) (c : Client) : M Client :=
  forEach step events c.

End WithConfig.
End Hook.
End Basic.

(* ===================================================================== *)
(** * 5. Concrete numbers, configuration and environment for closed runs *)
(* ===================================================================== *)

(** The integer-valued doubles and NaN ([None]).  Strings are read as
    decimal integer literals with an optional sign; any other literal is
    outside this instance and reads as NaN.  (JavaScript prints integers
    from 10^21 on in exponent notation; none occurs below.) *)
Definition digit_of (a : ascii) : option Z :=
  if Ascii.eqb a "0" then Some 0 else if Ascii.eqb a "1" then Some 1
  else if Ascii.eqb a "2" then Some 2 else if Ascii.eqb a "3" then Some 3
  else if Ascii.eqb a "4" then Some 4 else if Ascii.eqb a "5" then Some 5
  else if Ascii.eqb a "6" then Some 6 else if Ascii.eqb a "7" then Some 7
  else if Ascii.eqb a "8" then Some 8 else if Ascii.eqb a "9" then Some 9
  else None.

Fixpoint leading_digits (s : string) (acc : option Z) : option Z :=
  match s with
  | EmptyString => acc
  | String a rest =>
      match digit_of a with
      | Some d => leading_digits rest (Some (default 0 acc * 10 + d))
      | None => acc
      end
  end.

Fixpoint all_digits (s : string) (acc : option Z) : option Z :=
  match s with
  | EmptyString => acc
  | String a rest =>
      match digit_of a with
      | Some d => all_digits rest (Some (default 0 acc * 10 + d))
      | None => None
      end
  end.

Definition signed (parse : string -> option Z) (s : string) : option Z :=
  match s with
  | String a rest =>
      if Ascii.eqb a "-" then Z.opp <$> parse rest
      else if Ascii.eqb a "+" then parse rest
      else parse s
  | EmptyString => parse s
  end.

#[export] Instance IntNumber : JSNumber := {|
  number := option Z;
  number_of_Z := Some;
  number_nan := None;
  number_truthy := fun n => match n with Some z => negb (z =? 0) | None => false end;
  number_to_string := fun n => match n with Some z => pretty z | None => "NaN" end;
  string_to_number := fun s => if String.eqb s "" then Some 0
                               else signed (fun s => all_digits s None) s;
  parseInt := signed (fun s => leading_digits s None);
  number_sub := fun a b => match a, b with Some x, Some y => Some (x - y) | _, _ => None end;
  number_eqb := fun a b => match a, b with Some x, Some y => x =? y | _, _ => false end;
  number_ltb := fun a b => match a, b with Some x, Some y => x <? y | _, _ => false end
|}.

(** Modelled from the spec: the constants of [@/lib/config], which is
    missing from the sources, with the defaults the specification names
    (base delay 2000 ms, factor 2, cap 30000 ms, 5 attempts, heartbeat
    30 s, connection timeout 10 s).  The specification gives no channel
    names, buffer size or flush period; the ones here are placeholders,
    and the general lemmas below hold for every configuration. *)
Definition sample_config (batching jitter : bool) : Enhanced.Config := {|
  Enhanced.maxReconnectAttempts := 5;
  Enhanced.reconnectDelay := 2000;
  Enhanced.heartbeatInterval := 30000;
  Enhanced.connectionTimeout := 10000;
  Enhanced.enablePubSub := true;
  Enhanced.autoSubscribe := true;
  Enhanced.BACKOFF_FACTOR := 2;
  Enhanced.MAX_DELAY := 30000;
  Enhanced.JITTER := jitter;
  Enhanced.BATCH_UPDATES := batching;
  Enhanced.BUFFER_SIZE := 3;
  Enhanced.MAX_UPDATE_FREQUENCY := 100;
  Enhanced.ACCOUNT_UPDATES := "account_updates";
  Enhanced.POSITION_UPDATES := "position_updates";
  Enhanced.ORDER_UPDATES := "order_updates";
  Enhanced.CONNECTION_STATUS := "connection_status"
|}.

(** An environment: the clock advances 7 ms between readings, and
    [Math.random()] keeps returning 1/2. *)
Definition sample_world : World := {|
  clock := fun i => 1700000000000 + 7 * Z.of_nat i;
  ticks := 0;
  random := fun _ => (1 # 2)%Q;
  draws := 0
|}.

(* ===================================================================== *)
(** * 6. Vocabulary of the properties *)
(* ===================================================================== *)

(** The number of transports that are connecting or open. *)
Definition live_count `{JSNumber} (sockets : list WebSocket) : nat :=
  length (List.filter live sockets).

(** Every transport that is connecting or open is the one [metaRef.ws]
    points to. *)
Definition sole_owner `{JSNumber} (sockets : list WebSocket) (ws : option nat) : Prop :=
  forall i s, sockets !! i = Some s -> live s = true -> ws = Some i.

(** The frames of kind 'subscribe' naming [channel] among [frames]. *)
Definition is_subscribe_for `{JSNumber} (channel : string) (frame : JSValue) : bool :=
  match js_get_optional "type" frame, js_get_optional "channel" frame with
  | JStr t, JStr c => String.eqb t "subscribe" && String.eqb c channel
  | _, _ => false
  end.

(** The handle and delay of the pending reconnect timer. *)
Definition pending_reconnect_delay `{JSNumber} (c : Enhanced.Client) : option Q :=
  Enhanced.timer_delay <$>
    List.find (fun e => match Enhanced.timer_task e with
                        | Enhanced.ReconnectTimer => true
                        | _ => false
                        end) (Enhanced.pending c).

Definition basic_pending_reconnect_delay `{JSNumber} (c : Basic.Client) : option Q :=
  Basic.timer_delay <$>
    List.find (fun e => match Basic.timer_task e with
                        | Basic.ReconnectTimer _ => true
                        | _ => false
                        end) (Basic.pending c).

(** The [case] labels of [Enhanced.processMessage]; a message of any
    other kind (including 'welcome' and 'heartbeat') takes [default]. *)
Definition case_labels : list string :=
  ["account_update"; "market_data"; "position_update"; "order_update";
   "connection_status"; "connection_connected"; "connection_disconnected";
   "error"; "pong"].

(** The quote held for [symbol], if any. *)
Definition quote_of `{JSNumber} (s : Enhanced.WebSocketState) (symbol : string)
  : option JSValue :=
  Enhanced.marketData s ≫= (fun quotes => quotes !! symbol).

(** The [error] an 'error' payload is said to produce: the payload when
    it is a bare string, its message field when it is an object carrying
    one, the generic default otherwise. *)
Definition claimed_error `{JSNumber} (payload : JSValue) : JSValue :=
  match payload with
  | JStr _ => payload
  | JObj props =>
      match own_property "message" props with
      | Some message => message
      | None => JStr "Unknown server error"
      end
  | _ => JStr "Unknown server error"
  end.

(** The same, with the default also standing in for a message field that
    is falsy (empty, [null], [0], [false]). *)
Definition error_of_payload `{JSNumber} (payload : JSValue) : JSValue :=
  match payload with
  | JStr _ => payload
  | JObj props =>
      match own_property "message" props with
      | Some message => if ToBoolean message then message else JStr "Unknown server error"
      | None => JStr "Unknown server error"
      end
  | _ => JStr "Unknown server error"
  end.

(** The basic hook reads the message field only. *)
Definition basic_error_of_payload `{JSNumber} (payload : JSValue) : JSValue :=
  match payload with
  | JObj props =>
      match own_property "message" props with
      | Some message => if ToBoolean message then message else JStr "Unknown server error"
      | None => JStr "Unknown server error"
      end
  | _ => JStr "Unknown server error"
  end.

(** Applying the buffered messages one at a time, oldest first, each
    through the reducer: a left fold that stops at the first exception. *)
Definition apply_in_arrival_order `{JSNumber}
  (s : Enhanced.WebSocketState) (buffered : list WebSocketMessage) : M Enhanced.WebSocketState :=
  fun w =>
    fold_left (fun outcome message =>
                 match outcome with
                 | Ok (s, w) => Enhanced.reducer s (Enhanced.MESSAGE message) w
                 | Throw e => Throw e
                 end)
              buffered (Ok (s, w)).

(** [{ balance: n }] and the 'account_update' frame carrying it. *)
Definition balance `{JSNumber} (n : Z) : JSValue := JObj [("balance", JNum (number_of_Z n))].

Definition account_update `{JSNumber} (n : Z) : WebSocketMessage :=
  {| type := JStr "account_update"; data := balance n |}.

(** A frame that [onmessage] hands to the buffer or the reducer: any
    kind but 'pong' and 'heartbeat'. *)
Definition bufferable `{JSNumber} (message : WebSocketMessage) : bool :=
  negb (Enhanced.type_is "pong" message) && negb (Enhanced.type_is "heartbeat" message).

(** The frames [messages] arriving one after the other. *)
Definition deliver `{JSNumber} (finalConfig : Enhanced.Config)
  (messages : list WebSocketMessage) (c : Enhanced.Client) : M Enhanced.Client :=
  forEach (fun c message => Enhanced.onmessage finalConfig (Some message) c) messages c.

(** The client once its buffer has been applied and emptied. *)
Definition flushed `{JSNumber} (s : Enhanced.WebSocketState) (c : Enhanced.Client)
  : Enhanced.Client :=
  Enhanced.set_state s
    (Enhanced.set_metaRef (Enhanced.set_ref_messageBuffer [] (Enhanced.metaRef c)) c).

(** The invariant behind "at most one live connection": a transport
    that is connecting or open is the one the hook holds. *)
Definition owned `{JSNumber} (c : Enhanced.Client) : Prop :=
  sole_owner (Enhanced.sockets c) (Enhanced.ws (Enhanced.metaRef c)).

Definition basic_owned `{JSNumber} (c : Basic.Client) : Prop :=
  sole_owner (Basic.sockets c) (Basic.ws (Basic.metaRef c)).

(** Two clients with the same sockets and the same [metaRef.ws]. *)
Definition same_transport `{JSNumber} (c c' : Enhanced.Client) : Prop :=
  Enhanced.sockets c' = Enhanced.sockets c /\
  Enhanced.ws (Enhanced.metaRef c') = Enhanced.ws (Enhanced.metaRef c).

Definition basic_same_transport `{JSNumber} (c c' : Basic.Client) : Prop :=
  Basic.sockets c' = Basic.sockets c /\
  Basic.ws (Basic.metaRef c') = Basic.ws (Basic.metaRef c).

(** The calls of [connect], [disconnect] and [reconnect]. *)
Definition is_call `{JSNumber} (e : Enhanced.Event) : bool :=
  match e with
  | Enhanced.CallConnect | Enhanced.CallDisconnect | Enhanced.CallReconnect => true
  | _ => false
  end.

Definition basic_is_call `{JSNumber} (e : Basic.Event) : bool :=
  match e with
  | Basic.CallConnect _ | Basic.CallDisconnect | Basic.CallReconnect _ => true
  | _ => false
  end.

(** An environment in which 100 s pass between two readings of the
    clock. *)
Definition slow_world : World := {|
  clock := fun i => 1700000000000 + 100000 * Z.of_nat i;
  ticks := 0;
  random := fun _ => (1 # 2)%Q;
  draws := 0
|}.

(** The hook mounts, the socket opens, one heartbeat is sent, and the
    next latency check finds no reply for more than two heartbeat
    intervals.  (Handles: 0 connection timeout, 1 heartbeat, 2 latency
    check, 3 to 6 the auto-subscriptions.) *)
Definition stale_heartbeat : list Enhanced.Event :=
  [Enhanced.Mount; Enhanced.SocketOpen 0; Enhanced.TimerFires 1; Enhanced.TimerFires 2].

(** The first connection attempt fails: the socket closes with code 1006
    before it ever opens. *)
Definition first_failure : list Enhanced.Event :=
  [Enhanced.Mount; Enhanced.SocketClose 0 1006 ""].

Definition basic_first_failure : list Basic.Event :=
  [Basic.CallConnect 0; Basic.SocketClose 0 1006 ""].

(** With batching on, the hook mounts (handle 0 is the flush interval),
    the socket opens, one account update arrives and waits in the
    buffer, and the caller disconnects. *)
Definition disconnect_with_a_frame_waiting : list Enhanced.Event :=
  [Enhanced.Mount; Enhanced.SocketOpen 0;
   Enhanced.SocketMessage 0 (Some (account_update 100)); Enhanced.CallDisconnect].

(** A disconnect/reconnect cycle around a subscription: the socket opens
    and the four auto-subscriptions are sent (timers 3 to 6); the caller
    subscribes to "trades"; the socket closes with code 1006; the
    reconnect timer (7) fires and opens socket 1; its auto-subscriptions
    (timers 11 to 14) and one heartbeat (timer 9) are sent. *)
Definition reconnect_cycle : list Enhanced.Event :=
  [Enhanced.Mount; Enhanced.SocketOpen 0;
   Enhanced.TimerFires 3; Enhanced.TimerFires 4; Enhanced.TimerFires 5; Enhanced.TimerFires 6;
   Enhanced.CallSubscribe "trades";
   Enhanced.SocketClose 0 1006 "";
   Enhanced.TimerFires 7;
   Enhanced.SocketOpen 1;
   Enhanced.TimerFires 11; Enhanced.TimerFires 12; Enhanced.TimerFires 13;
   Enhanced.TimerFires 14; Enhanced.TimerFires 9].

(** The frames sent on socket [i]. *)
Definition sent_on `{JSNumber} (i : nat) (c : Enhanced.Client) : list JSValue :=
  default [] (sent <$> Enhanced.sockets c !! i).

(** A snapshot holding one quote, [EURUSD: {bid: 110}] (bids in
    hundredths), and the frame [market_data {symbol: "GBPUSD", bid: 125}]. *)
Definition eurusd_snapshot : Enhanced.WebSocketState :=
  Enhanced.set_marketData (Some {[ "EURUSD" := JObj [("bid", JNum (number_of_Z 110))] ]})
    Enhanced.initialState.

Definition gbpusd_quote : JSValue :=
  JObj [("symbol", JStr "GBPUSD"); ("bid", JNum (number_of_Z 125))].

Definition gbpusd_update : WebSocketMessage :=
  {| type := JStr "market_data"; data := gbpusd_quote |}.

(** A frame of a kind the reducer does not know, and an 'error' frame
    whose message is empty. *)
Definition nonsense : WebSocketMessage := {| type := JStr "nonsense"; data := JNull |}.

Definition empty_error : WebSocketMessage :=
  {| type := JStr "error"; data := JObj [("message", JStr "")] |}.

(** The subscribe frames naming [channel] sent on each socket. *)
Definition frames_for `{JSNumber} (channel : string) (c : Enhanced.Client) : list (list JSValue) :=
  List.map (fun s => List.filter (is_subscribe_for channel) (sent s)) (Enhanced.sockets c).

(** No pending timer will subscribe to [channel]. *)
Definition quiet_pending `{JSNumber} (channel : string) (c : Enhanced.Client) : Prop :=
  Forall (fun e => Enhanced.timer_task e ≠ Enhanced.SubscribeLater channel) (Enhanced.pending c).

(** From [c] to [c']: no timer that subscribes to [channel] was added,
    no subscribe frame naming it was sent, and new sockets carry none. *)
Definition calm `{JSNumber} (channel : string) (c c' : Enhanced.Client) : Prop :=
  (quiet_pending channel c -> quiet_pending channel c') /\
  exists k, frames_for channel c' = frames_for channel c ++ replicate k [].

(** An event by which the caller does not itself subscribe to [channel]. *)
Definition quiet_event `{JSNumber} (channel : string) (e : Enhanced.Event) : Prop :=
  match e with
  | Enhanced.CallSubscribe other => other ≠ channel
  | Enhanced.CallSendMessage message => is_subscribe_for channel message = false
  | _ => True
  end.

(* ===================================================================== *)
(** * The dashboard: [OptimizedDashboard] ([src/unnamed/part_003])

    The two memoised computations the dashboard makes on what
    [useEnhancedWebSocket] returns.  They add and format numbers, so
    they need two more operations on JavaScript numbers. *)
(* ===================================================================== *)

Class JSArith `{JSNumber} := {
  (** [+] on two numbers *)
  number_add : number -> number -> number;
  (** [Number.prototype.toFixed] with a digit count between 0 and 100 *)
  number_toFixed : number -> Z -> string
}.

Module Dashboard.
Section Memo.
Context `{JSArith}.

(** ToPrimitive: an array or an object becomes its string. *)
Definition ToPrimitive (v : JSValue) : JSValue :=
  match v with
  | JArr _ | JObj _ => JStr (ToString v)
  | _ => v
  end.

(** [a + b]: concatenation as soon as one side is a string, the sum of
    the two numbers otherwise. *)
Definition js_add (a b : JSValue) : JSValue :=
  let pa := ToPrimitive a in
  let pb := ToPrimitive b in
  if typeof_string pa || typeof_string pb
  then JStr (ToString pa +:+ ToString pb)
  else JNum (number_add (ToNumber pa) (ToNumber pb)).

(** [v > n] and [v < n] for a number literal [n]. *)
Definition js_gt (v : JSValue) (n : Z) : bool := number_ltb (number_of_Z n) (ToNumber v).
Definition js_lt (v : JSValue) (n : Z) : bool := number_ltb (ToNumber v) (number_of_Z n).

(** [v.toFixed(digits)]: only a number has the method. *)
Definition call_toFixed (v : JSValue) (digits : Z) : Result string :=
  match v with
  | JNum n => Ok (number_toFixed n digits)
  | JUndefined | JNull => Throw (TypeError "Cannot read properties of undefined (reading 'toFixed')")
  | _ => Throw (TypeError "toFixed is not a function")
  end.

Definition and_then {A B} (r : Result A) (k : A -> Result B) : Result B :=
  match r with
  | Ok a => k a
  | Throw e => Throw e
  end.

Inductive Trend := up | down | stable.
Inductive Status := success | warning | error | neutral.

(** One card of the dashboard; a field the source leaves out is [None]. *)
Record Metric := {
  value : string;
  currency : option JSValue;
  trend : option Trend;
  status : option Status
}.

Record AccountMetrics := {
  balance : Metric;
  equity : Metric;
  profit : Metric;
  marginLevel : Metric;
  freeMargin : Metric
}.

(** [accountMetrics], the first [useMemo]. *)
Definition accountMetrics (accountData : JSValue) : Result (option AccountMetrics) :=
  if negb (ToBoolean accountData) then Ok None
  else
    and_then (js_get "margin_level" accountData) (fun marginLevel =>
    and_then (js_get "profit" accountData) (fun profit_ =>
    let profitTrend := if js_gt profit_ 0 then up
                       else if js_lt profit_ 0 then down else stable in
    let marginStatus := if js_gt marginLevel 200 then success
                        else if js_gt marginLevel 100 then warning else error in
    let profitStatus := match profitTrend with
                        | up => success
                        | down => error
                        | stable => neutral
                        end in
    and_then (js_get "balance" accountData) (fun balance_ =>
    and_then (call_toFixed balance_ 2) (fun balanceValue =>
    and_then (js_get "currency" accountData) (fun currency_ =>
    and_then (js_get "equity" accountData) (fun equity_ =>
    and_then (call_toFixed equity_ 2) (fun equityValue =>
    and_then (call_toFixed profit_ 2) (fun profitValue =>
    and_then (call_toFixed marginLevel 1) (fun marginValue =>
    and_then (js_get "margin_free" accountData) (fun marginFree =>
    and_then (call_toFixed marginFree 2) (fun freeValue =>
    Ok (Some {|
      balance := {| value := balanceValue; currency := Some currency_;
                    trend := Some stable; status := None |};
      equity := {| value := equityValue; currency := Some currency_;
                   trend := Some profitTrend; status := None |};
      profit := {| value := profitValue; currency := Some currency_;
                   trend := Some profitTrend; status := Some profitStatus |};
      marginLevel := {| value := marginValue; currency := None;
                        trend := Some stable; status := Some marginStatus |};
      freeMargin := {| value := freeValue; currency := Some currency_;
                       trend := None; status := None |}
    |})))))))))))).

(** The accumulator of [positionSummary].  The three counts only ever
    grow by one from 0, so they are exact integers; [totalProfit] is
    whatever [+=] makes of the profits. *)
Record Summary := {
  total : Z;
  profitable : Z;
  losing : Z;
  totalProfit : JSValue
}.

Definition no_positions : Summary :=
  {| total := 0; profitable := 0; losing := 0; totalProfit := JNum (number_of_Z 0) |}.

(** The callback of [positions.reduce]. *)
Definition count_position (acc : Summary) (position : JSValue) : Result Summary :=
  let acc := {| total := total acc + 1; profitable := profitable acc;
                losing := losing acc; totalProfit := totalProfit acc |} in
  and_then (js_get "profit" position) (fun profit_ =>
  let acc := {| total := total acc; profitable := profitable acc;
                losing := losing acc; totalProfit := js_add (totalProfit acc) profit_ |} in
  let acc := if js_gt profit_ 0
             then {| total := total acc; profitable := profitable acc + 1;
                     losing := losing acc; totalProfit := totalProfit acc |}
             else acc in
  let acc := if js_lt profit_ 0
             then {| total := total acc; profitable := profitable acc;
                     losing := losing acc + 1; totalProfit := totalProfit acc |}
             else acc in
  Ok acc).

Fixpoint reduce (items : list JSValue) (acc : Summary) : Result Summary :=
  match items with
  | [] => Ok acc
  | position :: rest => and_then (count_position acc position) (reduce rest)
  end.

(** [positionSummary], the second [useMemo]. *)
Definition positionSummary (positions : JSValue) : Result Summary :=
  if negb (ToBoolean positions) then Ok no_positions
  else match positions with
       | JArr items => reduce items no_positions
       | _ => Throw (TypeError "positions.reduce is not a function")
       end.

End Memo.
End Dashboard.

(** The integer-valued doubles again: sums, and [toFixed] (a number from
    10^21 on is printed in exponent notation; none occurs below). *)
#[export] Instance IntArith : JSArith := {|
  number_add := fun a b => match a, b with Some x, Some y => Some (x + y) | _, _ => None end;
  number_toFixed := fun n digits =>
    match n with
    | Some z => if digits =? 0 then pretty z
                else pretty z +:+ "." +:+ String.concat "" (replicate (Z.to_nat digits) "0")
    | None => "NaN"
    end
|}.

(* ===================================================================== *)
(** * Vocabulary of the further properties *)
(* ===================================================================== *)

(** The payload of the last 'account_update' frame of a batch, if any. *)
Definition last_account_update `{JSNumber} (messages : list WebSocketMessage) : option JSValue :=
  fold_left (fun found message =>
               match Enhanced.switch_type (type message) with
               | Enhanced.case_account_update => Some (data message)
               | _ => found
               end) messages None.

(** A second market frame, [market_data {symbol: "EURUSD", bid: 111}]. *)
Definition eurusd_update : WebSocketMessage :=
  {| type := JStr "market_data";
     data := JObj [("symbol", JStr "EURUSD"); ("bid", JNum (number_of_Z 111))] |}.

(** The frame [subscribe] and [unsubscribe] build. *)
Definition channel_frame `{JSNumber} (kind channel : string) (t : Time) : JSValue :=
  JObj [("type", JStr kind); ("channel", JStr channel); ("timestamp", JNum (number_of_Z t))].

(** The ready states in the order a socket goes through them. *)
Definition rank (r : ReadyState) : nat :=
  match r with CONNECTING => 0 | OPEN => 1 | CLOSING => 2 | CLOSED => 3 end.

(** From [a] to a later state [b] of one socket: the ready state has not
    gone back, the frames sent are still there in order, and none was
    added while the socket was connecting or after it left the open
    state. *)
Definition socket_grows `{JSNumber} (a b : WebSocket) : Prop :=
  (rank (readyState a) <= rank (readyState b))%nat /\
  sent a `prefix_of` sent b /\
  (readyState b = CONNECTING -> sent b = sent a) /\
  (live a = false -> sent b = sent a).

(** Every socket of [l] is still there in [l'], at the same index. *)
Definition sockets_grow `{JSNumber} (l l' : list WebSocket) : Prop :=
  forall i a, l !! i = Some a -> exists b, l' !! i = Some b /\ socket_grows a b.


(** Some socket has started closing and has not been reported closed. *)
Definition closing_socket `{JSNumber} (l : list WebSocket) : Prop :=
  exists i s, l !! i = Some s /\ readyState s = CLOSING.

(** What a snapshot that says "connected" rests on: either it says "not
    connected", or [metaRef.ws] is a socket that has opened and has not
    started closing, or some socket is closing and its close event is
    still to come. *)
Definition connected_is_backed `{JSNumber} (c : Enhanced.Client) : Prop :=
  Enhanced.isConnected (Enhanced.state c) = false \/
  Enhanced.ws_readyState c = Some OPEN \/
  closing_socket (Enhanced.sockets c).

(** The timers whose handle the hook keeps in [metaRef.timers], and the
    slot each is kept in. *)
Definition tracked (task : Enhanced.Task) : bool :=
  match task with
  | Enhanced.ConnectionTimeout _ | Enhanced.HeartbeatTick
  | Enhanced.LatencyCheckTick | Enhanced.ReconnectTimer => true
  | Enhanced.SubscribeLater _ | Enhanced.ConnectLater | Enhanced.FlushTick => false
  end.

Definition slot_of (task : Enhanced.Task) (t : Enhanced.Timers) : option nat :=
  match task with
  | Enhanced.ConnectionTimeout _ => Enhanced.connection t
  | Enhanced.HeartbeatTick => Enhanced.heartbeat t
  | Enhanced.LatencyCheckTick => Enhanced.latencyCheck t
  | Enhanced.ReconnectTimer => Enhanced.reconnect_timer t
  | _ => None
  end.

(** [Object.values(metaRef.current.timers)] *)
Definition handles (t : Enhanced.Timers) : list (option nat) :=
  [Enhanced.heartbeat t; Enhanced.reconnect_timer t; Enhanced.connection t;
   Enhanced.latencyCheck t].

(** The tasks set with [setInterval]. *)
Definition is_interval (task : Enhanced.Task) : bool :=
  match task with
  | Enhanced.HeartbeatTick | Enhanced.LatencyCheckTick | Enhanced.FlushTick => true
  | _ => false
  end.

(** The book-keeping of the timers: handles are fresh; a pending timer
    of a tracked kind is the one its slot names; the handle of any other
    pending timer is in no slot; intervals repeat, time-outs do not. *)
Definition tracked_inv (p : list Enhanced.TimerEntry) (n : nat) (t : Enhanced.Timers) : Prop :=
  (forall e, e ∈ p -> (Enhanced.timer_id e < n)%nat) /\
  (forall id, Some id ∈ handles t -> (id < n)%nat) /\
  (forall e, e ∈ p ->
     if tracked (Enhanced.timer_task e)
     then slot_of (Enhanced.timer_task e) t = Some (Enhanced.timer_id e)
     else Some (Enhanced.timer_id e) ∉ handles t) /\
  (forall e, e ∈ p -> Enhanced.timer_repeats e = is_interval (Enhanced.timer_task e)).

Definition timers_tracked `{JSNumber} (c : Enhanced.Client) : Prop :=
  tracked_inv (Enhanced.pending c) (Enhanced.next_timer c)
              (Enhanced.timers (Enhanced.metaRef c)).

(** From [c] to [c']: the timer queue and the slots are untouched. *)
Definition same_timers `{JSNumber} (c c' : Enhanced.Client) : Prop :=
  Enhanced.pending c' = Enhanced.pending c /\
  Enhanced.next_timer c' = Enhanced.next_timer c /\
  Enhanced.timers (Enhanced.metaRef c') = Enhanced.timers (Enhanced.metaRef c).

(** The attempt counter of the snapshot is 0 or 1, and 0 while a
    reconnect timer is pending. *)
Definition attempts_inv `{JSNumber} (c : Enhanced.Client) : Prop :=
  0 <= Enhanced.connectionAttempts (Enhanced.state c) <= 1 /\
  (forall e, e ∈ Enhanced.pending c -> Enhanced.timer_task e = Enhanced.ReconnectTimer ->
             Enhanced.connectionAttempts (Enhanced.state c) = 0).

(** A reconnect that overtakes the close of the old socket: the socket
    opens, the caller calls [reconnect] (timer 7 is its delayed
    [connect]), the new socket 1 is created and opens, and only then
    does the browser deliver the close event of socket 0. *)
Definition overtaking_reconnect : list Enhanced.Event :=
  [Enhanced.Mount; Enhanced.SocketOpen 0; Enhanced.CallReconnect; Enhanced.TimerFires 7;
   Enhanced.SocketOpen 1].

Definition replaced_socket : Enhanced.Client :=
  match Enhanced.run (sample_config false false) overtaking_reconnect
          Enhanced.initialClient sample_world with
  | Ok (c, _) => c
  | Throw _ => Enhanced.initialClient
  end.

(** The buffer of [onmessage]: shorter than the size at which it is
    flushed, holding data frames only, and empty when batching is off. *)
Definition buffer_inv `{JSNumber} (cfg : Enhanced.Config) (c : Enhanced.Client) : Prop :=
  Z.of_nat (length (Enhanced.ref_messageBuffer (Enhanced.metaRef c)))
    < Z.max 1 (Enhanced.BUFFER_SIZE cfg) /\
  Forall (fun m => bufferable m = true) (Enhanced.ref_messageBuffer (Enhanced.metaRef c)) /\
  (Enhanced.BATCH_UPDATES cfg = false -> Enhanced.ref_messageBuffer (Enhanced.metaRef c) = []).

(** From [c] to [c']: the buffer is untouched. *)
Definition same_buffer `{JSNumber} (c c' : Enhanced.Client) : Prop :=
  Enhanced.ref_messageBuffer (Enhanced.metaRef c')
  = Enhanced.ref_messageBuffer (Enhanced.metaRef c).

(** The hook has given up: the attempt counter of [metaRef] is past the
    configured maximum and no transport is connecting or open. *)
Definition exhausted `{JSNumber} (cfg : Enhanced.Config) (c : Enhanced.Client) : Prop :=
  Enhanced.maxReconnectAttempts cfg < Enhanced.ref_connectionAttempts (Enhanced.metaRef c) /\
  Forall (fun s => live s = false) (Enhanced.sockets c).

(** The events that reset the attempt counter of [metaRef]: they all go
    through [disconnect]. *)
Definition resets `{JSNumber} (e : Enhanced.Event) : bool :=
  match e with
  | Enhanced.CallDisconnect | Enhanced.CallReconnect | Enhanced.Unmount => true
  | _ => false
  end.

(** Six connection attempts in a row fail (code 1006), each followed by
    the reconnect timer the close has set (handles 1, 3, 5, 7, 9). *)
Definition six_failures : list Enhanced.Event :=
  [Enhanced.Mount;
   Enhanced.SocketClose 0 1006 ""; Enhanced.TimerFires 1;
   Enhanced.SocketClose 1 1006 ""; Enhanced.TimerFires 3;
   Enhanced.SocketClose 2 1006 ""; Enhanced.TimerFires 5;
   Enhanced.SocketClose 3 1006 ""; Enhanced.TimerFires 7;
   Enhanced.SocketClose 4 1006 ""; Enhanced.TimerFires 9;
   Enhanced.SocketClose 5 1006 ""].

Definition after_six_failures : Enhanced.Client :=
  match Enhanced.run (sample_config false false) six_failures
          Enhanced.initialClient sample_world with
  | Ok (c, _) => c
  | Throw _ => Enhanced.initialClient
  end.

(** From [c] to [c']: no socket was created, none came to life, nothing
    was sent, and the attempt counter of [metaRef] did not go down. *)
Definition at_rest `{JSNumber} (c c' : Enhanced.Client) : Prop :=
  Enhanced.ref_connectionAttempts (Enhanced.metaRef c)
    <= Enhanced.ref_connectionAttempts (Enhanced.metaRef c') /\
  sent <$> Enhanced.sockets c' = sent <$> Enhanced.sockets c /\
  (Forall (fun s => live s = false) (Enhanced.sockets c) ->
   Forall (fun s => live s = false) (Enhanced.sockets c')).


(** The same book-keeping for the basic hook, whose [clearAllTimers]
    leaves the old handles in the slots. *)
Definition basic_tracked (task : Basic.Task) : bool :=
  match task with
  | Basic.ConnectionTimeout _ | Basic.HeartbeatTick | Basic.ReconnectTimer _ => true
  | Basic.ConnectLater _ => false
  end.

Definition basic_slot_of (task : Basic.Task) (t : Basic.Timers) : option nat :=
  match task with
  | Basic.ConnectionTimeout _ => Basic.connection t
  | Basic.HeartbeatTick => Basic.heartbeat t
  | Basic.ReconnectTimer _ => Basic.reconnect_timer t
  | Basic.ConnectLater _ => None
  end.

Definition basic_handles (t : Basic.Timers) : list (option nat) :=
  [Basic.reconnect_timer t; Basic.heartbeat t; Basic.connection t].

Definition basic_is_interval (task : Basic.Task) : bool :=
  match task with
  | Basic.HeartbeatTick => true
  | _ => false
  end.

Definition basic_is_reconnect (task : Basic.Task) : bool :=
  match task with
  | Basic.ReconnectTimer _ => true
  | _ => false
  end.

Definition basic_tracked_inv (p : list Basic.TimerEntry) (n : nat) (t : Basic.Timers) : Prop :=
  (forall e, e ∈ p -> (Basic.timer_id e < n)%nat) /\
  (forall id, Some id ∈ basic_handles t -> (id < n)%nat) /\
  (forall e, e ∈ p ->
     if basic_tracked (Basic.timer_task e)
     then basic_slot_of (Basic.timer_task e) t = Some (Basic.timer_id e)
     else Some (Basic.timer_id e) ∉ basic_handles t) /\
  (forall e, e ∈ p -> Basic.timer_repeats e = basic_is_interval (Basic.timer_task e)).

Definition basic_timers_tracked `{JSNumber} (c : Basic.Client) : Prop :=
  basic_tracked_inv (Basic.pending c) (Basic.next_timer c) (Basic.timers (Basic.metaRef c)).

Definition basic_same_timers `{JSNumber} (c c' : Basic.Client) : Prop :=
  Basic.pending c' = Basic.pending c /\
  Basic.next_timer c' = Basic.next_timer c /\
  Basic.timers (Basic.metaRef c') = Basic.timers (Basic.metaRef c).

Definition basic_attempts_inv `{JSNumber} (c : Basic.Client) : Prop :=
  0 <= Basic.connectionAttempts (Basic.state c) <= 1 /\
  (forall e, e ∈ Basic.pending c -> basic_is_reconnect (Basic.timer_task e) = true ->
             Basic.connectionAttempts (Basic.state c) = 0).

(** A payload field that holds a number, and an account payload whose
    five amounts do. *)
Definition numeric_field `{JSNumber} (key : string) (v : JSValue) : bool :=
  match js_get_optional key v with
  | JNum _ => true
  | _ => false
  end.

Definition well_formed_account `{JSNumber} (v : JSValue) : bool :=
  numeric_field "balance" v && numeric_field "equity" v && numeric_field "profit" v &&
  numeric_field "margin_level" v && numeric_field "margin_free" v.

(** A value whose properties can be read (anything but [null] and
    [undefined]), and a [positions] value the dashboard can summarise:
    a falsy value, or an array of readable values. *)
Definition readable `{JSNumber} (v : JSValue) : bool :=
  match v with
  | JUndefined | JNull => false
  | _ => true
  end.

Definition well_formed_positions `{JSNumber} (v : JSValue) : bool :=
  match v with
  | JArr items => forallb readable items
  | _ => negb (ToBoolean v)
  end.

(** The positions of an array with a profit above, or below, zero. *)
Definition winners `{JSArith} (items : list JSValue) : list JSValue :=
  List.filter (fun p => Dashboard.js_gt (js_get_optional "profit" p) 0) items.

Definition losers `{JSArith} (items : list JSValue) : list JSValue :=
  List.filter (fun p => Dashboard.js_lt (js_get_optional "profit" p) 0) items.

(** A 'position_update' frame whose [positions] field is a string. *)
Definition positions_as_text : WebSocketMessage :=
  {| type := JStr "position_update"; data := JObj [("positions", JStr "none")] |}.

(** The five fields the two snapshots share, and the actions the two
    reducers share. *)
Definition shared_fields `{JSNumber} (s : Enhanced.WebSocketState) : Basic.WebSocketState :=
  {| Basic.accountData := Enhanced.accountData s;
     Basic.isConnected := Enhanced.isConnected s;
     Basic.error := Enhanced.error s;
     Basic.connectionAttempts := Enhanced.connectionAttempts s;
     Basic.lastMessageTime := Enhanced.lastMessageTime s |}.

Definition as_enhanced `{JSNumber} (a : Basic.WebSocketAction) : Enhanced.WebSocketAction :=
  match a with
  | Basic.CONNECTED => Enhanced.CONNECTED
  | Basic.DISCONNECTED reason => Enhanced.DISCONNECTED reason
  | Basic.RECONNECTING => Enhanced.RECONNECTING
  | Basic.MESSAGE payload => Enhanced.MESSAGE payload
  end.

(** The two kinds of message the reducers treat differently: an 'error'
    whose payload is a bare string, and a 'pong'. *)
Definition treated_differently `{JSNumber} (a : Basic.WebSocketAction) : bool :=
  match a with
  | Basic.MESSAGE payload =>
      (Enhanced.type_is "error" payload && typeof_string (data payload))
      || Enhanced.type_is "pong" payload
  | _ => false
  end.

(** The frame of the heartbeat, and the link between [lastPingTime] and
    the frames sent: it is 0, or the time stamp of a ping that was sent. *)
Definition ping_frame `{JSNumber} (t : Time) : JSValue :=
  JObj [("type", JStr "ping"); ("timestamp", JNum (number_of_Z t))].

Definition ping_inv `{JSNumber} (c : Enhanced.Client) : Prop :=
  Enhanced.lastPingTime (Enhanced.metaRef c) = 0 \/
  exists j s, Enhanced.sockets c !! j = Some s /\
              ping_frame (Enhanced.lastPingTime (Enhanced.metaRef c)) ∈ sent s.

Definition same_ping `{JSNumber} (c c' : Enhanced.Client) : Prop :=
  Enhanced.lastPingTime (Enhanced.metaRef c') = Enhanced.lastPingTime (Enhanced.metaRef c).

(* ===================================================================== *)
(** * 7. Properties of the reducers *)
(* ===================================================================== *)

Ltac unfold_monad :=
  unfold bind, ret, lift, throw, Date_now, Math_random in *.

Arguments Enhanced.clearAllTimers {_} c : simpl never.
Arguments Basic.clearAllTimers {_} c : simpl never.

Section ReducerFacts.
Context `{JSNumber}.
Import Enhanced.

(** [clearAllTimers] empties the four handles and removes their timers;
    it touches nothing else. *)
Lemma clearAllTimers_eq c :
  clearAllTimers c
  = set_metaRef (set_timers no_timers (metaRef c))
      (set_pending (pending (clearAllTimers c)) c).
Proof.
  unfold clearAllTimers, clear_if_set, clearTimeout.
  destruct (heartbeat _), (reconnect_timer _), (connection _), (latencyCheck _);
    reflexivity.
Qed.

Lemma clearAllTimers_state c : state (clearAllTimers c) = state c.
Proof. rewrite clearAllTimers_eq. reflexivity. Qed.

Lemma clearAllTimers_sockets c : sockets (clearAllTimers c) = sockets c.
Proof. rewrite clearAllTimers_eq. reflexivity. Qed.

Lemma clearAllTimers_metaRef c :
  metaRef (clearAllTimers c) = set_timers no_timers (metaRef c).
Proof. rewrite clearAllTimers_eq. reflexivity. Qed.

Lemma switch_type_default (t : JSValue) :
  Forall (fun k => t ≠ JStr k) case_labels -> switch_type t = case_default.
Proof.
  intros Hall. destruct t as [| | | |s| |]; try reflexivity.
  unfold switch_type.
  repeat match goal with
         | |- context [String.eqb s ?k] =>
             destruct (String.eqb_spec s k) as [->|_];
             [ exfalso; rewrite Forall_forall in Hall;
               apply (Hall k); [ unfold case_labels; set_solver | reflexivity ] | ]
         end.
  reflexivity.
Qed.

(** What every message sets, and what no message can change. *)
Lemma processMessage_frame s m w s' w' :
  processMessage s m w = Ok (s', w') ->
  lastMessageTime s' = Some (now w) /\
  subscribedChannels s' = subscribedChannels s /\
  isConnected s' = isConnected s /\
  connectionAttempts s' = connectionAttempts s /\
  messageBuffer s' = messageBuffer s.
Proof.
  unfold processMessage. unfold_monad. unfold guarded_in.
  intros Hrun.
  repeat (case_match; simplify_eq; try discriminate); simpl; auto.
Qed.

(** C8. A message whose kind is none of the [case] labels of
    [processMessage] leaves the snapshot as it is except for
    [lastMessageTime], which becomes the current time; and whatever the
    kind, a message the reducer accepts sets [lastMessageTime] to the
    current time. *)
Theorem unknown_kind_only_touches_lastMessageTime s m w :
  (Forall (fun k => type m ≠ JStr k) case_labels ->
   reducer s (MESSAGE m) w = Ok (set_lastMessageTime (Some (now w)) s, tick w)) /\
  (forall s' w', reducer s (MESSAGE m) w = Ok (s', w') ->
                 lastMessageTime s' = Some (now w)).
Proof.
  split.
  - intros Hkind. simpl. unfold processMessage. unfold_monad.
    rewrite (switch_type_default _ Hkind). reflexivity.
  - intros s' w' Hrun. simpl in Hrun.
    apply (processMessage_frame _ _ _ _ _ Hrun).
Qed.

(** C4. The DISCONNECTED transition returns the initial snapshot with
    only [error] set and [subscribedChannels] carried over: the account,
    the quotes, the positions and the orders are absent, and nothing else
    of the old snapshot survives.  [disconnect()] ends in that
    transition. *)
Theorem disconnect_clears_all_but_subscriptions s reason c w :
  (exists s',
     reducer s (DISCONNECTED reason) w = Ok (s', w) /\
     accountData s' = JNull /\ marketData s' = None /\
     positions s' = JNull /\ orders s' = JNull /\
     subscribedChannels s' = subscribedChannels s /\
     s' = set_subscribedChannels (subscribedChannels s)
            (set_error (error s') initialState)) /\
  (exists c',
     disconnect c w = Ok (c', w) /\
     reducer (state c) (DISCONNECTED (Some "Manually disconnected")) w = Ok (state c', w)).
Proof.
  split.
  - eexists. split; [reflexivity|]. simpl. repeat split.
  - unfold disconnect, dispatch. unfold_monad. cbn.
    eexists. split; [reflexivity|]. cbn.
    case_match; cbn; rewrite !clearAllTimers_state; reflexivity.
Qed.

(** The shapes an 'error' payload can take, as the reducer tells them
    apart. *)
Lemma error_case s m w :
  type m = JStr "error" ->
  processMessage s m w
  = Ok (set_error (error_of_payload (data m)) (set_lastMessageTime (Some (now w)) s), tick w).
Proof.
  intros Hkind. unfold processMessage. unfold_monad. rewrite Hkind. simpl.
  unfold error_of_payload, guarded_in, js_or.
  destruct (data m) as [| |b|n|str|items|props]; simpl; try reflexivity.
  - destruct b; reflexivity.
  - destruct (number_truthy n); reflexivity.
  - destruct (own_property "message" props) as [v|]; simpl; reflexivity.
Qed.

Lemma basic_error_case (s : Basic.WebSocketState) m w :
  type m = JStr "error" ->
  Basic.reducer s (Basic.MESSAGE m) w
  = Ok (Basic.set_error (basic_error_of_payload (data m))
          (Basic.set_lastMessageTime (Some (now w)) s), tick w).
Proof.
  intros Hkind. simpl. unfold_monad. rewrite Hkind. simpl.
  unfold basic_error_of_payload, js_or.
  destruct (data m) as [| |b|n|str|items|props]; simpl; try reflexivity.
  destruct (own_property "message" props) as [v|]; simpl; reflexivity.
Qed.

(** C9, as amended. A message of kind 'error' sets [error] to the
    payload when it is a bare string, to its message field when it is an
    object whose message field is truthy, and to "Unknown server error"
    otherwise (no message field, a falsy one, or any other shape); it
    changes [lastMessageTime] and nothing else, so [isConnected] and
    [connectionAttempts] stay.  In the basic hook the same value is set
    for every payload that is not a bare string, and [isConnected] and
    [connectionAttempts] stay whatever the payload; nothing is stated
    here about the [error] the basic hook sets for a bare string. *)
Theorem error_message_sets_error_only s (sb : Basic.WebSocketState) m w :
  type m = JStr "error" ->
  (exists s',
     reducer s (MESSAGE m) w = Ok (s', tick w) /\
     error s' = error_of_payload (data m) /\
     isConnected s' = isConnected s /\
     connectionAttempts s' = connectionAttempts s /\
     s' = set_error (error s') (set_lastMessageTime (Some (now w)) s)) /\
  (exists sb',
     Basic.reducer sb (Basic.MESSAGE m) w = Ok (sb', tick w) /\
     match data m with
     | JStr _ => True
     | payload => Basic.error sb' = error_of_payload payload
     end /\
     Basic.isConnected sb' = Basic.isConnected sb /\
     Basic.connectionAttempts sb' = Basic.connectionAttempts sb).
Proof.
  intros Hkind. split.
  - eexists. split; [exact (error_case s m w Hkind)|]. simpl. repeat split.
  - eexists. split; [exact (basic_error_case sb m w Hkind)|]. simpl.
    split; [|split; reflexivity].
    destruct (data m); try exact I; reflexivity.
Qed.

(** A payload that is a non-empty string, a non-zero number or [true]
    makes the [in] test of the position and order cases throw. *)
Lemma in_on_primitive_throws s m w :
  (type m = JStr "position_update" \/ type m = JStr "order_update") ->
  ToBoolean (data m) = true -> typeof_object (data m) = false ->
  exists e, processMessage s m w = Throw e.
Proof.
  intros Hkind Htruthy Hprim. unfold processMessage. unfold_monad.
  destruct Hkind as [-> | ->]; simpl; unfold guarded_in; rewrite Htruthy;
    destruct (data m); simpl in *; try discriminate; eexists; reflexivity.
Qed.

(** C10, at the input where it fails. A 'position_update' or
    'order_update' message whose payload is the string "abc" (neither an
    array nor an object) does not leave the snapshot unchanged: the
    reducer throws a TypeError, because ['positions' in "abc"] is
    evaluated without the [typeof] test that the market and error cases
    make first. *)
Theorem position_update_with_string_payload_throws s w :
  (exists e, reducer s (MESSAGE {| type := JStr "position_update"; data := JStr "abc" |}) w
             = Throw e) /\
  (exists e, reducer s (MESSAGE {| type := JStr "order_update"; data := JStr "abc" |}) w
             = Throw e) /\
  (exists s', reducer s (MESSAGE {| type := JStr "market_data"; data := JStr "abc" |}) w
              = Ok (s', tick w) /\ marketData s' = marketData s).
Proof.
  split; [|split]; eexists; cbn; unfold processMessage; unfold_monad; cbn.
  - reflexivity.
  - reflexivity.
  - split; reflexivity.
Qed.

(** The part of C10 that holds: a market payload that is not an object
    with a 'symbol' property is dropped, and so is a position (order)
    payload that is falsy or an object without 'positions' ('orders'). *)
Lemma market_data_without_symbol_is_dropped s m w :
  type m = JStr "market_data" ->
  (forall props, data m = JObj props -> own_property "symbol" props = None) ->
  processMessage s m w = Ok (set_lastMessageTime (Some (now w)) s, tick w).
Proof.
  intros Hkind Hshape. unfold processMessage. unfold_monad. rewrite Hkind. simpl.
  unfold guarded_in.
  destruct (data m) as [| |b|n|str|items|props]; simpl; try reflexivity.
  - destruct b; reflexivity.
  - destruct (number_truthy n); reflexivity.
  - destruct (negb (String.eqb str "")); reflexivity.
  - rewrite (Hshape props eq_refl). reflexivity.
Qed.

Lemma position_update_without_positions_is_dropped s m w :
  type m = JStr "position_update" ->
  (ToBoolean (data m) = false \/
   exists props, data m = JObj props /\ own_property "positions" props = None) ->
  processMessage s m w = Ok (set_lastMessageTime (Some (now w)) s, tick w).
Proof.
  intros Hkind Hshape. unfold processMessage. unfold_monad. rewrite Hkind. simpl.
  unfold guarded_in.
  destruct Hshape as [Hfalsy | (props & -> & Hnone)].
  - rewrite Hfalsy. destruct (data m); simpl in *; try discriminate; reflexivity.
  - simpl. rewrite Hnone. reflexivity.
Qed.

Lemma order_update_without_orders_is_dropped s m w :
  type m = JStr "order_update" ->
  (ToBoolean (data m) = false \/
   exists props, data m = JObj props /\ own_property "orders" props = None) ->
  processMessage s m w = Ok (set_lastMessageTime (Some (now w)) s, tick w).
Proof.
  intros Hkind Hshape. unfold processMessage. unfold_monad. rewrite Hkind. simpl.
  unfold guarded_in.
  destruct Hshape as [Hfalsy | (props & -> & Hnone)].
  - rewrite Hfalsy. destruct (data m); simpl in *; try discriminate; reflexivity.
  - simpl. rewrite Hnone. reflexivity.
Qed.

(** The market case, when the payload is an object carrying [symbol]. *)
Lemma market_data_case s m w props symbol :
  type m = JStr "market_data" ->
  data m = JObj props ->
  own_property "symbol" props = Some symbol ->
  processMessage s m w
  = Ok (set_marketData
          (Some (<[ToString symbol
                   := js_or (default JUndefined (own_property "data" props)) (data m)]>
                   (default ∅ (marketData s))))
          (set_lastMessageTime (Some (now w)) s), tick w).
Proof.
  intros Hkind Hdata Hsymbol. unfold processMessage. unfold_monad.
  rewrite Hkind, Hdata. cbn. rewrite Hsymbol. reflexivity.
Qed.

(** C7. A 'market_data' message whose payload is an object carrying
    [symbol] stores the new quote (the payload's [data] field when it has
    a truthy one, the payload itself otherwise) under that symbol and
    leaves the quote of every other symbol, and every other field but
    [lastMessageTime], as it was. *)
Theorem market_data_replaces_one_symbol s m w props symbol :
  type m = JStr "market_data" ->
  data m = JObj props ->
  own_property "symbol" props = Some symbol ->
  exists s',
    reducer s (MESSAGE m) w = Ok (s', tick w) /\
    quote_of s' (ToString symbol)
    = Some (js_or (default JUndefined (own_property "data" props)) (data m)) /\
    (forall other, other ≠ ToString symbol -> quote_of s' other = quote_of s other) /\
    s' = set_marketData (marketData s') (set_lastMessageTime (Some (now w)) s).
Proof.
  intros Hkind Hdata Hsymbol.
  eexists. split; [exact (market_data_case s m w props symbol Hkind Hdata Hsymbol)|].
  unfold quote_of. cbn.
  split; [apply lookup_insert_eq|]. split; [|reflexivity].
  intros other Hother. rewrite lookup_insert_ne by congruence.
  destruct (marketData s); cbn; [reflexivity | apply lookup_empty].
Qed.

(** The example of C7: from [{EURUSD: {bid: b1}}], the message
    [{symbol: "GBPUSD", bid: b2}] gives both entries, the first one
    untouched. *)
Lemma market_data_example (b1 b2 : number) s w :
  marketData s = Some {[ "EURUSD" := JObj [("bid", JNum b1)] ]} ->
  let payload := JObj [("symbol", JStr "GBPUSD"); ("bid", JNum b2)] in
  exists s',
    reducer s (MESSAGE {| type := JStr "market_data"; data := payload |}) w
    = Ok (s', tick w) /\
    marketData s' = Some (<["GBPUSD" := payload]> {[ "EURUSD" := JObj [("bid", JNum b1)] ]}) /\
    quote_of s' "EURUSD" = Some (JObj [("bid", JNum b1)]) /\
    quote_of s' "GBPUSD" = Some payload.
Proof.
  intros Hquotes payload. eexists.
  split; [exact (market_data_case s {| type := JStr "market_data"; data := payload |} w
                   _ (JStr "GBPUSD") eq_refl eq_refl eq_refl)|].
  unfold quote_of. cbn. rewrite Hquotes. cbn. split; [reflexivity|]. split.
  - rewrite lookup_insert_ne by discriminate. apply lookup_singleton_eq.
  - apply lookup_insert_eq.
Qed.

End ReducerFacts.

(* ===================================================================== *)
(** * 8. The batching buffer *)
(* ===================================================================== *)

Section Batching.
Context `{JSNumber}.
Import Enhanced.

Lemma fold_from_throw (l : list WebSocketMessage) e :
  fold_left (fun outcome message =>
               match outcome with
               | Ok (s, w) => reducer s (MESSAGE message) w
               | Throw e => Throw e
               end) l (Throw e) = Throw e.
Proof. induction l as [|m l IH]; [reflexivity | exact IH]. Qed.

Lemma apply_in_arrival_order_cons s m l w :
  apply_in_arrival_order s (m :: l) w
  = match processMessage s m w with
    | Ok (s1, w1) => apply_in_arrival_order s1 l w1
    | Throw e => Throw e
    end.
Proof.
  unfold apply_in_arrival_order. cbn [fold_left reducer].
  destruct (processMessage s m w) as [[s1 w1]|e]; [reflexivity | apply fold_from_throw].
Qed.

Lemma apply_in_arrival_order_app s l1 l2 w :
  apply_in_arrival_order s (l1 ++ l2) w
  = match apply_in_arrival_order s l1 w with
    | Ok (s1, w1) => apply_in_arrival_order s1 l2 w1
    | Throw e => Throw e
    end.
Proof.
  revert s w. induction l1 as [|m l1 IH]; intros s w; [reflexivity|].
  cbn [app]. rewrite !apply_in_arrival_order_cons.
  destruct (processMessage s m w) as [[s1 w1]|e]; [apply IH | reflexivity].
Qed.

(** The BATCH_UPDATE transition is the fold of the per-message
    transition over the batch, oldest message first. *)
Lemma batch_update_is_fold s l w :
  reducer s (BATCH_UPDATE l) w = apply_in_arrival_order s l w.
Proof.
  cbn [reducer]. revert s w. induction l as [|m l IH]; intros s w; [reflexivity|].
  rewrite apply_in_arrival_order_cons. cbn [forEach]. unfold bind at 1.
  destruct (processMessage s m w) as [[s1 w1]|e]; [apply IH | reflexivity].
Qed.

(** [flush] applies the whole buffer and empties it. *)
Lemma flush_is_fold c w :
  flush c w
  = match apply_in_arrival_order (state c) (ref_messageBuffer (metaRef c)) w with
    | Ok (s1, w1) => Ok (flushed s1 c, w1)
    | Throw e => Throw e
    end.
Proof.
  unfold flush, dispatch. unfold_monad.
  destruct (ref_messageBuffer (metaRef c)) as [|m l] eqn:Hbuffer.
  - cbn. f_equal. f_equal. unfold flushed.
    destruct c as [? [] ? ? ? ?]; cbn in *. subst. reflexivity.
  - cbn [length Nat.ltb Nat.leb]. rewrite batch_update_is_fold.
    destruct (apply_in_arrival_order _ _ _) as [[s1 w1]|e]; reflexivity.
Qed.

(** A bufferable frame, with batching on, is pushed at the end of the
    buffer; the buffer is applied at once when it reaches BUFFER_SIZE. *)
Lemma onmessage_buffers cfg c m w :
  BATCH_UPDATES cfg = true -> bufferable m = true ->
  let pushed := set_metaRef (set_ref_messageBuffer
                               (ref_messageBuffer (metaRef c) ++ [m]) (metaRef c)) c in
  onmessage cfg (Some m) c w
  = if BUFFER_SIZE cfg <=? Z.of_nat (length (ref_messageBuffer (metaRef c) ++ [m]))
    then flush pushed w
    else Ok (pushed, w).
Proof.
  intros Hbatching Hkind pushed. unfold onmessage.
  unfold bufferable in Hkind. apply andb_prop in Hkind as [Hpong Hheartbeat].
  apply negb_true_iff in Hpong, Hheartbeat. rewrite Hpong, Hheartbeat, Hbatching.
  cbn. case_match; [|reflexivity].
  unfold flush. cbn [metaRef set_metaRef ref_messageBuffer set_ref_messageBuffer].
  destruct (ref_messageBuffer (metaRef c) ++ [m]) eqn:Hpushed; [|reflexivity].
  destruct (ref_messageBuffer (metaRef c)); discriminate.
Qed.

(** Frames delivered to the buffer and then flushed have the effect of
    applying the old buffer followed by the frames, in arrival order,
    wherever the size-triggered flushes fall in between. *)
Lemma deliver_then_flush_is_fold cfg ms c w :
  BATCH_UPDATES cfg = true -> Forall (fun m => bufferable m = true) ms ->
  (do c' <- deliver cfg ms c; flush c') w
  = match apply_in_arrival_order (state c) (ref_messageBuffer (metaRef c) ++ ms) w with
    | Ok (s1, w1) => Ok (flushed s1 c, w1)
    | Throw e => Throw e
    end.
Proof.
  intros Hbatching Hms. revert c w.
  induction Hms as [|m ms Hm Hms IH]; intros c w.
  - unfold deliver. cbn [forEach]. unfold bind, ret. rewrite app_nil_r.
    apply flush_is_fold.
  - unfold deliver. cbn [forEach]. fold (deliver cfg ms).
    unfold bind at 1. unfold bind at 1.
    rewrite (onmessage_buffers cfg c m w Hbatching Hm). cbv zeta.
    replace (ref_messageBuffer (metaRef c) ++ m :: ms)
      with ((ref_messageBuffer (metaRef c) ++ [m]) ++ ms)
      by (rewrite <- app_assoc; reflexivity).
    destruct (BUFFER_SIZE cfg <=? _).
    + rewrite flush_is_fold.
      cbn [metaRef state set_metaRef set_ref_messageBuffer ref_messageBuffer].
      rewrite (apply_in_arrival_order_app (state c) (ref_messageBuffer (metaRef c) ++ [m]) ms w).
      destruct (apply_in_arrival_order (state c) _ w) as [[s1 w1]|e]; [|reflexivity].
      specialize (IH (flushed s1 (set_metaRef (set_ref_messageBuffer
                        (ref_messageBuffer (metaRef c) ++ [m]) (metaRef c)) c)) w1).
      unfold bind in IH. rewrite IH. unfold flushed.
      cbn [state set_state metaRef set_metaRef ref_messageBuffer set_ref_messageBuffer app].
      destruct (apply_in_arrival_order s1 ms w1) as [[s2 w2]|e]; reflexivity.
    + specialize (IH (set_metaRef (set_ref_messageBuffer
                        (ref_messageBuffer (metaRef c) ++ [m]) (metaRef c)) c) w).
      unfold bind in IH. rewrite IH. unfold flushed.
      cbn [state set_state metaRef set_metaRef ref_messageBuffer set_ref_messageBuffer].
      destruct (apply_in_arrival_order (state c) _ w) as [[s1 w1]|e]; reflexivity.
Qed.

(** [ws.onclose] applies what is left in the buffer to the snapshot
    before the DISCONNECTED transition clears it. *)
Lemma onclose_flushes_first cfg code reason c w :
  match apply_in_arrival_order (state c) (ref_messageBuffer (metaRef c)) w with
  | Ok (s1, w1) =>
      exists c' w',
        onclose cfg code reason c w = Ok (c', w') /\
        reducer s1 (DISCONNECTED (Some (if String.eqb reason "" then "Connection lost"
                                        else reason))) w1 = Ok (state c', w1) /\
        ref_messageBuffer (metaRef c') = []
  | Throw e => onclose cfg code reason c w = Throw e
  end.
Proof.
  assert (Hflush := flush_is_fold (clearAllTimers c) w).
  rewrite clearAllTimers_state, clearAllTimers_metaRef in Hflush.
  cbn [ref_messageBuffer set_timers] in Hflush.
  unfold onclose.
  destruct (apply_in_arrival_order _ _ w) as [[s1 w1]|e];
    unfold bind at 1; rewrite Hflush; [|reflexivity].
  unfold dispatch, flushed, schedule. cbn [reducer]. unfold_monad.
  cbn [state set_state metaRef set_metaRef isManualClose set_ref_messageBuffer
       set_ref_connectionAttempts ref_connectionAttempts].
  match goal with |- context [if ?b then _ else _] => destruct b end.
  - eexists _, _. split; [reflexivity|]. split; reflexivity.
  - destruct (JITTER cfg); eexists _, _; (split; [reflexivity|]); split; reflexivity.
Qed.

(** [disconnect()] itself neither applies nor drops the buffer: it
    clears the snapshot with the buffered frames still waiting. *)
Lemma disconnect_keeps_buffer c w :
  exists c', disconnect c w = Ok (c', w) /\
             ref_messageBuffer (metaRef c') = ref_messageBuffer (metaRef c) /\
             accountData (state c') = JNull /\
             error (state c') = JStr "Manually disconnected".
Proof.
  unfold disconnect, dispatch. cbn [reducer]. unfold bind, ret.
  eexists. split; [reflexivity|].
  cbn [metaRef set_metaRef set_state set_ws ref_messageBuffer state].
  assert (Hsockets : forall l c0, metaRef (set_sockets l c0) = metaRef c0) by reflexivity.
  destruct (ws (metaRef (clearAllTimers _))); rewrite ?Hsockets, clearAllTimers_metaRef;
    repeat split.
Qed.

(** X22. With batching on, the BATCH_UPDATE transition is the left fold
    of the per-message transition over the batch; frames that arrive and
    are then flushed end up applied in arrival order, whatever the
    buffer size; enqueueing [account_update(100)] then
    [account_update(200)] and flushing leaves the balance at 200; and
    the close handler of a socket, [ws.onclose], applies what is left in
    the buffer to the snapshot before its DISCONNECTED transition. *)
Theorem batch_flush_applies_in_arrival_order cfg c ms w code reason :
  BATCH_UPDATES cfg = true ->
  Forall (fun m => bufferable m = true) ms ->
  (forall s l w0, reducer s (BATCH_UPDATE l) w0 = apply_in_arrival_order s l w0) /\
  (do c' <- deliver cfg ms c; flush c') w
  = match apply_in_arrival_order (state c) (ref_messageBuffer (metaRef c) ++ ms) w with
    | Ok (s1, w1) => Ok (flushed s1 c, w1)
    | Throw e => Throw e
    end /\
  (forall s w0, exists s',
      reducer s (BATCH_UPDATE [account_update 100; account_update 200]) w0
      = Ok (s', tick (tick w0)) /\
      accountData s' = balance 200) /\
  match apply_in_arrival_order (state c) (ref_messageBuffer (metaRef c)) w with
  | Ok (s1, w1) =>
      exists c' w',
        onclose cfg code reason c w = Ok (c', w') /\
        reducer s1 (DISCONNECTED (Some (if String.eqb reason "" then "Connection lost"
                                        else reason))) w1 = Ok (state c', w1) /\
        ref_messageBuffer (metaRef c') = []
  | Throw e => onclose cfg code reason c w = Throw e
  end.
Proof.
  intros Hbatching Hms. split; [exact batch_update_is_fold|].
  split; [exact (deliver_then_flush_is_fold cfg ms c w Hbatching Hms)|].
  split; [|exact (onclose_flushes_first cfg code reason c w)].
  intros s w0. eexists. split; reflexivity.
Qed.

End Batching.

(* ===================================================================== *)
(** * 9. At most one live transport *)
(* ===================================================================== *)

Section Transport.
Context `{JSNumber}.

Lemma sole_owner_nil : sole_owner [] None.
Proof. intros i s Hi. rewrite lookup_nil in Hi. discriminate. Qed.

(** Changing one socket without bringing it to life keeps the owner. *)
Lemma sole_owner_alter (f : WebSocket -> WebSocket) i l ws :
  (forall s, l !! i = Some s -> live (f s) = true -> live s = true) ->
  sole_owner l ws -> sole_owner (alter f i l) ws.
Proof.
  intros Hf Howner j s Hj Hlive.
  destruct (decide (i = j)) as [->|Hne].
  - rewrite list_lookup_alter_eq in Hj.
    destruct (l !! j) as [s0|] eqn:Hs0; [|discriminate].
    cbn in Hj. injection Hj as <-. eapply Howner; eauto.
  - rewrite list_lookup_alter_ne in Hj by done. eapply Howner; eauto.
Qed.

Lemma live_close s : live (WebSocket_close s) = false.
Proof. unfold WebSocket_close, live. destruct (readyState s) eqn:Hs; cbn; rewrite ?Hs; reflexivity. Qed.

Lemma live_send frame s : live (WebSocket_send frame s) = live s.
Proof. reflexivity. Qed.

(** Closing the owned socket and dropping the reference leaves no
    transport alive. *)
Lemma sole_owner_release l ws :
  sole_owner l ws ->
  sole_owner (match ws with Some i => alter WebSocket_close i l | None => l end) None.
Proof.
  intros Howner j s Hj Hlive. exfalso. destruct ws as [i|].
  - destruct (decide (i = j)) as [->|Hne].
    + rewrite list_lookup_alter_eq in Hj.
      destruct (l !! j) as [s0|]; [|discriminate].
      cbn in Hj. injection Hj as <-. rewrite live_close in Hlive. discriminate.
    + rewrite list_lookup_alter_ne in Hj by done.
      specialize (Howner j s Hj Hlive). congruence.
  - specialize (Howner j s Hj Hlive). discriminate.
Qed.

(** A new socket may take over when the owned one, if any, is not alive. *)
Lemma sole_owner_acquire l ws s_new :
  sole_owner l ws ->
  (forall i s, ws = Some i -> l !! i = Some s -> live s = false) ->
  sole_owner (l ++ [s_new]) (Some (length l)).
Proof.
  intros Howner Hdead j s Hj Hlive. f_equal.
  destruct (decide (j < length l)%nat) as [Hlt|Hge].
  - rewrite lookup_app_l in Hj by done.
    pose proof (Howner j s Hj Hlive) as Hws.
    rewrite (Hdead j s Hws Hj) in Hlive. discriminate.
  - apply lookup_lt_Some in Hj. rewrite length_app in Hj. cbn in Hj. lia.
Qed.

Lemma filter_none_live l :
  (forall i s, l !! i = Some s -> live s = false) -> List.filter live l = [].
Proof.
  induction l as [|a l IH]; intros Hdead; [reflexivity|].
  cbn. rewrite (Hdead 0%nat a eq_refl). apply IH.
  intros i s Hi. exact (Hdead (S i) s Hi).
Qed.

Lemma sole_owner_live_count l ws : sole_owner l ws -> (live_count l <= 1)%nat.
Proof.
  unfold live_count. revert ws. induction l as [|a l IH]; intros ws Howner; [cbn; lia|].
  cbn. destruct (live a) eqn:Ha.
  - rewrite filter_none_live; [cbn; lia|].
    intros i s Hi. destruct (live s) eqn:Hs; [|reflexivity].
    pose proof (Howner 0%nat a eq_refl Ha) as H0.
    pose proof (Howner (S i) s Hi Hs) as H1. congruence.
  - apply (IH (pred <$> ws)). intros i s Hi Hlive.
    specialize (Howner (S i) s Hi Hlive). rewrite Howner. reflexivity.
Qed.
End Transport.

Section EnhancedInvariant.
Context `{JSNumber}.
Import Enhanced.

Lemma owned_same_transport c c' : same_transport c c' -> owned c -> owned c'.
Proof. unfold owned. intros [-> ->]. auto. Qed.

Lemma same_transport_refl c : same_transport c c.
Proof. split; reflexivity. Qed.

Lemma same_transport_trans c1 c2 c3 :
  same_transport c1 c2 -> same_transport c2 c3 -> same_transport c1 c3.
Proof. unfold same_transport. intros [-> ->] [-> ->]. auto. Qed.

Lemma clearAllTimers_transport c : same_transport c (clearAllTimers c).
Proof.
  split; [apply clearAllTimers_sockets | rewrite clearAllTimers_metaRef; reflexivity].
Qed.

Lemma dispatch_transport a c w c' w' :
  dispatch a c w = Ok (c', w') -> same_transport c c'.
Proof.
  unfold dispatch, bind, ret. destruct (reducer (state c) a w) as [[s w1]|e]; [|discriminate].
  intros [= <- <-]. split; reflexivity.
Qed.

Lemma sendMessage_owned message c : owned c -> owned (sendMessage message c).
Proof.
  unfold sendMessage. intros Howner.
  destruct (ws (metaRef c)) as [i|]; [|exact Howner].
  destruct (ws_readyState c) as [[]|]; try exact Howner.
  unfold owned. cbn. apply sole_owner_alter; [|exact Howner]. intros s _ Hlive. exact Hlive.
Qed.

Lemma subscribe_owned channel c w c' w' :
  owned c -> subscribe channel c w = Ok (c', w') -> owned c'.
Proof.
  unfold subscribe, bind, Date_now. intros Howner Hrun.
  apply dispatch_transport in Hrun.
  eapply owned_same_transport; [exact Hrun|]. apply sendMessage_owned, Howner.
Qed.

Lemma unsubscribe_owned channel c w c' w' :
  owned c -> unsubscribe channel c w = Ok (c', w') -> owned c'.
Proof.
  unfold unsubscribe, bind, Date_now. intros Howner Hrun.
  apply dispatch_transport in Hrun.
  eapply owned_same_transport; [exact Hrun|]. apply sendMessage_owned, Howner.
Qed.

Lemma schedule_transport task delay repeats c :
  same_transport c (snd (schedule task delay repeats c)).
Proof. split; reflexivity. Qed.

Lemma autoSubscribeToChannels_transport cfg c :
  same_transport c (autoSubscribeToChannels cfg c).
Proof.
  unfold autoSubscribeToChannels, essentialChannels.
  destruct (negb (autoSubscribe cfg)); split; reflexivity.
Qed.

Lemma connect_refused_dead cfg c i s :
  connect_refused cfg c = false ->
  ws (metaRef c) = Some i -> sockets c !! i = Some s -> live s = false.
Proof.
  unfold connect_refused, ws_readyState, live. intros Hguard Hws Hs.
  rewrite Hws, Hs in Hguard. cbn in Hguard.
  destruct (readyState s); try discriminate; reflexivity.
Qed.

Lemma connect_owned cfg c : owned c -> owned (connect cfg c).
Proof.
  unfold connect. intros Howner.
  destruct (connect_refused cfg c) eqn:Hguard; [exact Howner|].
  unfold owned, schedule. cbn. rewrite clearAllTimers_sockets.
  apply sole_owner_acquire with (ws := ws (metaRef c)); [exact Howner|].
  intros i s. apply connect_refused_dead with (cfg := cfg), Hguard.
Qed.

Lemma disconnect_owned c w c' w' :
  owned c -> disconnect c w = Ok (c', w') -> owned c'.
Proof.
  unfold disconnect. intros Howner Hrun. apply dispatch_transport in Hrun.
  eapply owned_same_transport; [exact Hrun|].
  unfold owned. cbn. rewrite clearAllTimers_metaRef. cbn.
  pose proof (sole_owner_release _ _ Howner) as Hreleased.
  destruct (ws (metaRef c)); cbn; rewrite clearAllTimers_sockets; exact Hreleased.
Qed.

Lemma reconnect_owned c w c' w' :
  owned c -> reconnect c w = Ok (c', w') -> owned c'.
Proof.
  unfold reconnect, bind, ret. intros Howner Hrun.
  destruct (disconnect c w) as [[c1 w1]|e] eqn:Hdisconnect; [|discriminate].
  injection Hrun as <- <-. apply (disconnect_owned _ _ _ _ Howner Hdisconnect).
Qed.

Lemma flush_transport c w c' w' : flush c w = Ok (c', w') -> same_transport c c'.
Proof.
  unfold flush, bind, ret. destruct (0 <? _)%nat; [|intros [= <- <-]; apply same_transport_refl].
  destruct (dispatch _ c w) as [[c1 w1]|e] eqn:Hdispatch; [|discriminate].
  intros [= <- <-]. apply dispatch_transport in Hdispatch. exact Hdispatch.
Qed.

Lemma onopen_transport cfg c w c' w' :
  onopen cfg c w = Ok (c', w') -> same_transport c c'.
Proof.
  unfold onopen, bind, ret.
  destruct (dispatch _ _ w) as [[c1 w1]|e] eqn:Hdispatch; [|discriminate].
  intros [= <- <-]. apply dispatch_transport in Hdispatch.
  eapply same_transport_trans; [|apply autoSubscribeToChannels_transport].
  eapply same_transport_trans; [|apply same_transport_refl].
  destruct Hdispatch as [Hs Hw]. cbn in Hs, Hw.
  rewrite clearAllTimers_sockets in Hs. rewrite clearAllTimers_metaRef in Hw.
  split; cbn; assumption.
Qed.

Lemma onmessage_transport cfg frame c w c' w' :
  onmessage cfg frame c w = Ok (c', w') -> same_transport c c'.
Proof.
  unfold onmessage.
  destruct frame as [message|]; [|intros [= <- <-]; apply same_transport_refl].
  destruct (type_is "pong" message); [unfold bind, Date_now; apply dispatch_transport|].
  destruct (type_is "heartbeat" message); [intros [= <- <-]; apply same_transport_refl|].
  destruct (BATCH_UPDATES cfg); [|apply dispatch_transport].
  cbv zeta. destruct (BUFFER_SIZE cfg <=? _); [|intros [= <- <-]; split; reflexivity].
  unfold bind, ret.
  destruct (dispatch _ _ w) as [[c1 w1]|e] eqn:Hdispatch; [|discriminate].
  intros [= <- <-]. apply dispatch_transport in Hdispatch.
  destruct Hdispatch as [Hsockets Hws]. split; cbn in *; assumption.
Qed.

Lemma onclose_transport cfg code reason c w c' w' :
  onclose cfg code reason c w = Ok (c', w') -> same_transport c c'.
Proof.
  unfold onclose, bind, ret, Math_random.
  destruct (flush _ w) as [[c1 w1]|e] eqn:Hflush; [|discriminate].
  destruct (dispatch _ c1 w1) as [[c2 w2]|e] eqn:Hdispatch; [|discriminate].
  apply flush_transport in Hflush. apply dispatch_transport in Hdispatch.
  assert (Hc2 : same_transport c c2).
  { eapply same_transport_trans; [apply clearAllTimers_transport|].
    eapply same_transport_trans; eassumption. }
  destruct (isManualClose _ || _); [intros [= <- <-]; exact Hc2|].
  destruct (JITTER cfg); intros [= <- <-]; exact Hc2.
Qed.

Lemma alter_readyState_owned r i c :
  (r = OPEN -> readyState <$> sockets c !! i = Some CONNECTING) ->
  r ≠ CONNECTING ->
  owned c -> owned (set_sockets (alter (set_readyState r) i (sockets c)) c).
Proof.
  intros Hopen Hr Howner. unfold owned. cbn.
  apply sole_owner_alter; [|exact Howner].
  intros s Hs. unfold live. cbn. destruct r; try discriminate; try congruence.
  intros _. rewrite Hs in Hopen. cbn in Hopen. specialize (Hopen eq_refl).
  injection Hopen as ->. reflexivity.
Qed.

Lemma connectionTimeout_fires_owned i c : owned c -> owned (connectionTimeout_fires i c).
Proof.
  unfold connectionTimeout_fires. intros Howner.
  destruct (sockets c !! i) as [s|]; [|exact Howner].
  destruct (ReadyState_eqb _ _); [|exact Howner].
  unfold owned. cbn. apply sole_owner_alter; [|exact Howner].
  intros s0 _. rewrite live_close. discriminate.
Qed.

Lemma heartbeat_tick_owned c w c' w' :
  owned c -> heartbeat_tick c w = Ok (c', w') -> owned c'.
Proof.
  unfold heartbeat_tick, bind, ret, Date_now. intros Howner.
  destruct (ws_readyState c) as [[]|] eqn:Hready; intros [= <- <-]; try exact Howner.
  apply sendMessage_owned. exact Howner.
Qed.

Lemma latencyCheck_tick_transport cfg c w c' w' :
  latencyCheck_tick cfg c w = Ok (c', w') -> same_transport c c'.
Proof.
  unfold latencyCheck_tick, bind, ret, Date_now.
  repeat case_match; try (intros [= <- <-]; apply same_transport_refl).
  apply dispatch_transport.
Qed.

Lemma clearTimeout_transport id c : same_transport c (clearTimeout id c).
Proof. split; reflexivity. Qed.

Lemma run_task_owned cfg task c w c' w' :
  owned c -> run_task cfg task c w = Ok (c', w') -> owned c'.
Proof.
  intros Howner. destruct task; cbn [run_task]; unfold bind, ret.
  - intros [= <- <-]. apply connectionTimeout_fires_owned, Howner.
  - apply heartbeat_tick_owned, Howner.
  - intros Hrun. eapply owned_same_transport;
      [exact (latencyCheck_tick_transport _ _ _ _ _ Hrun) | exact Howner].
  - destruct (dispatch _ c w) as [[c1 w1]|e] eqn:Hdispatch; [|discriminate].
    intros [= <- <-]. apply connect_owned.
    eapply owned_same_transport; [exact (dispatch_transport _ _ _ _ _ Hdispatch) | exact Howner].
  - apply subscribe_owned, Howner.
  - intros [= <- <-]. apply connect_owned, Howner.
  - intros Hrun. eapply owned_same_transport;
      [exact (flush_transport _ _ _ _ Hrun) | exact Howner].
Qed.

Lemma mount_owned cfg c : owned c -> owned (mount cfg c).
Proof.
  unfold mount. intros Howner. apply connect_owned.
  destruct (BATCH_UPDATES cfg); exact Howner.
Qed.

Lemma unmount_owned c w c' w' : owned c -> unmount c w = Ok (c', w') -> owned c'.
Proof.
  unfold unmount. intros Howner. apply disconnect_owned.
  destruct (flush_interval c); exact Howner.
Qed.

Lemma step_owned cfg e c w c' w' :
  owned c -> step cfg c e w = Ok (c', w') -> owned c'.
Proof.
  intros Howner. destruct e; cbn [step]; unfold ret.
  - intros [= <- <-]. apply mount_owned, Howner.
  - apply unmount_owned, Howner.
  - intros [= <- <-]. apply connect_owned, Howner.
  - apply disconnect_owned, Howner.
  - apply reconnect_owned, Howner.
  - apply subscribe_owned, Howner.
  - apply unsubscribe_owned, Howner.
  - intros [= <- <-]. apply sendMessage_owned, Howner.
  - destruct (readyState <$> sockets c !! i) as [[]|] eqn:Hready;
      try (intros [= <- <-]; exact Howner).
    intros Hrun. eapply owned_same_transport; [exact (onopen_transport _ _ _ _ _ Hrun)|].
    apply alter_readyState_owned; [intros _; exact Hready | discriminate | exact Howner].
  - destruct (readyState <$> sockets c !! i) as [[]|];
      try (intros [= <- <-]; exact Howner).
    intros Hrun. eapply owned_same_transport;
      [exact (onmessage_transport _ _ _ _ _ _ Hrun) | exact Howner].
  - destruct (readyState <$> sockets c !! i) as [[]|];
      try (intros [= <- <-]; exact Howner);
      intros Hrun;
      (eapply owned_same_transport; [exact (onclose_transport _ _ _ _ _ _ _ Hrun)|]);
      (apply alter_readyState_owned; [discriminate | discriminate | exact Howner]).
  - destruct (List.find _ (pending c)) as [entry|]; [|intros [= <- <-]; exact Howner].
    apply run_task_owned. destruct (timer_repeats entry); exact Howner.
  - destruct (readyState <$> sockets c !! i) as [[]|];
      intros [= <- <-]; try exact Howner.
    apply alter_readyState_owned; [discriminate | discriminate | exact Howner].
Qed.

Lemma run_owned cfg events c w c' w' :
  owned c -> run cfg events c w = Ok (c', w') -> owned c'.
Proof.
  unfold run. revert c w. induction events as [|e events IH]; intros c w Howner.
  - intros [= <- <-]. exact Howner.
  - cbn [forEach]. unfold bind.
    destruct (step cfg c e w) as [[c1 w1]|err] eqn:Hstep; [|discriminate].
    apply IH. exact (step_owned _ _ _ _ _ _ Howner Hstep).
Qed.

End EnhancedInvariant.

Section BasicInvariant.
Context `{JSNumber}.
Import Basic.

Lemma basic_clearAllTimers_eq c :
  clearAllTimers c = set_pending (pending (clearAllTimers c)) c.
Proof.
  unfold clearAllTimers, clear_if_set, clearTimeout.
  destruct (reconnect_timer _), (heartbeat _), (connection _); try reflexivity.
  destruct c; reflexivity.
Qed.

Lemma basic_clearAllTimers_sockets c : sockets (clearAllTimers c) = sockets c.
Proof. rewrite basic_clearAllTimers_eq. reflexivity. Qed.

Lemma basic_clearAllTimers_metaRef c : metaRef (clearAllTimers c) = metaRef c.
Proof. rewrite basic_clearAllTimers_eq. reflexivity. Qed.

Lemma basic_clearAllTimers_state c : state (clearAllTimers c) = state c.
Proof. rewrite basic_clearAllTimers_eq. reflexivity. Qed.

Lemma basic_owned_same_transport c c' :
  basic_same_transport c c' -> basic_owned c -> basic_owned c'.
Proof. unfold basic_owned. intros [-> ->]. auto. Qed.

Lemma basic_same_transport_refl c : basic_same_transport c c.
Proof. split; reflexivity. Qed.

Lemma basic_same_transport_trans c1 c2 c3 :
  basic_same_transport c1 c2 -> basic_same_transport c2 c3 -> basic_same_transport c1 c3.
Proof. unfold basic_same_transport. intros [-> ->] [-> ->]. auto. Qed.

Lemma basic_clearAllTimers_transport c : basic_same_transport c (clearAllTimers c).
Proof.
  split; [apply basic_clearAllTimers_sockets | rewrite basic_clearAllTimers_metaRef; reflexivity].
Qed.

Lemma basic_dispatch_transport a c w c' w' :
  dispatch a c w = Ok (c', w') -> basic_same_transport c c'.
Proof.
  unfold dispatch, bind, ret. destruct (reducer (state c) a w) as [[s w1]|e]; [|discriminate].
  intros [= <- <-]. split; reflexivity.
Qed.

Lemma basic_sendMessage_owned message c : basic_owned c -> basic_owned (sendMessage message c).
Proof.
  unfold sendMessage. intros Howner.
  destruct (ws (metaRef c)) as [i|]; [|exact Howner].
  destruct (ws_readyState c) as [[]|]; try exact Howner.
  unfold basic_owned. cbn. apply sole_owner_alter; [|exact Howner].
  intros s _ Hlive. exact Hlive.
Qed.

Lemma basic_connect_refused_dead cfg attempts c i s :
  connect_refused cfg attempts c = false ->
  ws (metaRef c) = Some i -> sockets c !! i = Some s -> live s = false.
Proof.
  unfold connect_refused, ws_readyState, live. intros Hguard Hws Hs.
  rewrite Hws, Hs in Hguard. cbn in Hguard.
  destruct (readyState s); try discriminate; reflexivity.
Qed.

Lemma basic_connect_owned cfg attempts c : basic_owned c -> basic_owned (connect cfg attempts c).
Proof.
  unfold connect. intros Howner.
  destruct (connect_refused cfg attempts c) eqn:Hguard; [exact Howner|].
  unfold basic_owned, schedule. cbn. rewrite basic_clearAllTimers_sockets.
  apply sole_owner_acquire with (ws := ws (metaRef c)); [exact Howner|].
  intros i s. apply basic_connect_refused_dead with (cfg := cfg) (attempts := attempts), Hguard.
Qed.

Lemma basic_disconnect_owned c w c' w' :
  basic_owned c -> disconnect c w = Ok (c', w') -> basic_owned c'.
Proof.
  unfold disconnect. intros Howner Hrun. apply basic_dispatch_transport in Hrun.
  eapply basic_owned_same_transport; [exact Hrun|].
  unfold basic_owned. cbn. rewrite basic_clearAllTimers_metaRef. cbn.
  pose proof (sole_owner_release _ _ Howner) as Hreleased.
  destruct (ws (metaRef c)); cbn; rewrite basic_clearAllTimers_sockets; exact Hreleased.
Qed.

Lemma basic_reconnect_owned attempts c w c' w' :
  basic_owned c -> reconnect attempts c w = Ok (c', w') -> basic_owned c'.
Proof.
  unfold reconnect, bind, ret. intros Howner Hrun.
  destruct (disconnect c w) as [[c1 w1]|e] eqn:Hdisconnect; [|discriminate].
  injection Hrun as <- <-. apply (basic_disconnect_owned _ _ _ _ Howner Hdisconnect).
Qed.

Lemma basic_onopen_transport cfg c w c' w' :
  onopen cfg c w = Ok (c', w') -> basic_same_transport c c'.
Proof.
  unfold onopen, bind, ret.
  destruct (dispatch _ _ w) as [[c1 w1]|e] eqn:Hdispatch; [|discriminate].
  intros [= <- <-]. apply basic_dispatch_transport in Hdispatch.
  destruct Hdispatch as [Hs Hw].
  rewrite basic_clearAllTimers_sockets in Hs. rewrite basic_clearAllTimers_metaRef in Hw.
  split; cbn; assumption.
Qed.

Lemma basic_onmessage_transport frame c w c' w' :
  onmessage frame c w = Ok (c', w') -> basic_same_transport c c'.
Proof.
  unfold onmessage.
  destruct frame as [message|]; [|intros [= <- <-]; apply basic_same_transport_refl].
  destruct (negb _ && negb _); [apply basic_dispatch_transport|].
  intros [= <- <-]; apply basic_same_transport_refl.
Qed.

Lemma basic_onclose_transport cfg attempts code reason c w c' w' :
  onclose cfg attempts code reason c w = Ok (c', w') -> basic_same_transport c c'.
Proof.
  unfold onclose, bind, ret.
  destruct (dispatch _ _ w) as [[c1 w1]|e] eqn:Hdispatch; [|discriminate].
  apply basic_dispatch_transport in Hdispatch.
  assert (Hc1 : basic_same_transport c c1).
  { eapply basic_same_transport_trans; [apply basic_clearAllTimers_transport | exact Hdispatch]. }
  destruct (isManualClose _ || _); intros [= <- <-]; exact Hc1.
Qed.

Lemma basic_alter_readyState_owned r i c :
  (r = OPEN -> readyState <$> sockets c !! i = Some CONNECTING) ->
  r ≠ CONNECTING ->
  basic_owned c -> basic_owned (set_sockets (alter (set_readyState r) i (sockets c)) c).
Proof.
  intros Hopen Hr Howner. unfold basic_owned. cbn.
  apply sole_owner_alter; [|exact Howner].
  intros s Hs. unfold live. cbn. destruct r; try discriminate; try congruence.
  intros _. rewrite Hs in Hopen. cbn in Hopen. specialize (Hopen eq_refl).
  injection Hopen as ->. reflexivity.
Qed.

Lemma basic_connectionTimeout_fires_owned i c :
  basic_owned c -> basic_owned (connectionTimeout_fires i c).
Proof.
  unfold connectionTimeout_fires. intros Howner.
  destruct (sockets c !! i) as [s|]; [|exact Howner].
  destruct (ReadyState_eqb _ _); [|exact Howner].
  unfold basic_owned. cbn. apply sole_owner_alter; [|exact Howner].
  intros s0 _. rewrite live_close. discriminate.
Qed.

Lemma basic_run_task_owned cfg task c w c' w' :
  basic_owned c -> run_task cfg task c w = Ok (c', w') -> basic_owned c'.
Proof.
  intros Howner. destruct task; cbn [run_task]; unfold bind, ret.
  - intros [= <- <-]. apply basic_connectionTimeout_fires_owned, Howner.
  - unfold heartbeat_tick, bind, ret, Date_now. intros [= <- <-].
    apply basic_sendMessage_owned, Howner.
  - destruct (dispatch _ c w) as [[c1 w1]|e] eqn:Hdispatch; [|discriminate].
    intros [= <- <-]. apply basic_connect_owned.
    eapply basic_owned_same_transport;
      [exact (basic_dispatch_transport _ _ _ _ _ Hdispatch) | exact Howner].
  - intros [= <- <-]. apply basic_connect_owned, Howner.
Qed.

Lemma basic_step_owned cfg e c w c' w' :
  basic_owned c -> step cfg c e w = Ok (c', w') -> basic_owned c'.
Proof.
  intros Howner. destruct e; cbn [step]; unfold ret.
  - intros [= <- <-]. apply basic_connect_owned, Howner.
  - apply basic_disconnect_owned, Howner.
  - apply basic_reconnect_owned, Howner.
  - intros [= <- <-]. apply basic_sendMessage_owned, Howner.
  - destruct (readyState <$> sockets c !! i) as [[]|] eqn:Hready;
      try (intros [= <- <-]; exact Howner).
    intros Hrun. eapply basic_owned_same_transport;
      [exact (basic_onopen_transport _ _ _ _ _ Hrun)|].
    apply basic_alter_readyState_owned; [intros _; exact Hready | discriminate | exact Howner].
  - destruct (readyState <$> sockets c !! i) as [[]|];
      try (intros [= <- <-]; exact Howner).
    intros Hrun. eapply basic_owned_same_transport;
      [exact (basic_onmessage_transport _ _ _ _ _ Hrun) | exact Howner].
  - destruct (readyState <$> sockets c !! i) as [[]|];
      try (intros [= <- <-]; exact Howner);
      intros Hrun;
      (eapply basic_owned_same_transport;
         [exact (basic_onclose_transport _ _ _ _ _ _ _ _ Hrun)|]);
      (apply basic_alter_readyState_owned; [discriminate | discriminate | exact Howner]).
  - destruct (List.find _ (pending c)) as [entry|]; [|intros [= <- <-]; exact Howner].
    apply basic_run_task_owned. destruct (timer_repeats entry); exact Howner.
  - destruct (readyState <$> sockets c !! i) as [[]|];
      intros [= <- <-]; try exact Howner.
    apply basic_alter_readyState_owned; [discriminate | discriminate | exact Howner].
Qed.

Lemma basic_run_owned cfg events c w c' w' :
  basic_owned c -> run cfg events c w = Ok (c', w') -> basic_owned c'.
Proof.
  unfold run. revert c w. induction events as [|e events IH]; intros c w Howner.
  - intros [= <- <-]. exact Howner.
  - cbn [forEach]. unfold bind.
    destruct (step cfg c e w) as [[c1 w1]|err] eqn:Hstep; [|discriminate].
    apply IH. exact (basic_step_owned _ _ _ _ _ _ Howner Hstep).
Qed.

(** Calls never throw. *)
Lemma basic_disconnect_returns c w : exists c', disconnect c w = Ok (c', w).
Proof. unfold disconnect, dispatch. cbn [reducer]. unfold bind, ret. eexists. reflexivity. Qed.

Lemma basic_calls_return cfg events c w :
  Forall (fun e => basic_is_call e = true) events ->
  exists c', run cfg events c w = Ok (c', w).
Proof.
  unfold run. intros Hcalls. revert c.
  induction Hcalls as [|e events He Hcalls IH]; intros c; [eexists; reflexivity|].
  cbn [forEach]. unfold bind.
  destruct e; try discriminate; cbn [step]; unfold ret.
  - apply IH.
  - destruct (basic_disconnect_returns c w) as [c1 ->]. apply IH.
  - unfold reconnect, bind, ret.
    destruct (basic_disconnect_returns c w) as [c1 ->]. apply IH.
Qed.

End BasicInvariant.

Section EnhancedCalls.
Context `{JSNumber}.
Import Enhanced.

Lemma disconnect_returns c w : exists c', disconnect c w = Ok (c', w).
Proof. unfold disconnect, dispatch. cbn [reducer]. unfold bind, ret. eexists. reflexivity. Qed.

Lemma calls_return cfg events c w :
  Forall (fun e => is_call e = true) events ->
  exists c', run cfg events c w = Ok (c', w).
Proof.
  unfold run. intros Hcalls. revert c.
  induction Hcalls as [|e events He Hcalls IH]; intros c; [eexists; reflexivity|].
  cbn [forEach]. unfold bind.
  destruct e; try discriminate; cbn [step]; unfold ret.
  - apply IH.
  - destruct (disconnect_returns c w) as [c1 ->]. apply IH.
  - unfold reconnect, bind, ret.
    destruct (disconnect_returns c w) as [c1 ->]. apply IH.
Qed.

End EnhancedCalls.

Section OneTransport.
Context `{JSNumber}.

(** C6. [connect] does nothing (it returns the client it was given)
    when the transport the hook holds is connecting or open, or when the
    attempt counter exceeds the configured maximum; and along every run
    from the initial client, whatever the calls, socket events and timers,
    at most one transport is connecting or open.  Runs made of calls of
    [connect], [disconnect] and [reconnect] only always run to the end.
    Both hooks. *)
Theorem connect_is_refused_and_one_transport_lives
  (cfg : Enhanced.Config) (bcfg : Basic.WebSocketConnectionConfig) :
  (forall c,
      Enhanced.ws_readyState c = Some CONNECTING \/
      Enhanced.ws_readyState c = Some OPEN \/
      Enhanced.maxReconnectAttempts cfg < Enhanced.ref_connectionAttempts (Enhanced.metaRef c) ->
      Enhanced.connect cfg c = c) /\
  (forall events w c' w',
      Enhanced.run cfg events Enhanced.initialClient w = Ok (c', w') ->
      (live_count (Enhanced.sockets c') <= 1)%nat) /\
  (forall events w,
      Forall (fun e => is_call e = true) events ->
      exists c', Enhanced.run cfg events Enhanced.initialClient w = Ok (c', w) /\
                 (live_count (Enhanced.sockets c') <= 1)%nat) /\
  (forall attempts c,
      Basic.ws_readyState c = Some CONNECTING \/
      Basic.ws_readyState c = Some OPEN \/
      Basic.maxReconnectAttempts bcfg < attempts ->
      Basic.connect bcfg attempts c = c) /\
  (forall events w c' w',
      Basic.run bcfg events Basic.initialClient w = Ok (c', w') ->
      (live_count (Basic.sockets c') <= 1)%nat) /\
  (forall events w,
      Forall (fun e => basic_is_call e = true) events ->
      exists c', Basic.run bcfg events Basic.initialClient w = Ok (c', w) /\
                 (live_count (Basic.sockets c') <= 1)%nat).
Proof.
  assert (Hinit : owned Enhanced.initialClient) by apply sole_owner_nil.
  assert (Hbinit : basic_owned Basic.initialClient) by apply sole_owner_nil.
  repeat split.
  - intros c Hguard. unfold Enhanced.connect.
    replace (Enhanced.connect_refused cfg c) with true; [reflexivity|].
    unfold Enhanced.connect_refused.
    destruct Hguard as [-> | [-> | Hmax]]; try reflexivity.
    apply Z.ltb_lt in Hmax. rewrite Hmax. repeat case_match; reflexivity.
  - intros events w c' w' Hrun.
    eapply sole_owner_live_count, (run_owned cfg events _ _ _ _ Hinit Hrun).
  - intros events w Hcalls.
    destruct (calls_return cfg events Enhanced.initialClient w Hcalls) as [c' Hrun].
    exists c'. split; [exact Hrun|].
    eapply sole_owner_live_count, (run_owned cfg events _ _ _ _ Hinit Hrun).
  - intros attempts c Hguard. unfold Basic.connect.
    replace (Basic.connect_refused bcfg attempts c) with true; [reflexivity|].
    unfold Basic.connect_refused.
    destruct Hguard as [-> | [-> | Hmax]]; try reflexivity.
    apply Z.ltb_lt in Hmax. rewrite Hmax. repeat case_match; reflexivity.
  - intros events w c' w' Hrun.
    eapply sole_owner_live_count, (basic_run_owned bcfg events _ _ _ _ Hbinit Hrun).
  - intros events w Hcalls.
    destruct (basic_calls_return bcfg events Basic.initialClient w Hcalls) as [c' Hrun].
    exists c'. split; [exact Hrun|].
    eapply sole_owner_live_count, (basic_run_owned bcfg events _ _ _ _ Hbinit Hrun).
Qed.

End OneTransport.

(* ===================================================================== *)
(** * 10. Reconnect delay *)
(* ===================================================================== *)

Section Backoff.
Context `{JSNumber}.

(** With the defaults, the two delay formulas as functions of the
    counter they are given. *)
Lemma basic_backoff_formula cfg n :
  Basic.reconnectDelay cfg = 2000 ->
  Basic.backoff cfg n = Z.min (2000 * 2 ^ n) 30000.
Proof. intros Hbase. unfold Basic.backoff. rewrite Hbase. reflexivity. Qed.

Lemma backoff_formula cfg n :
  Enhanced.reconnectDelay cfg = 2000 -> Enhanced.BACKOFF_FACTOR cfg = 2 ->
  Enhanced.MAX_DELAY cfg = 30000 ->
  Enhanced.backoff cfg n = Z.min (2000 * 2 ^ n) 30000.
Proof. intros Hbase Hfactor Hcap. unfold Enhanced.backoff. rewrite Hbase, Hfactor, Hcap. reflexivity. Qed.

(** Both are non-decreasing in the counter and never exceed the cap. *)
Lemma basic_backoff_monotone cfg n m :
  0 <= Basic.reconnectDelay cfg -> n <= m ->
  Basic.backoff cfg n <= Basic.backoff cfg m <= 30000.
Proof.
  intros Hbase Hnm. unfold Basic.backoff. split; [|apply Z.le_min_r].
  apply Z.min_le_compat_r, Z.mul_le_mono_nonneg_l; [exact Hbase|].
  apply Z.pow_le_mono_r; lia.
Qed.

Lemma backoff_monotone cfg n m :
  0 <= Enhanced.reconnectDelay cfg -> 1 <= Enhanced.BACKOFF_FACTOR cfg -> n <= m ->
  Enhanced.backoff cfg n <= Enhanced.backoff cfg m <= Enhanced.MAX_DELAY cfg.
Proof.
  intros Hbase Hfactor Hnm. unfold Enhanced.backoff. split; [|apply Z.le_min_r].
  apply Z.min_le_compat_r, Z.mul_le_mono_nonneg_l; [exact Hbase|].
  apply Z.pow_le_mono_r; lia.
Qed.

(** The jitter term [Math.random() * 1000] stays below one second. *)
Lemma jitter_below_one_second (r : Q) :
  (0 <= r)%Q -> (r < 1)%Q -> (0 <= r * 1000)%Q /\ (r * 1000 < 1000)%Q.
Proof. intros Hlow Hhigh. split; lra. Qed.

(** What [ws.onclose] of the enhanced hook schedules after an unclean
    close: the counter is incremented first, and the delay is computed
    from the incremented counter. *)
Lemma onclose_unclean cfg code reason c w s1 w1 :
  apply_in_arrival_order (Enhanced.state c)
    (Enhanced.ref_messageBuffer (Enhanced.metaRef c)) w = Ok (s1, w1) ->
  Enhanced.isManualClose (Enhanced.metaRef c) = false ->
  code ≠ 1000 ->
  let attempts := Enhanced.ref_connectionAttempts (Enhanced.metaRef c) in
  exists c',
    Enhanced.onclose cfg code reason c w
    = Ok (c', if Enhanced.JITTER cfg then draw w1 else w1) /\
    Enhanced.ref_connectionAttempts (Enhanced.metaRef c') = attempts + 1 /\
    Enhanced.pending c'
    = Enhanced.pending (Enhanced.clearAllTimers c)
      ++ [{| Enhanced.timer_id := Enhanced.next_timer c;
             Enhanced.timer_task := Enhanced.ReconnectTimer;
             Enhanced.timer_delay :=
               if Enhanced.JITTER cfg
               then (inject_Z (Enhanced.backoff cfg (attempts + 1))
                     + random w1 (draws w1) * 1000)%Q
               else inject_Z (Enhanced.backoff cfg (attempts + 1));
             Enhanced.timer_repeats := false |}].
Proof.
  intros Hfold Hmanual Hcode attempts. subst attempts.
  assert (Hflush := flush_is_fold (Enhanced.clearAllTimers c) w).
  rewrite clearAllTimers_state, clearAllTimers_metaRef in Hflush.
  cbn [Enhanced.ref_messageBuffer Enhanced.set_timers] in Hflush.
  rewrite Hfold in Hflush.
  unfold Enhanced.onclose. unfold bind at 1. rewrite Hflush.
  unfold Enhanced.dispatch, flushed, Enhanced.schedule. cbn [Enhanced.reducer].
  unfold_monad.
  cbn [Enhanced.state Enhanced.set_state Enhanced.metaRef Enhanced.set_metaRef
       Enhanced.isManualClose Enhanced.set_ref_messageBuffer
       Enhanced.set_ref_connectionAttempts Enhanced.ref_connectionAttempts
       Enhanced.pending Enhanced.next_timer].
  rewrite clearAllTimers_metaRef.
  cbn [Enhanced.isManualClose Enhanced.set_timers Enhanced.ref_connectionAttempts].
  rewrite Hmanual. apply Z.eqb_neq in Hcode. rewrite Hcode. cbn [orb].
  assert (Hnext : Enhanced.next_timer (Enhanced.clearAllTimers c) = Enhanced.next_timer c)
    by (rewrite clearAllTimers_eq; reflexivity).
  destruct (Enhanced.JITTER cfg); eexists; (split; [reflexivity|]);
    cbn [Enhanced.metaRef Enhanced.set_metaRef Enhanced.ref_connectionAttempts
         Enhanced.set_timers Enhanced.set_ref_connectionAttempts Enhanced.pending];
    rewrite Hnext; split; reflexivity.
Qed.

(** The basic hook computes the delay from the counter its closure was
    rendered with, before any increment. *)
Lemma basic_onclose_unclean cfg attempts code reason c w :
  Basic.isManualClose (Basic.metaRef c) = false ->
  code ≠ 1000 ->
  exists c',
    Basic.onclose cfg attempts code reason c w = Ok (c', w) /\
    Basic.pending c'
    = Basic.pending (Basic.clearAllTimers c)
      ++ [{| Basic.timer_id := Basic.next_timer c;
             Basic.timer_task := Basic.ReconnectTimer attempts;
             Basic.timer_delay := inject_Z (Basic.backoff cfg attempts);
             Basic.timer_repeats := false |}].
Proof.
  intros Hmanual Hcode.
  unfold Basic.onclose, Basic.dispatch, Basic.schedule. cbn [Basic.reducer].
  unfold_monad.
  cbn [Basic.state Basic.set_state Basic.metaRef Basic.set_metaRef Basic.isManualClose
       Basic.pending Basic.next_timer].
  rewrite basic_clearAllTimers_metaRef, Hmanual.
  apply Z.eqb_neq in Hcode. rewrite Hcode. cbn [orb].
  assert (Hnext : Basic.next_timer (Basic.clearAllTimers c) = Basic.next_timer c)
    by (rewrite basic_clearAllTimers_eq; reflexivity).
  eexists. split; [reflexivity|]. cbn [Basic.pending Basic.set_metaRef]. rewrite Hnext.
  reflexivity.
Qed.

End Backoff.

(* ===================================================================== *)
(** * 11. Subscriptions after a reconnect *)
(* ===================================================================== *)

Section Resubscription.
Context `{JSNumber}.

(** The subscriptions [autoSubscribeToChannels] schedules: one per
    fixed channel, or none when [autoSubscribe] is off. *)
Lemma autoSubscribeToChannels_pending cfg c :
  Enhanced.pending (Enhanced.autoSubscribeToChannels cfg c)
  = Enhanced.pending c
    ++ (if Enhanced.autoSubscribe cfg
        then List.map (fun '(i, channel) =>
                    {| Enhanced.timer_id := (i + Enhanced.next_timer c)%nat;
                       Enhanced.timer_task := Enhanced.SubscribeLater channel;
                       Enhanced.timer_delay := 100;
                       Enhanced.timer_repeats := false |})
                 [(0%nat, Enhanced.ACCOUNT_UPDATES cfg); (1%nat, Enhanced.POSITION_UPDATES cfg);
                  (2%nat, Enhanced.ORDER_UPDATES cfg); (3%nat, Enhanced.CONNECTION_STATUS cfg)]
        else []).
Proof.
  unfold Enhanced.autoSubscribeToChannels, Enhanced.essentialChannels.
  destruct (Enhanced.autoSubscribe cfg); cbn [negb]; [|symmetry; apply app_nil_r].
  cbn. rewrite <- !app_assoc. reflexivity.
Qed.

(** All that [ws.onopen] schedules for later sending is a subscription
    to each of the four fixed channels, and only when [autoSubscribe] is
    on; the channels in [subscribedChannels] are not looked at. *)
Lemma onopen_schedules_fixed_channels cfg c w c' w' :
  Enhanced.onopen cfg c w = Ok (c', w') ->
  exists hb lc,
    Enhanced.pending c'
    = Enhanced.pending (Enhanced.clearAllTimers c)
      ++ [hb; lc]
      ++ (if Enhanced.autoSubscribe cfg
          then List.map (fun '(i, channel) =>
                      {| Enhanced.timer_id := (i + (2 + Enhanced.next_timer c))%nat;
                         Enhanced.timer_task := Enhanced.SubscribeLater channel;
                         Enhanced.timer_delay := 100;
                         Enhanced.timer_repeats := false |})
                   [(0%nat, Enhanced.ACCOUNT_UPDATES cfg); (1%nat, Enhanced.POSITION_UPDATES cfg);
                    (2%nat, Enhanced.ORDER_UPDATES cfg); (3%nat, Enhanced.CONNECTION_STATUS cfg)]
          else []) /\
    Enhanced.timer_task hb = Enhanced.HeartbeatTick /\
    Enhanced.timer_task lc = Enhanced.LatencyCheckTick.
Proof.
  unfold Enhanced.onopen.
  set (c0 := Enhanced.clearAllTimers c).
  assert (Hnext : Enhanced.next_timer c0 = Enhanced.next_timer c)
    by (subst c0; rewrite clearAllTimers_eq; reflexivity).
  clearbody c0. unfold Enhanced.dispatch, bind, ret.
  destruct (Enhanced.reducer _ _ w) as [[s1 w1]|e]; [|discriminate].
  intros [= <- <-]. rewrite autoSubscribeToChannels_pending.
  unfold Enhanced.startLatencyMonitoring, Enhanced.startHeartbeat, Enhanced.schedule.
  cbn [Enhanced.pending Enhanced.next_timer Enhanced.set_metaRef Enhanced.set_state].
  rewrite Hnext, <- !app_assoc. eexists _, _. split; [reflexivity|]. split; reflexivity.
Qed.

End Resubscription.

Section Quiet.
Context `{JSNumber}.
Import Enhanced.
Variable channel : string.

Lemma calm_refl c : calm channel c c.
Proof. split; [auto|]. exists 0%nat. cbn. rewrite app_nil_r. reflexivity. Qed.

Lemma calm_trans c1 c2 c3 : calm channel c1 c2 -> calm channel c2 c3 -> calm channel c1 c3.
Proof.
  intros [Hq1 [k1 Hf1]] [Hq2 [k2 Hf2]]. split; [auto|].
  exists (k1 + k2)%nat. rewrite Hf2, Hf1, <- app_assoc, replicate_add. reflexivity.
Qed.

(** A client that differs only in fields other than the sockets and the
    pending timers. *)
Lemma calm_same c c' :
  sockets c' = sockets c -> pending c' = pending c -> calm channel c c'.
Proof.
  intros Hs Hp. split.
  - unfold quiet_pending. rewrite Hp. auto.
  - exists 0%nat. unfold frames_for. rewrite Hs. cbn. rewrite app_nil_r. reflexivity.
Qed.

Lemma calm_fewer_timers c c' :
  sockets c' = sockets c -> pending c' ⊆ pending c -> calm channel c c'.
Proof.
  intros Hs Hp. split.
  - unfold quiet_pending. rewrite !Forall_forall. intros Hq e He. apply Hq, Hp, He.
  - exists 0%nat. unfold frames_for. rewrite Hs. cbn. rewrite app_nil_r. reflexivity.
Qed.

Lemma calm_clearTimeout id c : calm channel c (clearTimeout id c).
Proof.
  apply calm_fewer_timers; [reflexivity|]. cbn.
  intros e He. apply list_elem_of_filter in He. apply He.
Qed.

Lemma calm_clear_if_set timer c : calm channel c (clear_if_set timer c).
Proof. destruct timer; [apply calm_clearTimeout | apply calm_refl]. Qed.

Lemma calm_clearAllTimers c : calm channel c (clearAllTimers c).
Proof.
  unfold clearAllTimers.
  eapply calm_trans; [|apply calm_same; reflexivity].
  repeat (eapply calm_trans; [|apply calm_clear_if_set]). apply calm_refl.
Qed.

Lemma calm_schedule task delay repeats c :
  task ≠ SubscribeLater channel -> calm channel c (snd (schedule task delay repeats c)).
Proof.
  intros Htask. split.
  - unfold quiet_pending. cbn. intros Hq. apply Forall_app. split; [exact Hq|].
    repeat constructor. exact Htask.
  - exists 0%nat. unfold frames_for. cbn. rewrite app_nil_r. reflexivity.
Qed.

Lemma calm_dispatch a c w c' w' : dispatch a c w = Ok (c', w') -> calm channel c c'.
Proof.
  unfold dispatch, bind, ret. destruct (reducer (state c) a w) as [[s w1]|e]; [|discriminate].
  intros [= <- <-]. apply calm_same; reflexivity.
Qed.

Lemma frames_alter (f : WebSocket -> WebSocket) i (l : list WebSocket) :
  (forall s, List.filter (is_subscribe_for channel) (sent (f s))
             = List.filter (is_subscribe_for channel) (sent s)) ->
  List.map (fun s => List.filter (is_subscribe_for channel) (sent s)) (alter f i l)
  = List.map (fun s => List.filter (is_subscribe_for channel) (sent s)) l.
Proof.
  intros Hf. revert i. induction l as [|a l IH]; intros [|i]; cbn; try reflexivity.
  - rewrite Hf. reflexivity.
  - f_equal. apply IH.
Qed.

Lemma calm_alter (f : WebSocket -> WebSocket) i c :
  (forall s, List.filter (is_subscribe_for channel) (sent (f s))
             = List.filter (is_subscribe_for channel) (sent s)) ->
  calm channel c (set_sockets (alter f i (sockets c)) c).
Proof.
  intros Hf. split; [auto|]. exists 0%nat. unfold frames_for. cbn.
  rewrite frames_alter by exact Hf. rewrite app_nil_r. reflexivity.
Qed.

Lemma sent_close s : sent (WebSocket_close s) = sent s.
Proof. unfold WebSocket_close. destruct (readyState s); reflexivity. Qed.

Lemma calm_sendMessage message c :
  is_subscribe_for channel message = false -> calm channel c (sendMessage message c).
Proof.
  intros Hframe. unfold sendMessage.
  destruct (ws (metaRef c)) as [i|]; [|apply calm_refl].
  destruct (ws_readyState c) as [[]|]; try apply calm_refl.
  apply calm_alter. intros s. cbn. rewrite List.filter_app. cbn. rewrite Hframe.
  apply app_nil_r.
Qed.

Lemma subscribe_frame_other other t :
  other ≠ channel ->
  is_subscribe_for channel
    (JObj [("type", JStr "subscribe"); ("channel", JStr other); ("timestamp", JNum t)]) = false.
Proof.
  intros Hother. unfold is_subscribe_for. cbn.
  destruct (String.eqb_spec other channel); [contradiction | reflexivity].
Qed.

Lemma calm_subscribe other c w c' w' :
  other ≠ channel -> subscribe other c w = Ok (c', w') -> calm channel c c'.
Proof.
  intros Hother. unfold subscribe, bind, Date_now. intros Hrun.
  apply calm_dispatch in Hrun. eapply calm_trans; [|exact Hrun].
  apply calm_sendMessage, subscribe_frame_other, Hother.
Qed.

Lemma calm_unsubscribe other c w c' w' :
  unsubscribe other c w = Ok (c', w') -> calm channel c c'.
Proof.
  unfold unsubscribe, bind, Date_now. intros Hrun.
  apply calm_dispatch in Hrun. eapply calm_trans; [|exact Hrun].
  apply calm_sendMessage. reflexivity.
Qed.

Lemma calm_connect cfg c : calm channel c (connect cfg c).
Proof.
  unfold connect. destruct (connect_refused cfg c); [apply calm_refl|].
  split.
  - unfold quiet_pending, schedule. cbn. intros Hq. apply Forall_app. split.
    + apply (proj1 (calm_clearAllTimers c) Hq).
    + repeat constructor. discriminate.
  - exists 1%nat. unfold frames_for, schedule. cbn.
    rewrite clearAllTimers_sockets, List.map_app. reflexivity.
Qed.

Lemma calm_disconnect c w c' w' : disconnect c w = Ok (c', w') -> calm channel c c'.
Proof.
  unfold disconnect.
  set (c1 := set_metaRef (set_ref_connectionAttempts 0 _) _).
  set (c2 := clearAllTimers c1).
  set (c3 := match ws (metaRef c2) with Some i => _ | None => c2 end).
  intros Hrun. apply calm_dispatch in Hrun.
  assert (H1 : calm channel c c1) by (apply calm_same; reflexivity).
  assert (H2 : calm channel c1 c2) by apply calm_clearAllTimers.
  assert (H3 : calm channel c2 c3).
  { subst c3. destruct (ws (metaRef c2)); [|apply calm_refl].
    apply calm_alter. intros s. rewrite sent_close. reflexivity. }
  eapply calm_trans; [|exact Hrun].
  eapply calm_trans; [|apply calm_same; reflexivity].
  eapply calm_trans; [exact H1|]. eapply calm_trans; eassumption.
Qed.

Lemma calm_reconnect c w c' w' : reconnect c w = Ok (c', w') -> calm channel c c'.
Proof.
  unfold reconnect, bind, ret.
  destruct (disconnect c w) as [[c1 w1]|e] eqn:Hdisconnect; [|discriminate].
  intros [= <- <-]. eapply calm_trans; [exact (calm_disconnect _ _ _ _ Hdisconnect)|].
  apply calm_schedule. discriminate.
Qed.

Lemma calm_flush c w c' w' : flush c w = Ok (c', w') -> calm channel c c'.
Proof.
  unfold flush, bind, ret. destruct (0 <? _)%nat; [|intros [= <- <-]; apply calm_refl].
  destruct (dispatch _ c w) as [[c1 w1]|e] eqn:Hdispatch; [|discriminate].
  intros [= <- <-]. eapply calm_trans; [exact (calm_dispatch _ _ _ _ _ Hdispatch)|].
  apply calm_same; reflexivity.
Qed.

Lemma calm_autoSubscribeToChannels cfg c :
  channel ∉ essentialChannels cfg -> calm channel c (autoSubscribeToChannels cfg c).
Proof.
  intros Hfixed. unfold autoSubscribeToChannels.
  destruct (negb (autoSubscribe cfg)); [apply calm_refl|].
  unfold essentialChannels in *. cbn [fold_left].
  repeat (eapply calm_trans;
          [|apply calm_schedule; intros [= Hsame]; apply Hfixed; rewrite <- Hsame;
            set_solver]).
  apply calm_refl.
Qed.

Lemma calm_onopen cfg c w c' w' :
  channel ∉ essentialChannels cfg -> onopen cfg c w = Ok (c', w') -> calm channel c c'.
Proof.
  intros Hfixed. unfold onopen, bind, ret.
  destruct (dispatch _ _ w) as [[c1 w1]|e] eqn:Hdispatch; [|discriminate].
  intros [= <- <-]. apply calm_dispatch in Hdispatch.
  eapply calm_trans; [|apply calm_autoSubscribeToChannels, Hfixed].
  unfold startLatencyMonitoring, startHeartbeat.
  eapply calm_trans; [|apply calm_same; reflexivity].
  eapply calm_trans; [|apply (calm_schedule LatencyCheckTick); discriminate].
  eapply calm_trans; [|apply calm_same; reflexivity].
  eapply calm_trans; [|apply (calm_schedule HeartbeatTick); discriminate].
  eapply calm_trans; [|exact Hdispatch].
  eapply calm_trans; [apply calm_clearAllTimers|]. apply calm_same; reflexivity.
Qed.

Lemma calm_onmessage cfg frame c w c' w' :
  onmessage cfg frame c w = Ok (c', w') -> calm channel c c'.
Proof.
  unfold onmessage.
  destruct frame as [message|]; [|intros [= <- <-]; apply calm_refl].
  destruct (type_is "pong" message); [unfold bind, Date_now; apply calm_dispatch|].
  destruct (type_is "heartbeat" message); [intros [= <- <-]; apply calm_refl|].
  destruct (BATCH_UPDATES cfg); [|apply calm_dispatch].
  cbv zeta. destruct (BUFFER_SIZE cfg <=? _); [|intros [= <- <-]; apply calm_same; reflexivity].
  unfold bind, ret.
  destruct (dispatch _ _ w) as [[c1 w1]|e] eqn:Hdispatch; [|discriminate].
  intros [= <- <-]. apply calm_dispatch in Hdispatch.
  eapply calm_trans; [|apply calm_same; reflexivity].
  eapply calm_trans; [|exact Hdispatch]. apply calm_same; reflexivity.
Qed.

Lemma calm_onclose cfg code reason c w c' w' :
  onclose cfg code reason c w = Ok (c', w') -> calm channel c c'.
Proof.
  unfold onclose, bind, ret, Math_random.
  destruct (flush _ w) as [[c1 w1]|e] eqn:Hflush; [|discriminate].
  destruct (dispatch _ c1 w1) as [[c2 w2]|e] eqn:Hdispatch; [|discriminate].
  apply calm_flush in Hflush. apply calm_dispatch in Hdispatch.
  assert (Hc2 : calm channel c c2).
  { eapply calm_trans; [apply calm_clearAllTimers|]. eapply calm_trans; eassumption. }
  destruct (isManualClose _ || _); [intros [= <- <-]; exact Hc2|].
  assert (Hlast : forall delay,
             calm channel c2
               (let '(id, c3) := schedule ReconnectTimer delay false
                                   (set_metaRef (set_ref_connectionAttempts
                                      (ref_connectionAttempts (metaRef c2) + 1) (metaRef c2)) c2) in
                set_metaRef (set_timers {| heartbeat := heartbeat (timers (metaRef c3));
                                           reconnect_timer := Some id;
                                           connection := connection (timers (metaRef c3));
                                           latencyCheck := latencyCheck (timers (metaRef c3)) |}
                               (metaRef c3)) c3)).
  { intros delay. eapply calm_trans; [|apply calm_same; reflexivity].
    eapply calm_trans; [|apply (calm_schedule ReconnectTimer delay false); discriminate].
    apply calm_same; reflexivity. }
  destruct (JITTER cfg); intros [= <- <-]; (eapply calm_trans; [exact Hc2|]); apply Hlast.
Qed.

Lemma calm_run_task cfg task c w c' w' :
  channel ∉ essentialChannels cfg -> task ≠ SubscribeLater channel ->
  run_task cfg task c w = Ok (c', w') -> calm channel c c'.
Proof.
  intros Hfixed Htask. destruct task; cbn [run_task]; unfold bind, ret.
  - intros [= <- <-]. unfold connectionTimeout_fires.
    destruct (sockets c !! ws0) as [s|]; [|apply calm_refl].
    destruct (ReadyState_eqb _ _); [|apply calm_refl].
    apply calm_alter. intros s0. rewrite sent_close. reflexivity.
  - unfold heartbeat_tick, bind, ret, Date_now.
    destruct (ws_readyState c) as [[]|]; intros [= <- <-]; try apply calm_refl.
    eapply calm_trans; [|apply calm_sendMessage; reflexivity].
    apply calm_same; reflexivity.
  - unfold latencyCheck_tick, bind, ret, Date_now.
    destruct (0 <? _); [|intros [= <- <-]; apply calm_refl].
    destruct (_ <? _); [apply calm_dispatch | intros [= <- <-]; apply calm_refl].
  - destruct (dispatch _ c w) as [[c1 w1]|e] eqn:Hdispatch; [|discriminate].
    intros [= <- <-]. eapply calm_trans; [exact (calm_dispatch _ _ _ _ _ Hdispatch)|].
    apply calm_connect.
  - apply calm_subscribe. congruence.
  - intros [= <- <-]. apply calm_connect.
  - apply calm_flush.
Qed.

Lemma calm_step cfg e c w c' w' :
  channel ∉ essentialChannels cfg -> quiet_pending channel c -> quiet_event channel e ->
  step cfg c e w = Ok (c', w') -> calm channel c c'.
Proof.
  intros Hfixed Hq He. destruct e; cbn [step]; unfold ret; cbn in He.
  - intros [= <- <-]. unfold mount.
    eapply calm_trans; [|apply calm_connect].
    destruct (BATCH_UPDATES cfg); [|apply calm_refl].
    eapply calm_trans; [|apply calm_same; reflexivity].
    apply (calm_schedule FlushTick). discriminate.
  - unfold unmount. intros Hrun.
    eapply calm_trans; [apply calm_clear_if_set | exact (calm_disconnect _ _ _ _ Hrun)].
  - intros [= <- <-]. apply calm_connect.
  - apply calm_disconnect.
  - apply calm_reconnect.
  - apply calm_subscribe, He.
  - apply calm_unsubscribe.
  - intros [= <- <-]. apply calm_sendMessage, He.
  - destruct (readyState <$> sockets c !! i) as [[]|];
      try (intros [= <- <-]; apply calm_refl).
    intros Hrun. eapply calm_trans; [|exact (calm_onopen _ _ _ _ _ Hfixed Hrun)].
    apply calm_alter. reflexivity.
  - destruct (readyState <$> sockets c !! i) as [[]|];
      try (intros [= <- <-]; apply calm_refl).
    apply calm_onmessage.
  - destruct (readyState <$> sockets c !! i) as [[]|];
      try (intros [= <- <-]; apply calm_refl);
      intros Hrun;
      (eapply calm_trans; [|exact (calm_onclose _ _ _ _ _ _ _ Hrun)]);
      apply calm_alter; reflexivity.
  - destruct (List.find _ (pending c)) as [entry|] eqn:Hfind;
      [|intros [= <- <-]; apply calm_refl].
    apply List.find_some in Hfind as [Hin _].
    assert (Htask : timer_task entry ≠ SubscribeLater channel).
    { unfold quiet_pending in Hq. rewrite Forall_forall in Hq.
      apply Hq, list_elem_of_In, Hin. }
    intros Hrun. eapply calm_trans; [|exact (calm_run_task _ _ _ _ _ _ Hfixed Htask Hrun)].
    destruct (timer_repeats entry); [apply calm_refl | apply calm_clearTimeout].
  - destruct (readyState <$> sockets c !! i) as [[]|];
      intros [= <- <-]; try apply calm_refl.
    apply calm_alter. reflexivity.
Qed.

Lemma calm_run cfg events c w c' w' :
  channel ∉ essentialChannels cfg -> quiet_pending channel c ->
  Forall (quiet_event channel) events ->
  run cfg events c w = Ok (c', w') -> calm channel c c'.
Proof.
  intros Hfixed Hq Hevents. unfold run. revert c w Hq.
  induction Hevents as [|e events He Hevents IH]; intros c w Hq.
  - intros [= <- <-]. apply calm_refl.
  - cbn [forEach]. unfold bind.
    destruct (step cfg c e w) as [[c1 w1]|err] eqn:Hstep; [|discriminate].
    intros Hrun. pose proof (calm_step _ _ _ _ _ _ Hfixed Hq He Hstep) as Hc1.
    eapply calm_trans; [exact Hc1|]. apply (IH c1 w1); [apply Hc1, Hq | exact Hrun].
Qed.

(** A channel outside the four fixed ones is never named by a subscribe
    frame on a socket created later, unless the caller subscribes again
    or sends the frame by hand: it makes no difference whether the
    channel is in [subscribedChannels]. *)
Lemma no_replay_on_later_sockets cfg events c w c' w' i s :
  channel ∉ essentialChannels cfg -> quiet_pending channel c ->
  Forall (quiet_event channel) events ->
  run cfg events c w = Ok (c', w') ->
  (length (sockets c) <= i)%nat -> sockets c' !! i = Some s ->
  existsb (is_subscribe_for channel) (sent s) = false.
Proof.
  intros Hfixed Hq Hevents Hrun Hi Hs.
  destruct (calm_run _ _ _ _ _ _ Hfixed Hq Hevents Hrun) as [_ [k Hframes]].
  assert (Hframe : frames_for channel c' !! i = Some (List.filter (is_subscribe_for channel) (sent s))).
  { unfold frames_for. change (List.map ?f ?l) with (f <$> l). rewrite list_lookup_fmap, Hs. reflexivity. }
  rewrite Hframes in Hframe. rewrite lookup_app_r in Hframe
    by (unfold frames_for; rewrite List.length_map; exact Hi).
  apply lookup_replicate in Hframe as [Hnil _].
  destruct (existsb _ _) eqn:Hex; [|reflexivity].
  apply existsb_exists in Hex as (frame & Hin & Hsub).
  assert (Hin' : In frame (List.filter (is_subscribe_for channel) (sent s)))
    by (apply List.filter_In; auto).
  rewrite Hnil in Hin'. destruct Hin'.
Qed.

End Quiet.

(* ===================================================================== *)
(** * 12. Closed runs *)
(* ===================================================================== *)

(** The classification on integer latencies, and when not connected. *)
Lemma quality_when_not_connected `{JSNumber} (s : Enhanced.WebSocketState) :
  Enhanced.isConnected s = false -> Enhanced.connectionQuality s = Enhanced.disconnected.
Proof. intros Hclosed. unfold Enhanced.connectionQuality. rewrite Hclosed. reflexivity. Qed.

Lemma quality_of_integer_latency (s : Enhanced.WebSocketState) (z : Z) :
  Enhanced.isConnected s = true -> Enhanced.latency s = Some z ->
  Enhanced.connectionQuality s
  = if (z =? 0) || (z <? 100) then Enhanced.excellent
    else if z <? 300 then Enhanced.good else Enhanced.poor.
Proof.
  intros Hopen Hlatency. unfold Enhanced.connectionQuality. rewrite Hopen, Hlatency. cbn.
  destruct (z =? 0), (z <? 100), (z <? 300); reflexivity.
Qed.

(** C1, at the input where it fails. On a connected snapshot whose
    latency is the stale sentinel -1, the derived quality is 'excellent',
    not 'poor': -1 is not 0 but it is below 100.  The sentinel is what the
    latency check of the hook itself publishes when a heartbeat has had
    no reply for more than two intervals. *)
Theorem stale_sentinel_is_classified_excellent :
  (forall (s : Enhanced.WebSocketState) w,
      exists s1 s2,
        Enhanced.reducer s Enhanced.CONNECTED w = Ok (s1, tick w) /\
        Enhanced.reducer s1 (Enhanced.UPDATE_LATENCY (number_of_Z (-1))) (tick w)
        = Ok (s2, tick w) /\
        Enhanced.isConnected s2 = true /\
        Enhanced.latency s2 = number_of_Z (-1) /\
        Enhanced.connectionQuality s2 = Enhanced.excellent) /\
  match Enhanced.run (sample_config false false) stale_heartbeat
          Enhanced.initialClient slow_world with
  | Ok (c, _) =>
      Enhanced.isConnected (Enhanced.state c) = true /\
      Enhanced.latency (Enhanced.state c) = number_of_Z (-1) /\
      Enhanced.connectionQuality (Enhanced.state c) = Enhanced.excellent
  | Throw _ => False
  end.
Proof.
  split.
  - intros s w. eexists _, _. repeat split.
  - vm_compute. repeat split.
Qed.

(** C3, at the input where it fails. When the first connection attempt
    of the enhanced hook fails (no reconnect scheduled so far), the
    counter is incremented before the delay is computed, so the
    reconnect is scheduled after min(2000 * 2^1, 30000) = 4000 ms and not
    after min(2000 * 2^0, 30000) = 2000 ms; the basic hook, in the same
    situation, schedules it after 2000 ms. *)
Theorem first_reconnect_delay_is_doubled :
  match Enhanced.run (sample_config false false) first_failure
          Enhanced.initialClient sample_world with
  | Ok (c, _) =>
      Enhanced.ref_connectionAttempts (Enhanced.metaRef c) = 1 /\
      pending_reconnect_delay c = Some (inject_Z 4000) /\
      pending_reconnect_delay c ≠ Some (inject_Z (Z.min (2000 * 2 ^ 0) 30000))
  | Throw _ => False
  end /\
  match Basic.run Basic.DEFAULT_CONFIG basic_first_failure
          Basic.initialClient sample_world with
  | Ok (c, _) =>
      basic_pending_reconnect_delay c = Some (inject_Z (Z.min (2000 * 2 ^ 0) 30000))
  | Throw _ => False
  end.
Proof.
  split; vm_compute.
  - split; [reflexivity|]. split; [reflexivity|]. discriminate.
  - reflexivity.
Qed.

(** C2, at the input where it fails. The caller subscribes to "trades"
    once; the socket closes uncleanly, the hook reconnects and the new
    socket opens.  "trades" is still in [subscribedChannels], but no
    subscribe frame naming it is sent on the new socket: only the four
    fixed channels of the auto-subscription are sent, and no timer that
    could send anything else is left pending. *)
Theorem custom_subscription_is_not_replayed :
  match Enhanced.run (sample_config false false) reconnect_cycle
          Enhanced.initialClient sample_world with
  | Ok (c, _) =>
      Enhanced.ws_readyState c = Some OPEN /\
      Enhanced.ws (Enhanced.metaRef c) = Some 1%nat /\
      bool_decide ("trades" ∈ Enhanced.subscribedChannels (Enhanced.state c)) = true /\
      existsb (is_subscribe_for "trades") (sent_on 0 c) = true /\
      existsb (is_subscribe_for "trades") (sent_on 1 c) = false /\
      existsb (is_subscribe_for "account_updates") (sent_on 1 c) = true /\
      List.map Enhanced.timer_task (Enhanced.pending c)
      = [Enhanced.HeartbeatTick; Enhanced.LatencyCheckTick]
  | Throw _ => False
  end.
Proof. vm_compute. repeat split. Qed.

(** C5, at the input where it fails. [disconnect()] clears the snapshot
    without applying the buffer, unlike [ws.onclose]: it returns with
    the buffer as it was and [accountData] null.  With one account
    update waiting when the caller disconnects, the snapshot is cleared
    with the frame still in the buffer; the flush interval, which
    [disconnect()] does not cancel, then applies the frame to the
    cleared snapshot, which ends disconnected with the balance of 100;
    had the close event of the socket come first, its handler would have
    applied the frame and cleared the snapshot once more. *)
Theorem disconnect_clears_the_snapshot_without_flushing :
  (forall (c : Enhanced.Client) w,
      exists c', Enhanced.disconnect c w = Ok (c', w) /\
                 Enhanced.ref_messageBuffer (Enhanced.metaRef c')
                 = Enhanced.ref_messageBuffer (Enhanced.metaRef c) /\
                 Enhanced.accountData (Enhanced.state c') = JNull) /\
  match Enhanced.run (sample_config true false) disconnect_with_a_frame_waiting
          Enhanced.initialClient sample_world with
  | Ok (c, w) =>
      Enhanced.accountData (Enhanced.state c) = JNull /\
      Enhanced.isConnected (Enhanced.state c) = false /\
      Enhanced.ref_messageBuffer (Enhanced.metaRef c) = [account_update 100] /\
      match Enhanced.step (sample_config true false) c (Enhanced.TimerFires 0) w with
      | Ok (c', _) =>
          Enhanced.accountData (Enhanced.state c') = balance 100 /\
          Enhanced.isConnected (Enhanced.state c') = false /\
          Enhanced.error (Enhanced.state c') = JStr "Manually disconnected" /\
          Enhanced.ref_messageBuffer (Enhanced.metaRef c') = []
      | Throw _ => False
      end /\
      match Enhanced.step (sample_config true false) c
              (Enhanced.SocketClose 0 1000 "Manual disconnect") w with
      | Ok (c', _) =>
          Enhanced.accountData (Enhanced.state c') = JNull /\
          Enhanced.ref_messageBuffer (Enhanced.metaRef c') = []
      | Throw _ => False
      end
  | Throw _ => False
  end.
Proof.
  split.
  - intros c w. destruct (disconnect_keeps_buffer c w) as (c' & Hrun & Hbuffer & Hcleared & _).
    exists c'. split; [exact Hrun|]. split; [exact Hbuffer | exact Hcleared].
  - cbv -[IntNumber]. repeat split.
Qed.

(** C9 as stated fails, in both hooks: an 'error' payload
    [{message: ""}] carries a message field, yet [error] becomes the
    default and not the field. *)
Lemma error_claim_fails :
  ~ (forall (s : Enhanced.WebSocketState) m w,
        type m = JStr "error" ->
        exists s' w', Enhanced.reducer s (Enhanced.MESSAGE m) w = Ok (s', w') /\
                      Enhanced.error s' = claimed_error (data m)) /\
  ~ (forall (s : Basic.WebSocketState) m w,
        type m = JStr "error" ->
        exists s' w', Basic.reducer s (Basic.MESSAGE m) w = Ok (s', w') /\
                      Basic.error s' = claimed_error (data m)).
Proof.
  split; intros Hclaim.
  - destruct (Hclaim Enhanced.initialState empty_error sample_world eq_refl)
      as (s' & w' & Hrun & Herror).
    cbn [Enhanced.reducer] in Hrun.
    rewrite (error_case Enhanced.initialState empty_error sample_world eq_refl) in Hrun.
    injection Hrun as <- <-. discriminate Herror.
  - destruct (Hclaim Basic.initialState empty_error sample_world eq_refl)
      as (s' & w' & Hrun & Herror).
    rewrite (basic_error_case Basic.initialState empty_error sample_world eq_refl) in Hrun.
    injection Hrun as <- <-. discriminate Herror.
Qed.

(* ===================================================================== *)
(** * 13. The theorems at concrete inputs *)
(* ===================================================================== *)

(** A frame of kind 'nonsense' on the initial snapshot. *)
Lemma unknown_kind_witness :
  Forall (fun k => type nonsense ≠ JStr k) case_labels /\
  Enhanced.reducer Enhanced.initialState (Enhanced.MESSAGE nonsense) sample_world
  = Ok (Enhanced.set_lastMessageTime (Some (now sample_world)) Enhanced.initialState,
        tick sample_world) /\
  Enhanced.lastMessageTime
    (Enhanced.set_lastMessageTime (Some (now sample_world)) Enhanced.initialState)
  = Some (now sample_world).
Proof.
  assert (Hkind : Forall (fun k => type nonsense ≠ JStr k) case_labels)
    by (repeat constructor; discriminate).
  destruct (unknown_kind_only_touches_lastMessageTime
              Enhanced.initialState nonsense sample_world) as [Hunknown Haccepted].
  split; [exact Hkind|]. split; [exact (Hunknown Hkind)|].
  exact (Haccepted _ _ (Hunknown Hkind)).
Defined.

(** An 'error' frame with an empty message gets the default, in both
    hooks. *)
Lemma error_message_witness :
  type empty_error = JStr "error" /\
  (exists s',
     Enhanced.reducer Enhanced.initialState (Enhanced.MESSAGE empty_error) sample_world
     = Ok (s', tick sample_world) /\
     Enhanced.error s' = JStr "Unknown server error" /\
     Enhanced.isConnected s' = false /\
     Enhanced.connectionAttempts s' = 0) /\
  (exists sb',
     Basic.reducer Basic.initialState (Basic.MESSAGE empty_error) sample_world
     = Ok (sb', tick sample_world) /\
     Basic.error sb' = JStr "Unknown server error" /\
     Basic.isConnected sb' = false /\
     Basic.connectionAttempts sb' = 0).
Proof.
  split; [reflexivity|].
  destruct (error_message_sets_error_only Enhanced.initialState Basic.initialState
              empty_error sample_world eq_refl)
    as [(s' & Hrun & Herror & Hconnected & Hattempts & _)
        (sb' & Hbasic & Hbasic_error & Hbasic_connected & Hbasic_attempts)].
  split.
  - exists s'. split; [exact Hrun|]. split; [exact Herror|].
    split; [exact Hconnected | exact Hattempts].
  - exists sb'. split; [exact Hbasic|]. split; [exact Hbasic_error|].
    split; [exact Hbasic_connected | exact Hbasic_attempts].
Defined.

(** The GBPUSD quote arriving on a snapshot that holds EURUSD. *)
Lemma market_data_witness :
  type gbpusd_update = JStr "market_data" /\
  exists s',
    Enhanced.reducer eurusd_snapshot (Enhanced.MESSAGE gbpusd_update) sample_world
    = Ok (s', tick sample_world) /\
    quote_of s' "GBPUSD" = Some gbpusd_quote /\
    quote_of s' "EURUSD" = quote_of eurusd_snapshot "EURUSD".
Proof.
  split; [reflexivity|].
  destruct (market_data_replaces_one_symbol eurusd_snapshot gbpusd_update sample_world
              _ (JStr "GBPUSD") eq_refl eq_refl eq_refl)
    as (s' & Hrun & Hquote & Hother & _).
  exists s'. split; [exact Hrun|]. split; [exact Hquote|].
  apply Hother. discriminate.
Defined.

(** Two account updates buffered and flushed: the balance ends at 200. *)
Lemma batch_flush_witness :
  Enhanced.BATCH_UPDATES (sample_config true false) = true /\
  Forall (fun m => bufferable m = true) [account_update 100; account_update 200] /\
  match (do c' <- deliver (sample_config true false)
                    [account_update 100; account_update 200] Enhanced.initialClient;
         Enhanced.flush c') sample_world with
  | Ok (c', _) =>
      Enhanced.accountData (Enhanced.state c') = balance 200 /\
      Enhanced.ref_messageBuffer (Enhanced.metaRef c') = []
  | Throw _ => False
  end.
Proof.
  assert (Hms : Forall (fun m => bufferable m = true)
                  [account_update 100; account_update 200])
    by (repeat constructor).
  destruct (batch_flush_applies_in_arrival_order (sample_config true false)
              Enhanced.initialClient _ sample_world 1006 "" eq_refl Hms)
    as (_ & Hflush & _).
  split; [reflexivity|]. split; [exact Hms|].
  rewrite Hflush. vm_compute. split; reflexivity.
Defined.

(** A second [connect] right after mounting is refused, and a sequence
    of calls leaves at most one transport alive, in both hooks. *)
Lemma one_transport_witness :
  Enhanced.ws_readyState (Enhanced.mount (sample_config false false) Enhanced.initialClient)
  = Some CONNECTING /\
  Enhanced.connect (sample_config false false)
    (Enhanced.mount (sample_config false false) Enhanced.initialClient)
  = Enhanced.mount (sample_config false false) Enhanced.initialClient /\
  Forall (fun e => is_call e = true)
    [Enhanced.CallConnect; Enhanced.CallReconnect; Enhanced.CallConnect;
     Enhanced.CallDisconnect] /\
  (exists c',
      Enhanced.run (sample_config false false)
        [Enhanced.CallConnect; Enhanced.CallReconnect; Enhanced.CallConnect;
         Enhanced.CallDisconnect] Enhanced.initialClient sample_world
      = Ok (c', sample_world) /\
      (live_count (Enhanced.sockets c') <= 1)%nat) /\
  Forall (fun e => basic_is_call e = true)
    [Basic.CallConnect 0; Basic.CallConnect 0; Basic.CallReconnect 0] /\
  (exists c',
      Basic.run Basic.DEFAULT_CONFIG
        [Basic.CallConnect 0; Basic.CallConnect 0; Basic.CallReconnect 0]
        Basic.initialClient sample_world
      = Ok (c', sample_world) /\
      (live_count (Basic.sockets c') <= 1)%nat).
Proof.
  destruct (connect_is_refused_and_one_transport_lives
              (sample_config false false) Basic.DEFAULT_CONFIG)
    as (Hguard & _ & Hcalls & _ & _ & Hbcalls).
  assert (Hc : Forall (fun e => is_call e = true)
                 [Enhanced.CallConnect; Enhanced.CallReconnect; Enhanced.CallConnect;
                  Enhanced.CallDisconnect]) by (repeat constructor).
  assert (Hb : Forall (fun e => basic_is_call e = true)
                 [Basic.CallConnect 0; Basic.CallConnect 0; Basic.CallReconnect 0])
    by (repeat constructor).
  split; [reflexivity|]. split; [apply Hguard; left; reflexivity|].
  split; [exact Hc|]. split; [exact (Hcalls _ sample_world Hc)|].
  split; [exact Hb|]. exact (Hbcalls _ sample_world Hb).
Defined.

(* ===================================================================== *)
(** * 14. More on the reducers: what messages cannot change *)
(* ===================================================================== *)

Section MoreReducerFacts.
Context `{JSNumber}.
Import Enhanced.

Lemma processMessage_accountData s m w s' w' :
  processMessage s m w = Ok (s', w') ->
  accountData s' = match switch_type (type m) with
                   | case_account_update => data m
                   | _ => accountData s
                   end.
Proof.
  unfold processMessage. unfold_monad. unfold guarded_in.
  intros Hrun.
  repeat (case_match; simplify_eq; try discriminate); cbn; auto.
Qed.

Lemma batch_frame s ms w s' w' :
  forEach processMessage ms s w = Ok (s', w') ->
  subscribedChannels s' = subscribedChannels s /\
  isConnected s' = isConnected s /\
  connectionAttempts s' = connectionAttempts s /\
  messageBuffer s' = messageBuffer s.
Proof.
  revert s w. induction ms as [|m ms IH]; intros s w.
  - intros [= <- <-]. auto.
  - cbn [forEach]. unfold bind.
    destruct (processMessage s m w) as [[s1 w1]|e] eqn:Hm; [|discriminate].
    intros Hrest. apply IH in Hrest.
    apply processMessage_frame in Hm. intuition congruence.
Qed.

Lemma last_account_update_from (ms : list WebSocketMessage) d :
  fold_left (fun found message =>
               match switch_type (type message) with
               | case_account_update => Some (data message)
               | _ => found
               end) ms (Some d)
  = Some (default d (last_account_update ms)).
Proof.
  unfold last_account_update. revert d. induction ms as [|m ms IH]; intros d; [reflexivity|].
  cbn [fold_left]. destruct (switch_type (type m)); rewrite ?IH; reflexivity.
Qed.

Lemma batch_accountData s ms w s' w' :
  forEach processMessage ms s w = Ok (s', w') ->
  accountData s' = default (accountData s) (last_account_update ms).
Proof.
  revert s w. induction ms as [|m ms IH]; intros s w.
  - intros [= <- <-]. reflexivity.
  - cbn [forEach]. unfold bind.
    destruct (processMessage s m w) as [[s1 w1]|e] eqn:Hm; [|discriminate].
    intros Hrest. apply IH in Hrest. apply processMessage_accountData in Hm.
    rewrite Hrest, Hm. unfold last_account_update at 2. cbn [fold_left].
    destruct (switch_type (type m)); try reflexivity.
    rewrite last_account_update_from. cbn. destruct (last_account_update ms); reflexivity.
Qed.

(** X1. No inbound message, whatever its kind and payload, and no batch
    of them, changes [isConnected], [connectionAttempts],
    [subscribedChannels] or [messageBuffer]; the same holds for
    [isConnected] and [connectionAttempts] in the basic hook. *)
Theorem messages_never_touch_connection_state s (sb : Basic.WebSocketState) ms m w :
  match reducer s (BATCH_UPDATE ms) w with
  | Ok (s', _) =>
      isConnected s' = isConnected s /\ connectionAttempts s' = connectionAttempts s /\
      subscribedChannels s' = subscribedChannels s /\ messageBuffer s' = messageBuffer s
  | Throw _ => True
  end /\
  match reducer s (MESSAGE m) w with
  | Ok (s', _) =>
      isConnected s' = isConnected s /\ connectionAttempts s' = connectionAttempts s /\
      subscribedChannels s' = subscribedChannels s /\ messageBuffer s' = messageBuffer s
  | Throw _ => True
  end /\
  exists sb',
    Basic.reducer sb (Basic.MESSAGE m) w = Ok (sb', tick w) /\
    Basic.isConnected sb' = Basic.isConnected sb /\
    Basic.connectionAttempts sb' = Basic.connectionAttempts sb.
Proof.
  split; [|split].
  - cbn [reducer]. destruct (forEach _ _ _ _) as [[s' w']|e] eqn:Hrun; [|exact I].
    apply batch_frame in Hrun. intuition.
  - cbn [reducer]. destruct (processMessage _ _ _) as [[s' w']|e] eqn:Hrun; [|exact I].
    apply processMessage_frame in Hrun. intuition.
  - cbn [Basic.reducer]. unfold_monad.
    destruct (Basic.switch_type (type m)); eexists; (split; [reflexivity|]); split; reflexivity.
Qed.

(** X2. After a batch, the account is the payload of the last
    'account_update' frame of the batch, and the old account when the
    batch has none: whatever else the batch carries. *)
Theorem batch_keeps_last_account_update s ms w :
  match reducer s (BATCH_UPDATE ms) w with
  | Ok (s', _) => accountData s' = default (accountData s) (last_account_update ms)
  | Throw _ => True
  end.
Proof.
  cbn [reducer]. destruct (forEach _ _ _ _) as [[s' w']|e] eqn:Hrun; [|exact I].
  exact (batch_accountData _ _ _ _ _ Hrun).
Qed.

(** X3. Two market frames in a row: when they carry the same symbol the
    second replaces the first, as if the first had never arrived; when
    they carry different symbols the order does not matter for the
    quotes. *)
Theorem market_frames_compose s m1 m2 w props1 props2 k1 k2 :
  type m1 = JStr "market_data" -> type m2 = JStr "market_data" ->
  data m1 = JObj props1 -> data m2 = JObj props2 ->
  own_property "symbol" props1 = Some k1 -> own_property "symbol" props2 = Some k2 ->
  exists s12 s21 s2,
    reducer s (BATCH_UPDATE [m1; m2]) w = Ok (s12, tick (tick w)) /\
    reducer s (BATCH_UPDATE [m2; m1]) w = Ok (s21, tick (tick w)) /\
    reducer s (BATCH_UPDATE [m2]) w = Ok (s2, tick w) /\
    (ToString k1 = ToString k2 -> marketData s12 = marketData s2) /\
    (ToString k1 ≠ ToString k2 -> marketData s12 = marketData s21).
Proof.
  intros Ht1 Ht2 Hd1 Hd2 Hk1 Hk2. cbn [reducer forEach]. unfold bind at 1 3 5.
  rewrite (market_data_case s m1 w props1 k1 Ht1 Hd1 Hk1).
  rewrite (market_data_case s m2 w props2 k2 Ht2 Hd2 Hk2).
  unfold bind. 
  rewrite (market_data_case _ m2 (tick w) props2 k2 Ht2 Hd2 Hk2).
  rewrite (market_data_case _ m1 (tick w) props1 k1 Ht1 Hd1 Hk1).
  unfold ret. eexists _, _, _. repeat (split; [reflexivity|]). cbn.
  split.
  - intros ->. rewrite insert_insert_eq. reflexivity.
  - intros Hne. f_equal. apply insert_insert_ne. congruence.
Qed.

End MoreReducerFacts.

(** The GBPUSD and the EURUSD quotes arriving in one batch, in either
    order. *)
Lemma market_frames_witness :
  type gbpusd_update = JStr "market_data" /\ type eurusd_update = JStr "market_data" /\
  exists s12 s21,
    Enhanced.reducer Enhanced.initialState
      (Enhanced.BATCH_UPDATE [gbpusd_update; eurusd_update]) sample_world
    = Ok (s12, tick (tick sample_world)) /\
    Enhanced.reducer Enhanced.initialState
      (Enhanced.BATCH_UPDATE [eurusd_update; gbpusd_update]) sample_world
    = Ok (s21, tick (tick sample_world)) /\
    Enhanced.marketData s12 = Enhanced.marketData s21.
Proof.
  split; [reflexivity|]. split; [reflexivity|].
  destruct (market_frames_compose Enhanced.initialState gbpusd_update eurusd_update
              sample_world _ _ (JStr "GBPUSD") (JStr "EURUSD")
              eq_refl eq_refl eq_refl eq_refl eq_refl eq_refl)
    as (s12 & s21 & s2 & H12 & H21 & _ & _ & Hswap).
  exists s12, s21. split; [exact H12|]. split; [exact H21|].
  apply Hswap. discriminate.
Defined.

(* ===================================================================== *)
(** * 15. Subscriptions *)
(* ===================================================================== *)

Section Subscriptions.
Context `{JSNumber}.
Import Enhanced.

Lemma subscribe_transition s channel w :
  reducer s (SUBSCRIBE channel) w
  = Ok (set_subscribedChannels (subscribedChannels s ∪ {[channel]}) s, w).
Proof. reflexivity. Qed.

Lemma unsubscribe_transition s channel w :
  reducer s (UNSUBSCRIBE channel) w
  = Ok (set_subscribedChannels (subscribedChannels s ∖ {[channel]}) s, w).
Proof. reflexivity. Qed.

(** X4. Subscribing is idempotent on the recorded set, and so is
    unsubscribing; unsubscribing a channel that was not recorded changes
    nothing, and subscribing to a new channel and then unsubscribing
    gives the snapshot back. *)
Theorem subscription_set_round_trip s channel w :
  let subscribed := set_subscribedChannels (subscribedChannels s ∪ {[channel]}) s in
  let unsubscribed := set_subscribedChannels (subscribedChannels s ∖ {[channel]}) s in
  reducer s (SUBSCRIBE channel) w = Ok (subscribed, w) /\
  reducer subscribed (SUBSCRIBE channel) w = Ok (subscribed, w) /\
  reducer s (UNSUBSCRIBE channel) w = Ok (unsubscribed, w) /\
  reducer unsubscribed (UNSUBSCRIBE channel) w = Ok (unsubscribed, w) /\
  (channel ∈ subscribedChannels s -> subscribed = s) /\
  (channel ∉ subscribedChannels s ->
   unsubscribed = s /\ reducer subscribed (UNSUBSCRIBE channel) w = Ok (s, w)).
Proof.
  assert (Hset : forall (a b : gset string),
            a = b -> set_subscribedChannels a s = set_subscribedChannels b s)
    by (intros a b ->; reflexivity).
  assert (Heta : set_subscribedChannels (subscribedChannels s) s = s)
    by (destruct s; reflexivity).
  assert (Hunion : (subscribedChannels s ∪ {[channel]}) ∪ {[channel]}
                   = subscribedChannels s ∪ {[channel]}).
  { apply set_eq. intros x. rewrite !elem_of_union. tauto. }
  assert (Hminus : (subscribedChannels s ∖ {[channel]}) ∖ {[channel]}
                   = subscribedChannels s ∖ {[channel]}).
  { apply set_eq. intros x. rewrite !elem_of_difference. tauto. }
  assert (Hin : channel ∈ subscribedChannels s ->
                subscribedChannels s ∪ {[channel]} = subscribedChannels s).
  { intros Hold. apply set_eq. intros x. rewrite elem_of_union, elem_of_singleton.
    split; [intros [Hx| ->]; assumption | tauto]. }
  assert (Hout : channel ∉ subscribedChannels s ->
                 subscribedChannels s ∖ {[channel]} = subscribedChannels s).
  { intros Hfresh. apply set_eq. intros x. rewrite elem_of_difference, elem_of_singleton.
    split; [tauto|]. intros Hx. split; [exact Hx|]. intros ->. contradiction. }
  assert (Hback : channel ∉ subscribedChannels s ->
                  (subscribedChannels s ∪ {[channel]}) ∖ {[channel]} = subscribedChannels s).
  { intros Hfresh. apply set_eq. intros x.
    rewrite elem_of_difference, elem_of_union, elem_of_singleton.
    split; [tauto|]. intros Hx. split; [tauto|]. intros ->. contradiction. }
  cbv zeta. cbn [reducer]. unfold ret.
  split; [reflexivity|]. split; [cbn; rewrite Hunion; reflexivity|].
  split; [reflexivity|]. split; [cbn; rewrite Hminus; reflexivity|].
  split.
  - intros Hold. rewrite (Hset _ _ (Hin Hold)). exact Heta.
  - intros Hfresh. split; [rewrite (Hset _ _ (Hout Hfresh)); exact Heta|].
    clear Hset Heta Hunion Hminus Hin Hout. destruct s. cbn in *.
    unfold set_subscribedChannels. cbn. rewrite (Hback Hfresh). reflexivity.
Qed.

(** X5. [subscribe(channel)] always records the channel; it sends the
    subscribe frame only when the socket the hook holds is open, and
    then it appends exactly that frame to that socket.  On a socket
    that is connecting, closing or closed, or with no socket, nothing is
    sent and nothing is queued for later. *)
Theorem subscribe_records_and_sends_only_when_open channel c w :
  exists c',
    subscribe channel c w = Ok (c', tick w) /\
    subscribedChannels (state c') = (subscribedChannels (state c) ∪ {[channel]}) /\
    pending c' = pending c /\ metaRef c' = metaRef c /\
   
    (ws_readyState c ≠ Some OPEN -> sockets c' = sockets c) /\
    (forall i, ws (metaRef c) = Some i -> ws_readyState c = Some OPEN ->
               sockets c'
               = alter (WebSocket_send (channel_frame "subscribe" channel (now w))) i
                   (sockets c)).
Proof.
  unfold subscribe, dispatch, sendMessage. cbn [reducer]. unfold_monad.
  eexists. split; [reflexivity|]. cbn.
  destruct (ws (metaRef c)) as [i|] eqn:Hws;
    [destruct (ws_readyState c) as [[]|] eqn:Hready|]; cbn;
    repeat split; try congruence; try discriminate.
  intros j [= <-] _. reflexivity.
Qed.

End Subscriptions.

(* ===================================================================== *)
(** * 16. Sockets only move forward *)
(* ===================================================================== *)

Section Growth.
Context `{JSNumber}.

Lemma socket_grows_refl a : socket_grows a a.
Proof. repeat split; auto. Qed.

Lemma socket_grows_trans a b c : socket_grows a b -> socket_grows b c -> socket_grows a c.
Proof.
  intros (Hr1 & Hp1 & Hc1 & Hd1) (Hr2 & Hp2 & Hc2 & Hd2). repeat split.
  - lia.
  - etransitivity; eassumption.
  - intros Hc. rewrite (Hc2 Hc). apply Hc1.
    destruct (readyState b); cbn in *; try reflexivity; rewrite Hc in Hr2; cbn in Hr2; lia.
  - intros Hd. rewrite <- (Hd1 Hd). apply Hd2.
    unfold live in *. destruct (readyState a), (readyState b); cbn in *; try discriminate;
      try reflexivity; lia.
Qed.

Lemma sockets_grow_refl l : sockets_grow l l.
Proof. intros i a Hi. exists a. split; [exact Hi | apply socket_grows_refl]. Qed.

Lemma sockets_grow_trans l1 l2 l3 :
  sockets_grow l1 l2 -> sockets_grow l2 l3 -> sockets_grow l1 l3.
Proof.
  intros H12 H23 i a Hi. destruct (H12 i a Hi) as (b & Hb & Hab).
  destruct (H23 i b Hb) as (c & Hc & Hbc). exists c. split; [exact Hc|].
  eapply socket_grows_trans; eassumption.
Qed.

Lemma sockets_grow_alter (f : WebSocket -> WebSocket) i l :
  (forall a, l !! i = Some a -> socket_grows a (f a)) -> sockets_grow l (alter f i l).
Proof.
  intros Hf j a Hj. destruct (decide (i = j)) as [->|Hne].
  - exists (f a). rewrite list_lookup_alter_eq, Hj. split; [reflexivity | apply Hf, Hj].
  - exists a. rewrite list_lookup_alter_ne by done. split; [exact Hj | apply socket_grows_refl].
Qed.

Lemma sockets_grow_app l x : sockets_grow l (l ++ [x]).
Proof.
  intros i a Hi. exists a. split; [|apply socket_grows_refl].
  rewrite lookup_app_l; [exact Hi | eapply lookup_lt_Some, Hi].
Qed.

Lemma socket_grows_close a : socket_grows a (WebSocket_close a).
Proof.
  unfold socket_grows, WebSocket_close. destruct (readyState a) eqn:Ha; cbn; rewrite ?Ha; cbn;
    repeat split; auto; lia.
Qed.

Lemma socket_grows_send frame a : readyState a = OPEN -> socket_grows a (WebSocket_send frame a).
Proof.
  intros Ha. unfold socket_grows, live. cbn. rewrite Ha. cbn. repeat split; try discriminate.
  - lia.
  - apply prefix_app_r. reflexivity.
Qed.

Lemma socket_grows_readyState r a :
  (rank (readyState a) <= rank r)%nat -> socket_grows a (set_readyState r a).
Proof. intros Hr. unfold socket_grows. cbn. repeat split; auto. Qed.

End Growth.

Section EnhancedGrowth.
Context `{JSNumber}.
Import Enhanced.

Lemma grow_same_transport c c' : same_transport c c' -> sockets_grow (sockets c) (sockets c').
Proof. intros [-> _]. apply sockets_grow_refl. Qed.

Lemma sendMessage_grows message c : sockets_grow (sockets c) (sockets (sendMessage message c)).
Proof.
  unfold sendMessage, ws_readyState.
  destruct (ws (metaRef c)) as [i|]; [|apply sockets_grow_refl].
  destruct (sockets c !! i) as [a|] eqn:Ha; cbn; [|apply sockets_grow_refl].
  destruct (readyState a) eqn:Hready; try apply sockets_grow_refl.
  cbn. apply sockets_grow_alter. intros a' Ha'. apply socket_grows_send. congruence.
Qed.

Lemma subscribe_grows channel c w c' w' :
  subscribe channel c w = Ok (c', w') -> sockets_grow (sockets c) (sockets c').
Proof.
  unfold subscribe, bind, Date_now. intros Hrun. apply dispatch_transport in Hrun.
  destruct Hrun as [-> _]. apply sendMessage_grows.
Qed.

Lemma unsubscribe_grows channel c w c' w' :
  unsubscribe channel c w = Ok (c', w') -> sockets_grow (sockets c) (sockets c').
Proof.
  unfold unsubscribe, bind, Date_now. intros Hrun. apply dispatch_transport in Hrun.
  destruct Hrun as [-> _]. apply sendMessage_grows.
Qed.

Lemma connect_grows cfg c : sockets_grow (sockets c) (sockets (connect cfg c)).
Proof.
  unfold connect. destruct (connect_refused cfg c); [apply sockets_grow_refl|].
  unfold schedule. cbn. rewrite clearAllTimers_sockets. apply sockets_grow_app.
Qed.

Lemma disconnect_grows c w c' w' :
  disconnect c w = Ok (c', w') -> sockets_grow (sockets c) (sockets c').
Proof.
  unfold disconnect. intros Hrun. apply dispatch_transport in Hrun.
  destruct Hrun as [-> _]. cbn. rewrite clearAllTimers_metaRef. cbn.
  destruct (ws (metaRef c)); cbn; rewrite clearAllTimers_sockets; cbn;
    [|apply sockets_grow_refl].
  apply sockets_grow_alter. intros a _. apply socket_grows_close.
Qed.

Lemma reconnect_grows c w c' w' :
  reconnect c w = Ok (c', w') -> sockets_grow (sockets c) (sockets c').
Proof.
  unfold reconnect, bind, ret.
  destruct (disconnect c w) as [[c1 w1]|e] eqn:Hdisconnect; [|discriminate].
  intros [= <- <-]. exact (disconnect_grows _ _ _ _ Hdisconnect).
Qed.

Lemma connectionTimeout_fires_grows i c :
  sockets_grow (sockets c) (sockets (connectionTimeout_fires i c)).
Proof.
  unfold connectionTimeout_fires.
  destruct (sockets c !! i) as [s|]; [|apply sockets_grow_refl].
  destruct (ReadyState_eqb _ _); [|apply sockets_grow_refl].
  cbn. apply sockets_grow_alter. intros a _. apply socket_grows_close.
Qed.

Lemma heartbeat_tick_grows c w c' w' :
  heartbeat_tick c w = Ok (c', w') -> sockets_grow (sockets c) (sockets c').
Proof.
  unfold heartbeat_tick, bind, ret, Date_now.
  destruct (ws_readyState c) as [[]|] eqn:Hready; intros [= <- <-]; try apply sockets_grow_refl.
  match goal with |- sockets_grow _ (sockets (sendMessage ?m ?c1)) =>
    apply (sendMessage_grows m c1) end.
Qed.

Lemma run_task_grows cfg task c w c' w' :
  run_task cfg task c w = Ok (c', w') -> sockets_grow (sockets c) (sockets c').
Proof.
  destruct task; cbn [run_task]; unfold bind, ret.
  - intros [= <- <-]. apply connectionTimeout_fires_grows.
  - apply heartbeat_tick_grows.
  - intros Hrun. apply grow_same_transport, (latencyCheck_tick_transport _ _ _ _ _ Hrun).
  - destruct (dispatch _ c w) as [[c1 w1]|e] eqn:Hdispatch; [|discriminate].
    intros [= <- <-]. apply dispatch_transport in Hdispatch. destruct Hdispatch as [<- _].
    apply connect_grows.
  - apply subscribe_grows.
  - intros [= <- <-]. apply connect_grows.
  - intros Hrun. apply grow_same_transport, (flush_transport _ _ _ _ Hrun).
Qed.

Lemma step_grows cfg e c w c' w' :
  step cfg c e w = Ok (c', w') -> sockets_grow (sockets c) (sockets c').
Proof.
  destruct e; cbn [step]; unfold ret.
  - intros [= <- <-]. unfold mount.
    destruct (BATCH_UPDATES cfg); [|apply connect_grows].
    match goal with |- sockets_grow _ (sockets (connect _ ?c1)) =>
      apply (connect_grows cfg c1) end.
  - unfold unmount. intros Hrun. apply disconnect_grows in Hrun.
    destruct (flush_interval c); exact Hrun.
  - intros [= <- <-]. apply connect_grows.
  - apply disconnect_grows.
  - apply reconnect_grows.
  - apply subscribe_grows.
  - apply unsubscribe_grows.
  - intros [= <- <-]. apply sendMessage_grows.
  - destruct (sockets c !! i) as [a|] eqn:Ha; cbn; [|intros [= <- <-]; apply sockets_grow_refl].
    destruct (readyState a) eqn:Hready; try (intros [= <- <-]; apply sockets_grow_refl).
    intros Hrun. apply onopen_transport in Hrun. destruct Hrun as [-> _]. cbn.
    apply sockets_grow_alter. intros a' Ha'. apply socket_grows_readyState.
    assert (a' = a) as -> by congruence. rewrite Hready. cbn. lia.
  - destruct (readyState <$> sockets c !! i) as [[]|];
      try (intros [= <- <-]; apply sockets_grow_refl).
    intros Hrun. apply grow_same_transport, (onmessage_transport _ _ _ _ _ _ Hrun).
  - destruct (readyState <$> sockets c !! i) as [[]|];
      try (intros [= <- <-]; apply sockets_grow_refl);
      intros Hrun; apply onclose_transport in Hrun; destruct Hrun as [-> _]; cbn;
      apply sockets_grow_alter; intros a' Ha'; apply socket_grows_readyState;
      destruct (readyState a'); cbn; lia.
  - destruct (List.find _ (pending c)) as [entry|]; [|intros [= <- <-]; apply sockets_grow_refl].
    intros Hrun. apply run_task_grows in Hrun. destruct (timer_repeats entry); exact Hrun.
  - destruct (sockets c !! i) as [a|] eqn:Ha; cbn; [|intros [= <- <-]; apply sockets_grow_refl].
    destruct (readyState a) eqn:Hready; intros [= <- <-]; try apply sockets_grow_refl.
    cbn. apply sockets_grow_alter. intros a' Ha'. apply socket_grows_readyState.
    assert (a' = a) as -> by congruence. rewrite Hready. cbn. lia.
Qed.

Lemma run_grows cfg events c w c' w' :
  run cfg events c w = Ok (c', w') -> sockets_grow (sockets c) (sockets c').
Proof.
  unfold run. revert c w. induction events as [|e events IH]; intros c w.
  - intros [= <- <-]. apply sockets_grow_refl.
  - cbn [forEach]. unfold bind.
    destruct (step cfg c e w) as [[c1 w1]|err] eqn:Hstep; [|discriminate].
    intros Hrun. eapply sockets_grow_trans; [exact (step_grows _ _ _ _ _ _ Hstep)|].
    exact (IH _ _ Hrun).
Qed.

(** X6. Whatever happens to a mounted hook, a socket it created stays in
    place, its ready state never goes back, the frames sent on it stay
    sent in the same order, and no frame is ever sent on a socket that
    is still connecting or that has started closing. *)
Theorem frames_are_sent_on_open_sockets_only cfg events c w :
  match run cfg events c w with
  | Ok (c', _) => sockets_grow (sockets c) (sockets c')
  | Throw _ => True
  end.
Proof.
  destruct (run cfg events c w) as [[c' w']|e] eqn:Hrun; [|exact I].
  exact (run_grows _ _ _ _ _ _ Hrun).
Qed.

End EnhancedGrowth.

(* ===================================================================== *)
(** * 17. The snapshot and the transport *)
(* ===================================================================== *)

Section SnapshotAndTransport.
Context `{JSNumber}.
Import Enhanced.

(** What each action does to [isConnected] and [connectionAttempts]. *)
Lemma reducer_connection s a w s' w' :
  reducer s a w = Ok (s', w') ->
  isConnected s' = match a with
                   | CONNECTED => true
                   | DISCONNECTED _ | RECONNECTING => false
                   | _ => isConnected s
                   end /\
  connectionAttempts s' = match a with
                          | CONNECTED | DISCONNECTED _ => 0
                          | RECONNECTING => connectionAttempts s + 1
                          | _ => connectionAttempts s
                          end.
Proof.
  destruct a; cbn [reducer]; unfold_monad; try (intros [= <- <-]; split; reflexivity).
  - intros Hm. apply processMessage_frame in Hm. intuition.
  - intros Hm. apply batch_frame in Hm. intuition.
Qed.

Lemma dispatch_inv a c w c' w' :
  dispatch a c w = Ok (c', w') ->
  exists s', reducer (state c) a w = Ok (s', w') /\ c' = set_state s' c.
Proof.
  unfold dispatch, bind, ret. destruct (reducer (state c) a w) as [[s w1]|e]; [|discriminate].
  intros [= <- <-]. eauto.
Qed.

Lemma ws_readyState_transport c c' :
  same_transport c c' -> ws_readyState c' = ws_readyState c.
Proof. unfold ws_readyState. intros [-> ->]. reflexivity. Qed.

(** A socket that is closing stays so when another socket is added, and
    when a socket is changed in a way that keeps closing sockets
    closing. *)
Lemma closing_socket_app l s : closing_socket l -> closing_socket (l ++ [s]).
Proof.
  intros (i & a & Ha & Hclosing). exists i, a. split; [|exact Hclosing].
  apply lookup_app_l_Some, Ha.
Qed.

Lemma closing_socket_alter (f : WebSocket -> WebSocket) i l :
  (forall a, readyState a = CLOSING -> readyState (f a) = CLOSING) ->
  closing_socket l -> closing_socket (alter f i l).
Proof.
  intros Hf (j & a & Ha & Hclosing). destruct (decide (i = j)) as [->|Hne].
  - exists j, (f a). split; [|exact (Hf a Hclosing)].
    rewrite list_lookup_alter_eq, Ha. reflexivity.
  - exists j, a. split; [|exact Hclosing].
    rewrite list_lookup_alter_ne by done. exact Ha.
Qed.

Lemma closing_socket_close i l :
  closing_socket l -> closing_socket (alter WebSocket_close i l).
Proof.
  apply closing_socket_alter. intros a Ha. unfold WebSocket_close. rewrite Ha. exact Ha.
Qed.

Lemma connected_is_backed_quiet c c' :
  same_transport c c' -> isConnected (state c') = isConnected (state c) ->
  connected_is_backed c -> connected_is_backed c'.
Proof.
  unfold connected_is_backed. intros Hsame -> [Hdown|[Hopen|Hclosing]].
  - left. exact Hdown.
  - right. left. rewrite (ws_readyState_transport _ _ Hsame). exact Hopen.
  - right. right. destruct Hsame as [-> _]. exact Hclosing.
Qed.

Lemma dispatch_quiet a c w c' w' :
  match a with CONNECTED | DISCONNECTED _ | RECONNECTING => False | _ => True end ->
  dispatch a c w = Ok (c', w') ->
  connected_is_backed c -> connected_is_backed c'.
Proof.
  intros Ha Hrun. apply connected_is_backed_quiet; [exact (dispatch_transport _ _ _ _ _ Hrun)|].
  apply dispatch_inv in Hrun. destruct Hrun as (s' & Hs' & ->).
  apply reducer_connection in Hs'. destruct Hs' as [Hs' _]. cbn. rewrite Hs'.
  destruct a; done.
Qed.

Lemma dispatch_down a c w c' w' :
  match a with DISCONNECTED _ | RECONNECTING => True | _ => False end ->
  dispatch a c w = Ok (c', w') -> isConnected (state c') = false.
Proof.
  intros Ha Hrun. apply dispatch_inv in Hrun. destruct Hrun as (s' & Hs' & ->).
  apply reducer_connection in Hs'. destruct Hs' as [Hs' _]. cbn. rewrite Hs'.
  destruct a; done.
Qed.

Lemma sendMessage_readyState message c :
  ws_readyState (sendMessage message c) = ws_readyState c.
Proof.
  unfold sendMessage. destruct (ws (metaRef c)) as [i|] eqn:Hws; [|reflexivity].
  destruct (ws_readyState c) as [[]|] eqn:Hready; try exact Hready.
  unfold ws_readyState in *. cbn. rewrite Hws in *. rewrite list_lookup_alter_eq.
  destruct (sockets c !! i); cbn in *; [exact Hready | discriminate].
Qed.

Lemma sendMessage_state message c : state (sendMessage message c) = state c.
Proof. unfold sendMessage. repeat case_match; reflexivity. Qed.

Lemma sendMessage_metaRef message c : metaRef (sendMessage message c) = metaRef c.
Proof. unfold sendMessage. repeat case_match; reflexivity. Qed.

Lemma sendMessage_pending message c : pending (sendMessage message c) = pending c.
Proof. unfold sendMessage. repeat case_match; reflexivity. Qed.

Lemma sendMessage_next_timer message c : next_timer (sendMessage message c) = next_timer c.
Proof. unfold sendMessage. repeat case_match; reflexivity. Qed.

Lemma sendMessage_closing message c :
  closing_socket (sockets c) -> closing_socket (sockets (sendMessage message c)).
Proof.
  unfold sendMessage. intros Hclosing.
  destruct (ws (metaRef c)) as [i|]; [|exact Hclosing].
  destruct (ws_readyState c) as [[]|]; try exact Hclosing.
  cbn. apply closing_socket_alter; [|exact Hclosing]. intros a Ha. exact Ha.
Qed.

Lemma sendMessage_connected message c :
  connected_is_backed c -> connected_is_backed (sendMessage message c).
Proof.
  unfold connected_is_backed. rewrite sendMessage_readyState, sendMessage_state.
  intros [Hdown|[Hopen|Hclosing]]; auto using sendMessage_closing.
Qed.

Lemma connect_state cfg c : state (connect cfg c) = state c.
Proof.
  unfold connect. destruct (connect_refused cfg c); [reflexivity|].
  unfold schedule. cbn. apply clearAllTimers_state.
Qed.

Lemma connect_connected cfg c : connected_is_backed c -> connected_is_backed (connect cfg c).
Proof.
  intros Hinv. unfold connect. destruct (connect_refused cfg c) eqn:Hguard; [exact Hinv|].
  unfold connected_is_backed, schedule. cbn. rewrite clearAllTimers_state, clearAllTimers_sockets.
  destruct Hinv as [Hdown|[Hopen|Hclosing]].
  - left. exact Hdown.
  - unfold connect_refused in Hguard. rewrite Hopen in Hguard. discriminate.
  - right. right. apply closing_socket_app, Hclosing.
Qed.

Lemma disconnect_down c w c' w' :
  disconnect c w = Ok (c', w') -> isConnected (state c') = false.
Proof. unfold disconnect. apply dispatch_down. exact I. Qed.

Lemma flush_connected c w c' w' :
  flush c w = Ok (c', w') -> connected_is_backed c -> connected_is_backed c'.
Proof.
  unfold flush, bind, ret. destruct (0 <? _)%nat; [|intros [= <- <-]; auto].
  destruct (dispatch _ c w) as [[c1 w1]|e] eqn:Hdispatch; [|discriminate].
  intros [= <- <-] Hinv. exact (dispatch_quiet (BATCH_UPDATE _) _ _ _ _ I Hdispatch Hinv).
Qed.

Lemma onmessage_connected cfg frame c w c' w' :
  onmessage cfg frame c w = Ok (c', w') -> connected_is_backed c -> connected_is_backed c'.
Proof.
  unfold onmessage.
  destruct frame as [message|]; [|intros [= <- <-]; auto].
  destruct (type_is "pong" message); [unfold bind, Date_now; apply dispatch_quiet; exact I|].
  destruct (type_is "heartbeat" message); [intros [= <- <-]; auto|].
  destruct (BATCH_UPDATES cfg); [|apply dispatch_quiet; exact I].
  cbv zeta. destruct (BUFFER_SIZE cfg <=? _); [|intros [= <- <-]; auto].
  unfold bind, ret.
  destruct (dispatch _ _ w) as [[c1 w1]|e] eqn:Hdispatch; [|discriminate].
  intros [= <- <-] Hinv. exact (dispatch_quiet (BATCH_UPDATE _) _ _ _ _ I Hdispatch Hinv).
Qed.

Lemma onclose_down cfg code reason c w c' w' :
  onclose cfg code reason c w = Ok (c', w') -> isConnected (state c') = false.
Proof.
  unfold onclose, bind, ret, Math_random.
  destruct (flush _ w) as [[c1 w1]|e] eqn:Hflush; [|discriminate].
  destruct (dispatch _ c1 w1) as [[c2 w2]|e] eqn:Hdispatch; [|discriminate].
  apply (dispatch_down (DISCONNECTED _) _ _ _ _ I) in Hdispatch.
  destruct (isManualClose _ || _); [intros [= <- <-]; exact Hdispatch|].
  destruct (JITTER cfg); intros [= <- <-]; exact Hdispatch.
Qed.

Lemma connectionTimeout_fires_connected i c :
  connected_is_backed c -> connected_is_backed (connectionTimeout_fires i c).
Proof.
  unfold connectionTimeout_fires. intros Hinv.
  destruct (sockets c !! i) as [s|] eqn:Hs; [|exact Hinv].
  destruct (readyState s) eqn:Hready; cbn; try exact Hinv.
  destruct Hinv as [Hdown|[Hopen|Hclosing]]; [left; exact Hdown| |].
  - right. left.
    unfold ws_readyState in *. cbn. destruct (ws (metaRef c)) as [j|]; [|discriminate].
    destruct (decide (i = j)) as [->|Hne].
    + rewrite Hs in Hopen. cbn in Hopen. congruence.
    + rewrite list_lookup_alter_ne by done. exact Hopen.
  - right. right. cbn. apply closing_socket_close, Hclosing.
Qed.

Lemma heartbeat_tick_connected c w c' w' :
  heartbeat_tick c w = Ok (c', w') -> connected_is_backed c -> connected_is_backed c'.
Proof.
  unfold heartbeat_tick, bind, ret, Date_now.
  destruct (ws_readyState c) as [[]|] eqn:Hready; intros [= <- <-]; auto.
  intros Hinv. apply sendMessage_connected. exact Hinv.
Qed.

Lemma latencyCheck_tick_connected cfg c w c' w' :
  latencyCheck_tick cfg c w = Ok (c', w') -> connected_is_backed c -> connected_is_backed c'.
Proof.
  unfold latencyCheck_tick, bind, ret, Date_now.
  destruct (0 <? _); [|intros [= <- <-]; auto].
  destruct (_ <? _); [|intros [= <- <-]; auto].
  apply dispatch_quiet. exact I.
Qed.

Lemma subscribe_connected channel c w c' w' :
  subscribe channel c w = Ok (c', w') -> connected_is_backed c -> connected_is_backed c'.
Proof.
  unfold subscribe, bind, Date_now. intros Hrun Hinv.
  eapply dispatch_quiet; [|exact Hrun|apply sendMessage_connected, Hinv]. exact I.
Qed.

Lemma unsubscribe_connected channel c w c' w' :
  unsubscribe channel c w = Ok (c', w') -> connected_is_backed c -> connected_is_backed c'.
Proof.
  unfold unsubscribe, bind, Date_now. intros Hrun Hinv.
  eapply dispatch_quiet; [|exact Hrun|apply sendMessage_connected, Hinv]. exact I.
Qed.

Lemma run_task_connected cfg task c w c' w' :
  run_task cfg task c w = Ok (c', w') -> connected_is_backed c -> connected_is_backed c'.
Proof.
  destruct task; cbn [run_task]; unfold bind, ret.
  - intros [= <- <-]. apply connectionTimeout_fires_connected.
  - apply heartbeat_tick_connected.
  - apply latencyCheck_tick_connected.
  - destruct (dispatch _ c w) as [[c1 w1]|e] eqn:Hdispatch; [|discriminate].
    intros [= <- <-] _. left. rewrite connect_state.
    exact (dispatch_down RECONNECTING _ _ _ _ I Hdispatch).
  - apply subscribe_connected.
  - intros [= <- <-]. apply connect_connected.
  - apply flush_connected.
Qed.

Lemma onopen_connected cfg i c w c' w' :
  owned c -> readyState <$> sockets c !! i = Some CONNECTING ->
  onopen cfg (set_sockets (alter (set_readyState OPEN) i (sockets c)) c) w = Ok (c', w') ->
  ws_readyState c' = Some OPEN.
Proof.
  intros Howner Hready Hrun. apply onopen_transport in Hrun.
  rewrite (ws_readyState_transport _ _ Hrun). unfold ws_readyState. cbn.
  destruct (sockets c !! i) as [a|] eqn:Ha; [|discriminate]. cbn in Hready.
  rewrite (Howner i a Ha) by (unfold live; injection Hready as ->; reflexivity).
  rewrite list_lookup_alter_eq, Ha. reflexivity.
Qed.

Lemma step_connected cfg e c w c' w' :
  owned c -> step cfg c e w = Ok (c', w') -> connected_is_backed c -> connected_is_backed c'.
Proof.
  intros Howner. destruct e; cbn [step]; unfold ret.
  - intros [= <- <-] Hinv. unfold mount. apply connect_connected.
    destruct (BATCH_UPDATES cfg); exact Hinv.
  - unfold unmount. intros Hrun _. left. exact (disconnect_down _ _ _ _ Hrun).
  - intros [= <- <-]. apply connect_connected.
  - intros Hrun _. left. exact (disconnect_down _ _ _ _ Hrun).
  - unfold reconnect, bind, ret.
    destruct (disconnect c w) as [[c1 w1]|err] eqn:Hdisconnect; [|discriminate].
    intros [= <- <-] _. left. exact (disconnect_down _ _ _ _ Hdisconnect).
  - apply subscribe_connected.
  - apply unsubscribe_connected.
  - intros [= <- <-]. apply sendMessage_connected.
  - destruct (readyState <$> sockets c !! i) as [[]|] eqn:Hready;
      try solve [intros [= <- <-]; auto].
    intros Hrun _. right. left. exact (onopen_connected _ _ _ _ _ _ Howner Hready Hrun).
  - destruct (readyState <$> sockets c !! i) as [[]|];
      try solve [intros [= <- <-]; auto].
    apply onmessage_connected.
  - destruct (readyState <$> sockets c !! i) as [[]|];
      try solve [intros [= <- <-]; auto];
      intros Hrun _; left; exact (onclose_down _ _ _ _ _ _ _ Hrun).
  - destruct (List.find _ (pending c)) as [entry|]; [|intros [= <- <-]; auto].
    intros Hrun Hinv. apply (run_task_connected _ _ _ _ _ _ Hrun).
    destruct (timer_repeats entry); exact Hinv.
  - destruct (sockets c !! i) as [a|] eqn:Ha; cbn; [|intros [= <- <-]; auto].
    destruct (readyState a); intros [= <- <-]; auto.
    intros _. right. right. exists i, (set_readyState CLOSING a). cbn.
    rewrite list_lookup_alter_eq, Ha. split; reflexivity.
Qed.

Lemma run_connected cfg events c w c' w' :
  owned c -> connected_is_backed c -> run cfg events c w = Ok (c', w') ->
  owned c' /\ connected_is_backed c'.
Proof.
  unfold run. revert c w. induction events as [|e events IH]; intros c w Howner Hinv.
  - intros [= <- <-]. auto.
  - cbn [forEach]. unfold bind.
    destruct (step cfg c e w) as [[c1 w1]|err] eqn:Hstep; [|discriminate].
    apply IH.
    + exact (step_owned _ _ _ _ _ _ Howner Hstep).
    + exact (step_connected _ _ _ _ _ _ Howner Hstep Hinv).
Qed.

(** A snapshot that says [isConnected] rests on an open or a closing
    socket. *)
Lemma reachable_connected_is_backed cfg events w :
  match run cfg events initialClient w with
  | Ok (c, _) => connected_is_backed c
  | Throw _ => True
  end.
Proof.
  destruct (run cfg events initialClient w) as [[c w']|e] eqn:Hrun; [|exact I].
  assert (Hstart : owned initialClient) by apply sole_owner_nil.
  assert (Hdown : connected_is_backed initialClient) by (left; reflexivity).
  exact (proj2 (run_connected _ _ _ _ _ _ Hstart Hdown Hrun)).
Qed.

End SnapshotAndTransport.

(** X7. Whatever has happened to a hook since it was created, a
    snapshot that says [isConnected] rests on a socket that has opened
    and has not been reported closed: either [metaRef.ws] is an open
    socket, or some socket of the hook is closing and its close event is
    still to come.  The second case cannot be left out: once the peer
    has started to close an open connection, the snapshot still says
    [isConnected] while [metaRef.ws] is closing, and after a [connect()]
    in that window it says so while [metaRef.ws] is only connecting. *)
Theorem connected_snapshot_rests_on_an_open_or_closing_socket :
  (forall `{JSNumber} cfg events w,
      match Enhanced.run cfg events Enhanced.initialClient w with
      | Ok (c, _) =>
          Enhanced.isConnected (Enhanced.state c) = false \/
          Enhanced.ws_readyState c = Some OPEN \/
          closing_socket (Enhanced.sockets c)
      | Throw _ => True
      end) /\
  match Enhanced.run (sample_config false false)
          [Enhanced.Mount; Enhanced.SocketOpen 0; Enhanced.SocketClosing 0]
          Enhanced.initialClient sample_world with
  | Ok (c, w) =>
      Enhanced.isConnected (Enhanced.state c) = true /\
      Enhanced.ws_readyState c = Some CLOSING /\
      match Enhanced.step (sample_config false false) c Enhanced.CallConnect w with
      | Ok (c', _) =>
          Enhanced.isConnected (Enhanced.state c') = true /\
          Enhanced.ws_readyState c' = Some CONNECTING
      | Throw _ => False
      end
  | Throw _ => False
  end.
Proof.
  split.
  - intros N cfg events w. exact (reachable_connected_is_backed cfg events w).
  - vm_compute. repeat split.
Qed.

(* ===================================================================== *)
(** * 18. The book-keeping of the timers *)
(* ===================================================================== *)

Section TimerBookkeeping.
Context `{JSNumber}.
Import Enhanced.

Lemma filter_all {A} (P : A -> Prop) `{!forall x, Decision (P x)} (l : list A) :
  (forall x, x ∈ l -> P x) -> filter P l = l.
Proof.
  induction l as [|x l IH]; intros Hall; [reflexivity|].
  rewrite filter_cons, decide_True by (apply Hall; left).
  f_equal. apply IH. intros y Hy. apply Hall. right. exact Hy.
Qed.

Lemma filter_ext_in {A} (P Q : A -> Prop) `{!forall x, Decision (P x)}
  `{!forall x, Decision (Q x)} (l : list A) :
  (forall x, x ∈ l -> P x <-> Q x) -> filter P l = filter Q l.
Proof.
  induction l as [|x l IH]; intros Hiff; [reflexivity|].
  rewrite !filter_cons.
  assert (Hx : P x <-> Q x) by (apply Hiff; left).
  assert (Hl : filter P l = filter Q l)
    by (apply IH; intros y Hy; apply Hiff; right; exact Hy).
  destruct (decide (P x)), (decide (Q x)); rewrite ?Hl; tauto.
Qed.

Lemma clear_if_set_pending o c :
  pending (clear_if_set o c) = filter (fun e => Some (timer_id e) ≠ o) (pending c).
Proof.
  destruct o as [id|]; cbn.
  - apply list_filter_iff. intros e. split; congruence.
  - symmetry. apply filter_all. intros e _. discriminate.
Qed.

Lemma clear_if_set_metaRef o c : metaRef (clear_if_set o c) = metaRef c.
Proof. destruct o; reflexivity. Qed.

Lemma clear_if_set_next_timer o c : next_timer (clear_if_set o c) = next_timer c.
Proof. destruct o; reflexivity. Qed.

(** [clearAllTimers] removes exactly the timers whose handle is in a slot. *)
Lemma clearAllTimers_pending c :
  pending (clearAllTimers c)
  = filter (fun e => Some (timer_id e) ∉ handles (timers (metaRef c))) (pending c).
Proof.
  unfold clearAllTimers. cbn. rewrite !clear_if_set_pending, !list_filter_filter.
  apply list_filter_iff. intros e. unfold handles. cbn beta.
  rewrite !not_elem_of_cons. pose proof (not_elem_of_nil (Some (timer_id e))). tauto.
Qed.

Lemma clearAllTimers_next_timer c : next_timer (clearAllTimers c) = next_timer c.
Proof. unfold clearAllTimers. cbn. rewrite !clear_if_set_next_timer. reflexivity. Qed.

Lemma clearAllTimers_timers c : timers (metaRef (clearAllTimers c)) = no_timers.
Proof. rewrite clearAllTimers_metaRef. reflexivity. Qed.

Lemma tracked_inv_nil n : tracked_inv [] n no_timers.
Proof.
  refine (conj _ (conj _ (conj _ _)));
    try (intros e He; apply elem_of_nil in He; contradiction).
  intros id Hid. unfold handles, no_timers in Hid. cbn in Hid.
  rewrite !elem_of_cons in Hid. rewrite elem_of_nil in Hid. intuition discriminate.
Qed.

Lemma tracked_inv_filter (P : TimerEntry -> Prop) `{!forall x, Decision (P x)} p n t :
  tracked_inv p n t -> tracked_inv (filter P p) n t.
Proof.
  intros (Hfresh & Hslots & Hkept & Hrep).
  refine (conj _ (conj Hslots (conj _ _))); intros e He; apply list_elem_of_filter in He;
    destruct He as [_ He];
    first [exact (Hfresh e He) | exact (Hkept e He) | exact (Hrep e He)].
Qed.

(** Under the book-keeping, the handle of a pending timer is in a slot
    exactly when the timer is of a tracked kind. *)
Lemma tracked_iff_handle p n t e :
  tracked_inv p n t -> e ∈ p ->
  Some (timer_id e) ∉ handles t <-> tracked (timer_task e) = false.
Proof.
  intros (_ & _ & Hkept & _) He. specialize (Hkept e He).
  destruct (tracked (timer_task e)) eqn:Htracked; [|tauto].
  split; [|discriminate]. intros Hout. exfalso. apply Hout.
  unfold handles. destruct (timer_task e); cbn in *; try discriminate;
    rewrite <- Hkept; set_solver.
Qed.

(** After [clearAllTimers] no timer of a tracked kind is pending. *)
Lemma tracked_inv_cleared p n t :
  tracked_inv p n t ->
  tracked_inv (filter (fun e => Some (timer_id e) ∉ handles t) p) n no_timers /\
  forall e, e ∈ filter (fun e => Some (timer_id e) ∉ handles t) p ->
            tracked (timer_task e) = false.
Proof.
  intros Hinv.
  assert (Hnone : forall e, e ∈ filter (fun e => Some (timer_id e) ∉ handles t) p ->
                            tracked (timer_task e) = false).
  { intros e He. apply list_elem_of_filter in He. destruct He as [Hout He].
    exact (proj1 (tracked_iff_handle _ _ _ _ Hinv He) Hout). }
  split; [|exact Hnone].
  destruct Hinv as (Hfresh & Hslots & Hkept & Hrep). refine (conj _ (conj _ (conj _ _))).
  - intros e He. apply list_elem_of_filter in He. destruct He as [_ He]. exact (Hfresh e He).
  - intros id Hid. exfalso. unfold handles, no_timers in Hid. cbn in Hid.
    rewrite !elem_of_cons in Hid. rewrite elem_of_nil in Hid. intuition discriminate.
  - intros e He. rewrite (Hnone e He). unfold handles, no_timers. cbn.
    rewrite !not_elem_of_cons. repeat split; try discriminate. apply not_elem_of_nil.
  - intros e He. apply list_elem_of_filter in He. destruct He as [_ He]. exact (Hrep e He).
Qed.

Lemma clearAllTimers_tracked c :
  timers_tracked c ->
  timers_tracked (clearAllTimers c) /\
  forall e, e ∈ pending (clearAllTimers c) -> tracked (timer_task e) = false.
Proof.
  unfold timers_tracked.
  rewrite clearAllTimers_pending, clearAllTimers_next_timer, clearAllTimers_timers.
  apply tracked_inv_cleared.
Qed.

(** Queueing a timer whose handle is thrown away. *)
Lemma tracked_inv_untracked task delay p n t :
  tracked task = false -> tracked_inv p n t ->
  tracked_inv (p ++ [{| timer_id := n; timer_task := task; timer_delay := delay;
                        timer_repeats := is_interval task |}]) (S n) t.
Proof.
  intros Htask (Hfresh & Hslots & Hkept & Hrep). refine (conj _ (conj _ (conj _ _))).
  - intros e He. apply elem_of_app in He. destruct He as [He|He].
    + specialize (Hfresh e He). lia.
    + apply list_elem_of_singleton in He. subst e. cbn. lia.
  - intros id Hid. specialize (Hslots id Hid). lia.
  - intros e He. apply elem_of_app in He. destruct He as [He|He]; [exact (Hkept e He)|].
    apply list_elem_of_singleton in He. subst e. cbn. rewrite Htask.
    intros Hin. specialize (Hslots n Hin). lia.
  - intros e He. apply elem_of_app in He. destruct He as [He|He]; [exact (Hrep e He)|].
    apply list_elem_of_singleton in He. subst e. reflexivity.
Qed.

(** Queueing a timer and storing its handle in its slot, which was empty. *)
Lemma tracked_inv_tracked task delay p n t t' :
  tracked task = true -> slot_of task t = None ->
  slot_of task t' = Some n ->
  (forall other, slot_of other t ≠ None -> slot_of other t' = slot_of other t) ->
  (forall id, Some id ∈ handles t' -> id = n \/ Some id ∈ handles t) ->
  tracked_inv p n t ->
  tracked_inv (p ++ [{| timer_id := n; timer_task := task; timer_delay := delay;
                        timer_repeats := is_interval task |}]) (S n) t'.
Proof.
  intros Htask Hempty Hset Hothers Hhandles (Hfresh & Hslots & Hkept & Hrep).
  refine (conj _ (conj _ (conj _ _))).
  - intros e He. apply elem_of_app in He. destruct He as [He|He].
    + specialize (Hfresh e He). lia.
    + apply list_elem_of_singleton in He. subst e. cbn. lia.
  - intros id Hid. destruct (Hhandles id Hid) as [->|Hold]; [lia|].
    specialize (Hslots id Hold). lia.
  - intros e He. apply elem_of_app in He. destruct He as [He|He].
    + specialize (Hkept e He). specialize (Hfresh e He).
      destruct (tracked (timer_task e)).
      * rewrite Hothers; [exact Hkept | congruence].
      * intros Hin. destruct (Hhandles _ Hin) as [Heq|Hold]; [lia|contradiction].
    + apply list_elem_of_singleton in He. subst e. cbn. rewrite Htask. exact Hset.
  - intros e He. apply elem_of_app in He. destruct He as [He|He]; [exact (Hrep e He)|].
    apply list_elem_of_singleton in He. subst e. reflexivity.
Qed.

Lemma timers_tracked_same c c' : same_timers c c' -> timers_tracked c -> timers_tracked c'.
Proof. unfold timers_tracked. intros (-> & -> & ->). auto. Qed.

Lemma same_timers_refl c : same_timers c c.
Proof. repeat split. Qed.

Lemma same_timers_trans c1 c2 c3 : same_timers c1 c2 -> same_timers c2 c3 -> same_timers c1 c3.
Proof. unfold same_timers. intros (-> & -> & ->) (-> & -> & ->). auto. Qed.

Lemma dispatch_same_timers a c w c' w' : dispatch a c w = Ok (c', w') -> same_timers c c'.
Proof. intros Hrun. apply dispatch_inv in Hrun. destruct Hrun as (s' & _ & ->). repeat split. Qed.

Lemma sendMessage_same_timers message c : same_timers c (sendMessage message c).
Proof.
  unfold same_timers.
  rewrite sendMessage_pending, sendMessage_next_timer, sendMessage_metaRef. auto.
Qed.

Lemma flush_same_timers c w c' w' : flush c w = Ok (c', w') -> same_timers c c'.
Proof.
  unfold flush, bind, ret. destruct (0 <? _)%nat; [|intros [= <- <-]; apply same_timers_refl].
  destruct (dispatch _ c w) as [[c1 w1]|e] eqn:Hdispatch; [|discriminate].
  intros [= <- <-]. apply dispatch_same_timers in Hdispatch.
  destruct Hdispatch as (Hp & Hn & Ht). repeat split; cbn; assumption.
Qed.

Lemma subscribe_same_timers channel c w c' w' :
  subscribe channel c w = Ok (c', w') -> same_timers c c'.
Proof.
  unfold subscribe, bind, Date_now. intros Hrun. apply dispatch_same_timers in Hrun.
  eapply same_timers_trans; [apply sendMessage_same_timers | exact Hrun].
Qed.

Lemma unsubscribe_same_timers channel c w c' w' :
  unsubscribe channel c w = Ok (c', w') -> same_timers c c'.
Proof.
  unfold unsubscribe, bind, Date_now. intros Hrun. apply dispatch_same_timers in Hrun.
  eapply same_timers_trans; [apply sendMessage_same_timers | exact Hrun].
Qed.

Lemma onmessage_same_timers cfg frame c w c' w' :
  onmessage cfg frame c w = Ok (c', w') -> same_timers c c'.
Proof.
  unfold onmessage.
  destruct frame as [message|]; [|intros [= <- <-]; apply same_timers_refl].
  destruct (type_is "pong" message); [unfold bind, Date_now; apply dispatch_same_timers|].
  destruct (type_is "heartbeat" message); [intros [= <- <-]; apply same_timers_refl|].
  destruct (BATCH_UPDATES cfg); [|apply dispatch_same_timers].
  cbv zeta. destruct (BUFFER_SIZE cfg <=? _); [|intros [= <- <-]; repeat split].
  unfold bind, ret.
  destruct (dispatch _ _ w) as [[c1 w1]|e] eqn:Hdispatch; [|discriminate].
  intros [= <- <-]. apply dispatch_same_timers in Hdispatch.
  destruct Hdispatch as (Hp & Hn & Ht). repeat split; cbn in *; assumption.
Qed.

Lemma heartbeat_tick_same_timers c w c' w' :
  heartbeat_tick c w = Ok (c', w') -> same_timers c c'.
Proof.
  unfold heartbeat_tick, bind, ret, Date_now.
  destruct (ws_readyState c) as [[]|]; intros [= <- <-]; try apply same_timers_refl.
  eapply same_timers_trans; [|apply sendMessage_same_timers]. repeat split.
Qed.

Lemma latencyCheck_tick_same_timers cfg c w c' w' :
  latencyCheck_tick cfg c w = Ok (c', w') -> same_timers c c'.
Proof.
  unfold latencyCheck_tick, bind, ret, Date_now.
  destruct (0 <? _); [|intros [= <- <-]; apply same_timers_refl].
  destruct (_ <? _); [|intros [= <- <-]; apply same_timers_refl].
  apply dispatch_same_timers.
Qed.

Lemma connectionTimeout_fires_same_timers i c : same_timers c (connectionTimeout_fires i c).
Proof. unfold connectionTimeout_fires. repeat case_match; repeat split. Qed.

Lemma connect_tracked cfg c : timers_tracked c -> timers_tracked (connect cfg c).
Proof.
  intros Hinv. unfold connect. destruct (connect_refused cfg c); [exact Hinv|].
  apply clearAllTimers_tracked in Hinv. destruct Hinv as [Hinv _].
  unfold timers_tracked in *. unfold schedule. cbn.
  rewrite clearAllTimers_timers in *. cbn.
  apply (tracked_inv_tracked (ConnectionTimeout _) _ _ _ no_timers); try reflexivity;
    try exact Hinv.
  - intros other. destruct other; cbn; congruence.
  - intros id. unfold handles. cbn. rewrite !elem_of_cons, elem_of_nil.
    intros [?|[?|[?|[?|[]]]]]; try discriminate. left. congruence.
Qed.

Lemma autoSubscribeToChannels_tracked cfg c :
  timers_tracked c -> timers_tracked (autoSubscribeToChannels cfg c).
Proof.
  unfold autoSubscribeToChannels, essentialChannels, timers_tracked.
  destruct (negb (autoSubscribe cfg)); [auto|]. intros Hinv. cbn.
  repeat apply (tracked_inv_untracked (SubscribeLater _)); try reflexivity. exact Hinv.
Qed.

Lemma onopen_tracked cfg c w c' w' :
  onopen cfg c w = Ok (c', w') -> timers_tracked c -> timers_tracked c'.
Proof.
  unfold onopen, bind, ret.
  destruct (dispatch _ _ w) as [[c1 w1]|e] eqn:Hdispatch; [|discriminate].
  intros [= <- <-] Hinv. apply autoSubscribeToChannels_tracked.
  apply dispatch_same_timers in Hdispatch. destruct Hdispatch as (Hp & Hn & Ht).
  cbn in Hp, Hn, Ht. rewrite clearAllTimers_timers in Ht.
  apply clearAllTimers_tracked in Hinv. destruct Hinv as [Hinv _].
  unfold timers_tracked in *. rewrite clearAllTimers_timers in Hinv.
  unfold startLatencyMonitoring, startHeartbeat, schedule. cbn.
  rewrite Hp, Hn, Ht. cbn.
  apply (tracked_inv_tracked LatencyCheckTick _ _ _
           {| heartbeat := Some (next_timer (clearAllTimers c)); reconnect_timer := None;
              connection := None; latencyCheck := None |}); try reflexivity;
    [| | apply (tracked_inv_tracked HeartbeatTick _ _ _ no_timers); try reflexivity;
         [| |exact Hinv]].
  - intros other. destruct other; cbn; congruence.
  - intros id. unfold handles. cbn. rewrite !elem_of_cons, elem_of_nil.
    intros [?|[?|[?|[?|[]]]]]; try discriminate; [right; left; assumption|left; congruence].
  - intros other. destruct other; cbn; congruence.
  - intros id. unfold handles. cbn. rewrite !elem_of_cons, elem_of_nil.
    intros [?|[?|[?|[?|[]]]]]; try discriminate. left. congruence.
Qed.


Lemma onclose_tracked cfg code reason c w c' w' :
  onclose cfg code reason c w = Ok (c', w') -> timers_tracked c -> timers_tracked c'.
Proof.
  unfold onclose, bind, ret, Math_random.
  destruct (flush _ w) as [[c1 w1]|e] eqn:Hflush; [|discriminate].
  destruct (dispatch _ c1 w1) as [[c2 w2]|e] eqn:Hdispatch; [|discriminate].
  intros Hrun Hinv.
  apply flush_same_timers in Hflush. apply dispatch_same_timers in Hdispatch.
  pose proof (same_timers_trans _ _ _ Hflush Hdispatch) as (Hp & Hn & Ht).
  rewrite clearAllTimers_timers in Ht.
  apply clearAllTimers_tracked in Hinv. destruct Hinv as [Hinv _].
  unfold timers_tracked in *. rewrite clearAllTimers_timers in Hinv.
  rewrite <- Hp, <- Hn in Hinv.
  destruct (isManualClose _ || _); [injection Hrun as <- <-; rewrite Ht; exact Hinv|].
  destruct (JITTER cfg); injection Hrun as <- <-; unfold schedule; cbn; rewrite Ht; cbn;
    (apply (tracked_inv_tracked ReconnectTimer _ _ _ no_timers); try reflexivity;
     [ intros other; destruct other; cbn; congruence
     | intros id; unfold handles; cbn; rewrite !elem_of_cons, elem_of_nil;
       intros [?|[?|[?|[?|[]]]]]; try discriminate; left; congruence
     | exact Hinv ]).
Qed.

(** [disconnect] leaves pending exactly the timers of an untracked kind. *)
Lemma disconnect_pending c w c' w' :
  disconnect c w = Ok (c', w') -> timers_tracked c ->
  pending c' = filter (fun e => tracked (timer_task e) = false) (pending c) /\
  next_timer c' = next_timer c /\ timers (metaRef c') = no_timers.
Proof.
  unfold disconnect. intros Hrun Hinv. apply dispatch_same_timers in Hrun.
  destruct Hrun as (-> & -> & ->). cbn. rewrite clearAllTimers_metaRef. cbn.
  assert (Hsockets : forall l c0, pending (set_sockets l c0) = pending c0) by reflexivity.
  assert (Hpending :
    pending (match ws (metaRef c) with
             | Some i => set_sockets (alter WebSocket_close i
                           (sockets (clearAllTimers (set_metaRef (set_ref_connectionAttempts 0
                              (set_isManualClose true (metaRef c))) c))))
                           (clearAllTimers (set_metaRef (set_ref_connectionAttempts 0
                              (set_isManualClose true (metaRef c))) c))
             | None => clearAllTimers (set_metaRef (set_ref_connectionAttempts 0
                              (set_isManualClose true (metaRef c))) c)
             end)
    = filter (fun e => tracked (timer_task e) = false) (pending c)).
  { destruct (ws (metaRef c)); cbn; rewrite clearAllTimers_pending; cbn;
      apply filter_ext_in; intros e He; exact (tracked_iff_handle _ _ _ _ Hinv He). }
  split; [exact Hpending|].
  destruct (ws (metaRef c)); cbn; rewrite clearAllTimers_next_timer, clearAllTimers_timers;
    split; reflexivity.
Qed.

Lemma disconnect_tracked c w c' w' :
  disconnect c w = Ok (c', w') -> timers_tracked c -> timers_tracked c'.
Proof.
  intros Hrun Hinv. destruct (disconnect_pending _ _ _ _ Hrun Hinv) as (Hp & Hn & Ht).
  unfold timers_tracked. rewrite Hp, Hn, Ht.
  assert (Hcleared := tracked_inv_cleared _ _ _ Hinv). destruct Hcleared as [Hcleared _].
  erewrite filter_ext_in; [exact Hcleared|].
  intros e He. symmetry. exact (tracked_iff_handle _ _ _ _ Hinv He).
Qed.

Lemma clearTimeout_tracked id c : timers_tracked c -> timers_tracked (clearTimeout id c).
Proof. unfold timers_tracked, clearTimeout. cbn. apply tracked_inv_filter. Qed.

Lemma run_task_tracked cfg task c w c' w' :
  run_task cfg task c w = Ok (c', w') -> timers_tracked c -> timers_tracked c'.
Proof.
  destruct task; cbn [run_task]; unfold bind, ret.
  - intros [= <- <-]. apply timers_tracked_same, connectionTimeout_fires_same_timers.
  - intros Hrun. apply timers_tracked_same, (heartbeat_tick_same_timers _ _ _ _ Hrun).
  - intros Hrun. apply timers_tracked_same, (latencyCheck_tick_same_timers _ _ _ _ _ Hrun).
  - destruct (dispatch _ c w) as [[c1 w1]|e] eqn:Hdispatch; [|discriminate].
    intros [= <- <-] Hinv. apply connect_tracked.
    exact (timers_tracked_same _ _ (dispatch_same_timers _ _ _ _ _ Hdispatch) Hinv).
  - intros Hrun. apply timers_tracked_same, (subscribe_same_timers _ _ _ _ _ Hrun).
  - intros [= <- <-]. apply connect_tracked.
  - intros Hrun. apply timers_tracked_same, (flush_same_timers _ _ _ _ Hrun).
Qed.

Lemma step_tracked cfg e c w c' w' :
  step cfg c e w = Ok (c', w') -> timers_tracked c -> timers_tracked c'.
Proof.
  destruct e; cbn [step]; unfold ret.
  - intros [= <- <-] Hinv. unfold mount. apply connect_tracked.
    destruct (BATCH_UPDATES cfg); [|exact Hinv].
    unfold timers_tracked, schedule. cbn.
    apply (tracked_inv_untracked FlushTick); [reflexivity | exact Hinv].
  - unfold unmount. intros Hrun Hinv. apply (disconnect_tracked _ _ _ _ Hrun).
    destruct (flush_interval c); [apply clearTimeout_tracked|]; exact Hinv.
  - intros [= <- <-]. apply connect_tracked.
  - apply disconnect_tracked.
  - unfold reconnect, bind, ret.
    destruct (disconnect c w) as [[c1 w1]|err] eqn:Hdisconnect; [|discriminate].
    intros [= <- <-] Hinv. apply (disconnect_tracked _ _ _ _ Hdisconnect) in Hinv.
    unfold timers_tracked, schedule. cbn.
    apply (tracked_inv_untracked ConnectLater); [reflexivity | exact Hinv].
  - intros Hrun. apply timers_tracked_same, (subscribe_same_timers _ _ _ _ _ Hrun).
  - intros Hrun. apply timers_tracked_same, (unsubscribe_same_timers _ _ _ _ _ Hrun).
  - intros [= <- <-]. apply timers_tracked_same, sendMessage_same_timers.
  - destruct (readyState <$> sockets c !! i) as [[]|];
      try solve [intros [= <- <-]; auto].
    intros Hrun Hinv. apply (onopen_tracked _ _ _ _ _ Hrun). exact Hinv.
  - destruct (readyState <$> sockets c !! i) as [[]|];
      try solve [intros [= <- <-]; auto].
    intros Hrun. apply timers_tracked_same, (onmessage_same_timers _ _ _ _ _ _ Hrun).
  - destruct (readyState <$> sockets c !! i) as [[]|];
      try solve [intros [= <- <-]; auto];
      intros Hrun Hinv; apply (onclose_tracked _ _ _ _ _ _ _ Hrun); exact Hinv.
  - destruct (List.find _ (pending c)) as [entry|]; [|intros [= <- <-]; auto].
    intros Hrun Hinv. apply (run_task_tracked _ _ _ _ _ _ Hrun).
    destruct (timer_repeats entry); [|apply clearTimeout_tracked]; exact Hinv.
  - destruct (readyState <$> sockets c !! i) as [[]|]; intros [= <- <-] Hinv; exact Hinv.
Qed.

Lemma run_tracked cfg events c w c' w' :
  run cfg events c w = Ok (c', w') -> timers_tracked c -> timers_tracked c'.
Proof.
  unfold run. revert c w. induction events as [|e events IH]; intros c w.
  - intros [= <- <-]. auto.
  - cbn [forEach]. unfold bind.
    destruct (step cfg c e w) as [[c1 w1]|err] eqn:Hstep; [|discriminate].
    intros Hrun Hinv. apply (IH _ _ Hrun). exact (step_tracked _ _ _ _ _ _ Hstep Hinv).
Qed.

(** X8. In a hook that has been through any sequence of events since it
    was created, [disconnect] cancels the connection time-out, the
    heartbeat, the latency check and the pending reconnection, and
    nothing else: the delayed auto-subscriptions, the [connect] that
    [reconnect] has queued and the flush interval stay pending, in
    their order. *)
Theorem disconnect_cancels_the_tracked_timers_only cfg events w :
  match run cfg events initialClient w with
  | Ok (c, w') =>
      match disconnect c w' with
      | Ok (c', _) =>
          pending c' = filter (fun e => tracked (timer_task e) = false) (pending c)
      | Throw _ => False
      end
  | Throw _ => True
  end.
Proof.
  destruct (run cfg events initialClient w) as [[c w']|e] eqn:Hrun; [|exact I].
  assert (Hinv : timers_tracked c).
  { apply (run_tracked _ _ _ _ _ _ Hrun). apply tracked_inv_nil. }
  destruct (disconnect c w') as [[c' w'']|e] eqn:Hdisconnect.
  - exact (proj1 (disconnect_pending _ _ _ _ Hdisconnect Hinv)).
  - unfold disconnect, dispatch in Hdisconnect. cbn in Hdisconnect. discriminate.
Qed.

End TimerBookkeeping.

(* ===================================================================== *)
(** * 19. The attempt counter of the snapshot *)
(* ===================================================================== *)

Section AttemptCounter.
Context `{JSNumber}.
Import Enhanced.

Lemma attempts_inv_zero c : connectionAttempts (state c) = 0 -> attempts_inv c.
Proof. intros Hzero. split; [lia | auto]. Qed.

Lemma attempts_inv_keep c c' :
  connectionAttempts (state c') = connectionAttempts (state c) ->
  (forall e, e ∈ pending c' -> timer_task e = ReconnectTimer -> e ∈ pending c) ->
  attempts_inv c -> attempts_inv c'.
Proof.
  intros Hsame Hsub [Hrange Hzero]. split; rewrite Hsame; [exact Hrange|].
  intros e He Htask. exact (Hzero e (Hsub e He Htask) Htask).
Qed.

Lemma attempts_inv_same c c' :
  connectionAttempts (state c') = connectionAttempts (state c) ->
  same_timers c c' -> attempts_inv c -> attempts_inv c'.
Proof.
  intros Hsame (Hp & _ & _). apply attempts_inv_keep; [exact Hsame|].
  rewrite Hp. auto.
Qed.

Lemma dispatch_attempts a c w c' w' :
  dispatch a c w = Ok (c', w') ->
  connectionAttempts (state c')
  = match a with
    | CONNECTED | DISCONNECTED _ => 0
    | RECONNECTING => connectionAttempts (state c) + 1
    | _ => connectionAttempts (state c)
    end.
Proof.
  intros Hrun. apply dispatch_inv in Hrun. destruct Hrun as (s' & Hs' & ->).
  apply reducer_connection in Hs'. destruct Hs' as [_ Hs']. exact Hs'.
Qed.

Lemma disconnect_attempts c w c' w' :
  disconnect c w = Ok (c', w') -> connectionAttempts (state c') = 0.
Proof. unfold disconnect. intros Hrun. exact (dispatch_attempts _ _ _ _ _ Hrun). Qed.

Lemma onclose_attempts cfg code reason c w c' w' :
  onclose cfg code reason c w = Ok (c', w') -> connectionAttempts (state c') = 0.
Proof.
  unfold onclose, bind, ret, Math_random.
  destruct (flush _ w) as [[c1 w1]|e] eqn:Hflush; [|discriminate].
  destruct (dispatch _ c1 w1) as [[c2 w2]|e] eqn:Hdispatch; [|discriminate].
  apply dispatch_attempts in Hdispatch.
  destruct (isManualClose _ || _); [intros [= <- <-]; exact Hdispatch|].
  destruct (JITTER cfg); intros [= <- <-]; exact Hdispatch.
Qed.

Lemma onopen_attempts cfg c w c' w' :
  onopen cfg c w = Ok (c', w') -> connectionAttempts (state c') = 0.
Proof.
  unfold onopen, bind, ret.
  destruct (dispatch _ _ w) as [[c1 w1]|e] eqn:Hdispatch; [|discriminate].
  intros [= <- <-]. apply dispatch_attempts in Hdispatch.
  unfold autoSubscribeToChannels, essentialChannels.
  destruct (negb (autoSubscribe cfg)); exact Hdispatch.
Qed.

Lemma flush_attempts c w c' w' :
  flush c w = Ok (c', w') -> connectionAttempts (state c') = connectionAttempts (state c).
Proof.
  unfold flush, bind, ret. destruct (0 <? _)%nat; [|intros [= <- <-]; reflexivity].
  destruct (dispatch _ c w) as [[c1 w1]|e] eqn:Hdispatch; [|discriminate].
  intros [= <- <-]. exact (dispatch_attempts _ _ _ _ _ Hdispatch).
Qed.

Lemma onmessage_attempts cfg frame c w c' w' :
  onmessage cfg frame c w = Ok (c', w') ->
  connectionAttempts (state c') = connectionAttempts (state c).
Proof.
  unfold onmessage.
  destruct frame as [message|]; [|intros [= <- <-]; reflexivity].
  destruct (type_is "pong" message);
    [unfold bind, Date_now; intros Hrun; exact (dispatch_attempts _ _ _ _ _ Hrun)|].
  destruct (type_is "heartbeat" message); [intros [= <- <-]; reflexivity|].
  destruct (BATCH_UPDATES cfg); [|intros Hrun; exact (dispatch_attempts _ _ _ _ _ Hrun)].
  cbv zeta. destruct (BUFFER_SIZE cfg <=? _); [|intros [= <- <-]; reflexivity].
  unfold bind, ret.
  destruct (dispatch _ _ w) as [[c1 w1]|e] eqn:Hdispatch; [|discriminate].
  intros [= <- <-]. exact (dispatch_attempts _ _ _ _ _ Hdispatch).
Qed.

Lemma subscribe_attempts channel c w c' w' :
  subscribe channel c w = Ok (c', w') ->
  connectionAttempts (state c') = connectionAttempts (state c).
Proof.
  unfold subscribe, bind, Date_now. intros Hrun. apply dispatch_attempts in Hrun.
  rewrite Hrun, sendMessage_state. reflexivity.
Qed.

Lemma unsubscribe_attempts channel c w c' w' :
  unsubscribe channel c w = Ok (c', w') ->
  connectionAttempts (state c') = connectionAttempts (state c).
Proof.
  unfold unsubscribe, bind, Date_now. intros Hrun. apply dispatch_attempts in Hrun.
  rewrite Hrun, sendMessage_state. reflexivity.
Qed.

Lemma heartbeat_tick_attempts c w c' w' :
  heartbeat_tick c w = Ok (c', w') ->
  connectionAttempts (state c') = connectionAttempts (state c).
Proof.
  unfold heartbeat_tick, bind, ret, Date_now.
  destruct (ws_readyState c) as [[]|]; intros [= <- <-]; try reflexivity.
  rewrite sendMessage_state. reflexivity.
Qed.

Lemma latencyCheck_tick_attempts cfg c w c' w' :
  latencyCheck_tick cfg c w = Ok (c', w') ->
  connectionAttempts (state c') = connectionAttempts (state c).
Proof.
  unfold latencyCheck_tick, bind, ret, Date_now.
  destruct (0 <? _); [|intros [= <- <-]; reflexivity].
  destruct (_ <? _); [|intros [= <- <-]; reflexivity].
  intros Hrun. exact (dispatch_attempts _ _ _ _ _ Hrun).
Qed.

(** [connect] queues no reconnection. *)
Lemma connect_pending cfg c e :
  e ∈ pending (connect cfg c) -> timer_task e = ReconnectTimer -> e ∈ pending c.
Proof.
  unfold connect. destruct (connect_refused cfg c); [auto|].
  unfold schedule. cbn. rewrite clearAllTimers_pending. cbn.
  intros He Htask. apply elem_of_app in He. destruct He as [He|He].
  - apply list_elem_of_filter in He. tauto.
  - apply list_elem_of_singleton in He. subst e. discriminate.
Qed.

Lemma connect_attempts cfg c : attempts_inv c -> attempts_inv (connect cfg c).
Proof.
  apply attempts_inv_keep; [rewrite connect_state; reflexivity | apply connect_pending].
Qed.

(** When the reconnect timer fires, the counter goes from 0 to 1 and no
    other reconnection is pending. *)
Lemma reconnect_timer_fires cfg id entry c w c' w' :
  timers_tracked c -> attempts_inv c ->
  entry ∈ pending c -> timer_id entry = id -> timer_task entry = ReconnectTimer ->
  run_task cfg ReconnectTimer (clearTimeout id c) w = Ok (c', w') ->
  attempts_inv c'.
Proof.
  intros (_ & _ & Hkept & _) [_ Hzero] Hentry Hid Htask. cbn [run_task]. unfold bind, ret.
  destruct (dispatch _ _ w) as [[c1 w1]|e] eqn:Hdispatch; [|discriminate].
  intros [= <- <-].
  pose proof (dispatch_attempts _ _ _ _ _ Hdispatch) as Hone. cbn in Hone.
  rewrite (Hzero entry Hentry Htask) in Hone.
  apply dispatch_same_timers in Hdispatch. destruct Hdispatch as (Hp & _ & _).
  split; rewrite connect_state, Hone; [lia|].
  intros e He Hreconnect. exfalso.
  apply connect_pending in He; [|exact Hreconnect].
  rewrite Hp in He. cbn in He. apply list_elem_of_filter in He. destruct He as [Hne He].
  pose proof (Hkept e He) as Hslot. pose proof (Hkept entry Hentry) as Hslot'.
  rewrite Hreconnect in Hslot. rewrite Htask in Hslot'. cbn in Hslot, Hslot'.
  congruence.
Qed.

Lemma step_attempts cfg e c w c' w' :
  timers_tracked c -> step cfg c e w = Ok (c', w') -> attempts_inv c -> attempts_inv c'.
Proof.
  intros Htracked. destruct e; cbn [step]; unfold ret.
  - intros [= <- <-] Hinv. unfold mount. apply connect_attempts.
    destruct (BATCH_UPDATES cfg); [|exact Hinv].
    revert Hinv. apply attempts_inv_keep; [reflexivity|].
    unfold schedule. cbn. intros e He Htask. apply elem_of_app in He.
    destruct He as [He|He]; [exact He|].
    apply list_elem_of_singleton in He. subst e. discriminate.
  - unfold unmount. intros Hrun _. apply attempts_inv_zero, (disconnect_attempts _ _ _ _ Hrun).
  - intros [= <- <-]. apply connect_attempts.
  - intros Hrun _. apply attempts_inv_zero, (disconnect_attempts _ _ _ _ Hrun).
  - unfold reconnect, bind, ret.
    destruct (disconnect c w) as [[c1 w1]|err] eqn:Hdisconnect; [|discriminate].
    intros [= <- <-] _. apply attempts_inv_zero. exact (disconnect_attempts _ _ _ _ Hdisconnect).
  - intros Hrun. apply attempts_inv_same;
      [exact (subscribe_attempts _ _ _ _ _ Hrun) | exact (subscribe_same_timers _ _ _ _ _ Hrun)].
  - intros Hrun. apply attempts_inv_same;
      [exact (unsubscribe_attempts _ _ _ _ _ Hrun)
      | exact (unsubscribe_same_timers _ _ _ _ _ Hrun)].
  - intros [= <- <-]. apply attempts_inv_same;
      [rewrite sendMessage_state; reflexivity | apply sendMessage_same_timers].
  - destruct (readyState <$> sockets c !! i) as [[]|];
      try solve [intros [= <- <-]; auto].
    intros Hrun _. apply attempts_inv_zero, (onopen_attempts _ _ _ _ _ Hrun).
  - destruct (readyState <$> sockets c !! i) as [[]|];
      try solve [intros [= <- <-]; auto].
    intros Hrun. apply attempts_inv_same;
      [exact (onmessage_attempts _ _ _ _ _ _ Hrun)
      | exact (onmessage_same_timers _ _ _ _ _ _ Hrun)].
  - destruct (readyState <$> sockets c !! i) as [[]|];
      try solve [intros [= <- <-]; auto];
      intros Hrun _; apply attempts_inv_zero, (onclose_attempts _ _ _ _ _ _ _ Hrun).
  - destruct (List.find _ (pending c)) as [entry|] eqn:Hfind; [|intros [= <- <-]; auto].
    apply find_some in Hfind. destruct Hfind as [Hentry Hid].
    apply list_elem_of_In in Hentry. apply Nat.eqb_eq in Hid.
    intros Hrun Hinv.
    assert (Hrepeats : timer_repeats entry = is_interval (timer_task entry))
      by (destruct Htracked as (_ & _ & _ & Hrep); exact (Hrep entry Hentry)).
    assert (Hcleared : attempts_inv (if timer_repeats entry then c else clearTimeout id c)).
    { destruct (timer_repeats entry); [exact Hinv|].
      revert Hinv. apply attempts_inv_keep; [reflexivity|].
      cbn. intros e He _. apply list_elem_of_filter in He. tauto. }
    destruct (timer_task entry) eqn:Htask; cbn [run_task] in Hrun; unfold bind, ret in Hrun.
    + injection Hrun as <- <-. revert Hcleared. apply attempts_inv_same; [|].
      * unfold connectionTimeout_fires. repeat case_match; reflexivity.
      * apply connectionTimeout_fires_same_timers.
    + revert Hcleared. apply attempts_inv_same;
        [exact (heartbeat_tick_attempts _ _ _ _ Hrun)
        | exact (heartbeat_tick_same_timers _ _ _ _ Hrun)].
    + revert Hcleared. apply attempts_inv_same;
        [exact (latencyCheck_tick_attempts _ _ _ _ _ Hrun)
        | exact (latencyCheck_tick_same_timers _ _ _ _ _ Hrun)].
    + rewrite Hrepeats in Hrun. cbn in Hrun.
      apply (reconnect_timer_fires cfg id entry c w c' w'); auto.
    + revert Hcleared. apply attempts_inv_same;
        [exact (subscribe_attempts _ _ _ _ _ Hrun)
        | exact (subscribe_same_timers _ _ _ _ _ Hrun)].
    + injection Hrun as <- <-. apply connect_attempts. exact Hcleared.
    + revert Hcleared. apply attempts_inv_same;
        [exact (flush_attempts _ _ _ _ Hrun) | exact (flush_same_timers _ _ _ _ Hrun)].
  - destruct (readyState <$> sockets c !! i) as [[]|]; intros [= <- <-] Hinv; exact Hinv.
Qed.

Lemma run_attempts cfg events c w c' w' :
  timers_tracked c -> attempts_inv c -> run cfg events c w = Ok (c', w') -> attempts_inv c'.
Proof.
  unfold run. revert c w. induction events as [|e events IH]; intros c w Htracked Hinv.
  - intros [= <- <-]. exact Hinv.
  - cbn [forEach]. unfold bind.
    destruct (step cfg c e w) as [[c1 w1]|err] eqn:Hstep; [|discriminate].
    apply IH.
    + exact (step_tracked _ _ _ _ _ _ Hstep Htracked).
    + exact (step_attempts _ _ _ _ _ _ Htracked Hstep Hinv).
Qed.

(** X9. The [connectionAttempts] the enhanced hook returns to its caller
    is never anything but 0 or 1, however many reconnections there have
    been: every close resets the snapshot to its initial value before
    the one pending reconnect timer can count again.  (The attempts are
    counted in [metaRef.connectionAttempts], which is not returned.) *)
Theorem returned_attempt_counter_never_exceeds_one cfg events w :
  match run cfg events initialClient w with
  | Ok (c, _) => 0 <= connectionAttempts (state c) <= 1
  | Throw _ => True
  end.
Proof.
  destruct (run cfg events initialClient w) as [[c w']|e] eqn:Hrun; [|exact I].
  assert (Htracked : timers_tracked initialClient) by apply tracked_inv_nil.
  assert (Hinv : attempts_inv initialClient) by (apply attempts_inv_zero; reflexivity).
  exact (proj1 (run_attempts _ _ _ _ _ _ Htracked Hinv Hrun)).
Qed.

End AttemptCounter.

(* ===================================================================== *)
(** * 20. Disconnecting twice *)
(* ===================================================================== *)

Section DisconnectTwice.
Context `{JSNumber}.

Lemma filter_idempotent {A} (P : A -> Prop) `{!forall x, Decision (P x)} (l : list A) :
  filter P (filter P l) = filter P l.
Proof. apply list_filter_filter_l. auto. Qed.

(** A client on which [disconnect] has nothing left to do. *)
Lemma disconnect_fixed (c : Enhanced.Client) w :
  Enhanced.ws (Enhanced.metaRef c) = None ->
  Enhanced.timers (Enhanced.metaRef c) = Enhanced.no_timers ->
  Enhanced.isManualClose (Enhanced.metaRef c) = true ->
  Enhanced.ref_connectionAttempts (Enhanced.metaRef c) = 0 ->
  Enhanced.state c
  = Enhanced.set_subscribedChannels (Enhanced.subscribedChannels (Enhanced.state c))
      (Enhanced.set_error (JStr "Manually disconnected") Enhanced.initialState) ->
  Enhanced.disconnect c w = Ok (c, w).
Proof.
  destruct c as [sockets [ws timers manual attempts buffer ping] state pending next flush].
  cbn. intros -> -> -> -> Hstate.
  unfold Enhanced.disconnect, Enhanced.dispatch, Enhanced.clearAllTimers.
  cbn. unfold_monad. unfold Enhanced.set_state. cbn. rewrite Hstate at 2. reflexivity.
Qed.

Lemma disconnect_result (c : Enhanced.Client) w c1 w1 :
  Enhanced.disconnect c w = Ok (c1, w1) ->
  Enhanced.ws (Enhanced.metaRef c1) = None /\
  Enhanced.timers (Enhanced.metaRef c1) = Enhanced.no_timers /\
  Enhanced.isManualClose (Enhanced.metaRef c1) = true /\
  Enhanced.ref_connectionAttempts (Enhanced.metaRef c1) = 0 /\
  Enhanced.state c1
  = Enhanced.set_subscribedChannels (Enhanced.subscribedChannels (Enhanced.state c1))
      (Enhanced.set_error (JStr "Manually disconnected") Enhanced.initialState).
Proof.
  unfold Enhanced.disconnect, Enhanced.dispatch. cbn [Enhanced.reducer]. unfold_monad.
  intros [= <- <-]. cbn.
  destruct (Enhanced.ws _); cbn; rewrite ?clearAllTimers_metaRef; cbn; auto.
Qed.

Lemma basic_clearAllTimers_shape (c : Basic.Client) :
  Basic.clearAllTimers c
  = Basic.set_pending
      (filter (fun e => Some (Basic.timer_id e) ∉
                          [Basic.reconnect_timer (Basic.timers (Basic.metaRef c));
                           Basic.heartbeat (Basic.timers (Basic.metaRef c));
                           Basic.connection (Basic.timers (Basic.metaRef c))])
              (Basic.pending c)) c.
Proof.
  assert (Hshape : forall o x,
    Basic.clear_if_set o x
    = Basic.set_pending (filter (fun e => Some (Basic.timer_id e) ≠ o) (Basic.pending x)) x).
  { intros [id|] []; cbn; unfold Basic.clearTimeout, Basic.set_pending; cbn; f_equal.
    - apply list_filter_iff. intros e. split; congruence.
    - symmetry. apply filter_all. intros e _. discriminate. }
  unfold Basic.clearAllTimers. rewrite !Hshape. unfold Basic.set_pending. cbn. f_equal.
  rewrite !list_filter_filter. apply list_filter_iff. intros e.
  rewrite !not_elem_of_cons. pose proof (not_elem_of_nil (Some (Basic.timer_id e))). tauto.
Qed.

Lemma basic_disconnect_fixed (c : Basic.Client) w :
  Basic.ws (Basic.metaRef c) = None ->
  Basic.isManualClose (Basic.metaRef c) = true ->
  Basic.state c = Basic.set_error (JStr "Manually disconnected") Basic.initialState ->
  Basic.pending (Basic.clearAllTimers c) = Basic.pending c ->
  Basic.disconnect c w = Ok (c, w).
Proof.
  destruct c as [sockets captured [ws timers manual] state pending next].
  cbn [Basic.ws Basic.isManualClose Basic.metaRef Basic.state]. intros -> -> -> Hclear.
  unfold Basic.disconnect.
  cbn [Basic.set_metaRef Basic.set_isManualClose Basic.metaRef Basic.ws Basic.timers
       Basic.sockets Basic.captured Basic.state Basic.pending Basic.next_timer].
  rewrite basic_clearAllTimers_shape in *. cbn in Hclear. cbn. rewrite Hclear.
  reflexivity.
Qed.

Lemma basic_disconnect_result (c : Basic.Client) w c1 w1 :
  Basic.disconnect c w = Ok (c1, w1) ->
  Basic.ws (Basic.metaRef c1) = None /\
  Basic.isManualClose (Basic.metaRef c1) = true /\
  Basic.state c1 = Basic.set_error (JStr "Manually disconnected") Basic.initialState /\
  Basic.pending (Basic.clearAllTimers c1) = Basic.pending c1.
Proof.
  unfold Basic.disconnect, Basic.dispatch. cbn [Basic.reducer]. unfold_monad.
  intros [= <- <-]. rewrite !basic_clearAllTimers_shape. cbn.
  destruct (Basic.ws (Basic.metaRef c)); cbn; repeat split; apply filter_idempotent.
Qed.

(** X11. Calling [disconnect] a second time changes nothing, in either
    hook: the socket reference is already dropped, the tracked timers
    are already cancelled, and the snapshot is already the
    'Manually disconnected' one.  (So the clean-up on unmount after a
    manual disconnect is harmless.) *)
Theorem disconnect_is_idempotent (c : Enhanced.Client) (cb : Basic.Client) w :
  match Enhanced.disconnect c w with
  | Ok (c1, w1) => Enhanced.disconnect c1 w1 = Ok (c1, w1)
  | Throw _ => False
  end /\
  match Basic.disconnect cb w with
  | Ok (c1, w1) => Basic.disconnect c1 w1 = Ok (c1, w1)
  | Throw _ => False
  end.
Proof.
  split.
  - destruct (Enhanced.disconnect c w) as [[c1 w1]|e] eqn:Hfirst.
    + destruct (disconnect_result _ _ _ _ Hfirst) as (Hws & Htimers & Hmanual & Hzero & Hstate).
      exact (disconnect_fixed c1 w1 Hws Htimers Hmanual Hzero Hstate).
    + unfold Enhanced.disconnect, Enhanced.dispatch in Hfirst. cbn in Hfirst. discriminate.
  - destruct (Basic.disconnect cb w) as [[c1 w1]|e] eqn:Hfirst.
    + destruct (basic_disconnect_result _ _ _ _ Hfirst) as (Hws & Hmanual & Hstate & Hclear).
      exact (basic_disconnect_fixed c1 w1 Hws Hmanual Hstate Hclear).
    + unfold Basic.disconnect, Basic.dispatch in Hfirst. cbn in Hfirst. discriminate.
Qed.

End DisconnectTwice.

(* ===================================================================== *)
(** * 21. A close event that arrives late *)
(* ===================================================================== *)

Section LateClose.
Context `{JSNumber}.
Import Enhanced.

(** X10. The handlers of a socket do not check that it is still the one
    the hook holds.  When the close event of a socket the hook has
    already replaced arrives (code 1000, as after [disconnect]), the
    hook marks itself disconnected and cancels every tracked timer,
    among them the heartbeat and the latency check of the socket it now
    holds, which stays open; no reconnection is scheduled. *)
Theorem late_close_event_resets_the_current_connection cfg c i j reason w :
  ws (metaRef c) = Some j -> i ≠ j ->
  readyState <$> sockets c !! j = Some OPEN ->
  readyState <$> sockets c !! i = Some CLOSING ->
  ref_messageBuffer (metaRef c) = [] ->
  match step cfg c (SocketClose i 1000 reason) w with
  | Ok (c', w') =>
      w' = w /\
      isConnected (state c') = false /\
      connectionQuality (state c') = disconnected /\
      ws_readyState c' = Some OPEN /\
      timers (metaRef c') = no_timers /\
      pending c' = filter (fun e => Some (timer_id e) ∉ handles (timers (metaRef c)))
                          (pending c)
  | Throw _ => False
  end.
Proof.
  intros Hws Hne Hopen Hclosing Hbuffer. cbn [step]. rewrite Hclosing.
  unfold onclose, flush. rewrite clearAllTimers_metaRef. cbn. rewrite Hbuffer. cbn.
  unfold dispatch. cbn [reducer]. unfold_monad. cbn.
  rewrite clearAllTimers_metaRef. cbn. rewrite orb_true_r.
  rewrite clearAllTimers_state. cbn.
  repeat split.
  - unfold ws_readyState. cbn. rewrite clearAllTimers_metaRef, clearAllTimers_sockets. cbn.
    rewrite Hws. rewrite list_lookup_alter_ne by done. exact Hopen.
  - rewrite clearAllTimers_pending. reflexivity.
Qed.

End LateClose.

(** The close event of socket 0 arriving after socket 1 has opened. *)
Lemma late_close_witness :
  Enhanced.ws (Enhanced.metaRef replaced_socket) = Some 1%nat /\
  readyState <$> Enhanced.sockets replaced_socket !! 1%nat = Some OPEN /\
  readyState <$> Enhanced.sockets replaced_socket !! 0%nat = Some CLOSING /\
  Enhanced.ref_messageBuffer (Enhanced.metaRef replaced_socket) = [] /\
  match Enhanced.step (sample_config false false) replaced_socket
          (Enhanced.SocketClose 0 1000 "Manual disconnect") sample_world with
  | Ok (c', w') =>
      w' = sample_world /\
      Enhanced.isConnected (Enhanced.state c') = false /\
      Enhanced.connectionQuality (Enhanced.state c') = Enhanced.disconnected /\
      Enhanced.ws_readyState c' = Some OPEN /\
      Enhanced.timers (Enhanced.metaRef c') = Enhanced.no_timers /\
      Enhanced.pending c'
      = filter (fun e => Some (Enhanced.timer_id e) ∉
                           handles (Enhanced.timers (Enhanced.metaRef replaced_socket)))
               (Enhanced.pending replaced_socket)
  | Throw _ => False
  end.
Proof.
  assert (Hws : Enhanced.ws (Enhanced.metaRef replaced_socket) = Some 1%nat)
    by (vm_compute; reflexivity).
  assert (Hopen : readyState <$> Enhanced.sockets replaced_socket !! 1%nat = Some OPEN)
    by (vm_compute; reflexivity).
  assert (Hclosing : readyState <$> Enhanced.sockets replaced_socket !! 0%nat = Some CLOSING)
    by (vm_compute; reflexivity).
  assert (Hbuffer : Enhanced.ref_messageBuffer (Enhanced.metaRef replaced_socket) = [])
    by (vm_compute; reflexivity).
  split; [exact Hws|]. split; [exact Hopen|]. split; [exact Hclosing|].
  split; [exact Hbuffer|].
  apply (late_close_event_resets_the_current_connection (sample_config false false)
           replaced_socket 0%nat 1%nat "Manual disconnect" sample_world Hws);
    [discriminate | exact Hopen | exact Hclosing | exact Hbuffer].
Defined.

(* ===================================================================== *)
(** * 22. The message buffer *)
(* ===================================================================== *)

Section Buffer.
Context `{JSNumber}.
Import Enhanced.

Lemma buffer_inv_same cfg c c' : same_buffer c c' -> buffer_inv cfg c -> buffer_inv cfg c'.
Proof. unfold buffer_inv, same_buffer. intros ->. auto. Qed.

Lemma buffer_inv_empty cfg c : ref_messageBuffer (metaRef c) = [] -> buffer_inv cfg c.
Proof. unfold buffer_inv. intros ->. cbn. repeat split; [lia | constructor]. Qed.

Lemma dispatch_same_buffer a c w c' w' : dispatch a c w = Ok (c', w') -> same_buffer c c'.
Proof. intros Hrun. apply dispatch_inv in Hrun. destruct Hrun as (s' & _ & ->). reflexivity. Qed.

Lemma sendMessage_same_buffer message c : same_buffer c (sendMessage message c).
Proof. unfold same_buffer. rewrite sendMessage_metaRef. reflexivity. Qed.

Lemma clearAllTimers_same_buffer c : same_buffer c (clearAllTimers c).
Proof. unfold same_buffer. rewrite clearAllTimers_metaRef. reflexivity. Qed.

Lemma connect_same_buffer cfg c : same_buffer c (connect cfg c).
Proof.
  unfold connect, same_buffer. destruct (connect_refused cfg c); [reflexivity|].
  unfold schedule. cbn. rewrite clearAllTimers_metaRef. reflexivity.
Qed.

Lemma disconnect_same_buffer c w c' w' : disconnect c w = Ok (c', w') -> same_buffer c c'.
Proof.
  unfold disconnect. intros Hrun. apply dispatch_same_buffer in Hrun.
  unfold same_buffer in *. rewrite Hrun. cbn.
  destruct (ws _); cbn; rewrite clearAllTimers_metaRef; reflexivity.
Qed.

Lemma subscribe_same_buffer channel c w c' w' :
  subscribe channel c w = Ok (c', w') -> same_buffer c c'.
Proof.
  unfold subscribe, bind, Date_now. intros Hrun. apply dispatch_same_buffer in Hrun.
  unfold same_buffer in *. rewrite Hrun, sendMessage_metaRef. reflexivity.
Qed.

Lemma unsubscribe_same_buffer channel c w c' w' :
  unsubscribe channel c w = Ok (c', w') -> same_buffer c c'.
Proof.
  unfold unsubscribe, bind, Date_now. intros Hrun. apply dispatch_same_buffer in Hrun.
  unfold same_buffer in *. rewrite Hrun, sendMessage_metaRef. reflexivity.
Qed.

Lemma onopen_same_buffer cfg c w c' w' :
  onopen cfg c w = Ok (c', w') -> same_buffer c c'.
Proof.
  unfold onopen, bind, ret.
  destruct (dispatch _ _ w) as [[c1 w1]|e] eqn:Hdispatch; [|discriminate].
  intros [= <- <-]. apply dispatch_same_buffer in Hdispatch.
  unfold same_buffer in *. cbn in Hdispatch. rewrite clearAllTimers_metaRef in Hdispatch.
  cbn in Hdispatch. rewrite <- Hdispatch.
  unfold autoSubscribeToChannels, essentialChannels.
  destruct (negb (autoSubscribe cfg)); reflexivity.
Qed.

Lemma flush_buffer cfg c w c' w' :
  flush c w = Ok (c', w') -> buffer_inv cfg c -> buffer_inv cfg c'.
Proof.
  unfold flush, bind, ret. destruct (0 <? _)%nat; [|intros [= <- <-]; auto].
  destruct (dispatch _ c w) as [[c1 w1]|e]; [|discriminate].
  intros [= <- <-] _. apply buffer_inv_empty. reflexivity.
Qed.

Lemma onmessage_buffer cfg frame c w c' w' :
  onmessage cfg frame c w = Ok (c', w') -> buffer_inv cfg c -> buffer_inv cfg c'.
Proof.
  unfold onmessage.
  destruct frame as [message|]; [|intros [= <- <-]; auto].
  destruct (type_is "pong" message) eqn:Hpong;
    [unfold bind, Date_now; intros Hrun; apply buffer_inv_same;
     exact (dispatch_same_buffer _ _ _ _ _ Hrun)|].
  destruct (type_is "heartbeat" message) eqn:Hheartbeat; [intros [= <- <-]; auto|].
  destruct (BATCH_UPDATES cfg) eqn:Hbatch;
    [|intros Hrun; apply buffer_inv_same; exact (dispatch_same_buffer _ _ _ _ _ Hrun)].
  cbv zeta. cbn [metaRef set_metaRef ref_messageBuffer set_ref_messageBuffer].
  destruct (BUFFER_SIZE cfg <=? _) eqn:Hfull.
  - unfold bind, ret. destruct (dispatch _ _ w) as [[c1 w1]|e]; [|discriminate].
    intros [= <- <-] _. apply buffer_inv_empty. reflexivity.
  - intros [= <- <-] (Hlen & Hdata & _). unfold buffer_inv. cbn.
    apply Z.leb_gt in Hfull. repeat split.
    + lia.
    + apply Forall_app. split; [exact Hdata|]. constructor; [|constructor].
      unfold bufferable. rewrite Hpong, Hheartbeat. reflexivity.
    + congruence.
Qed.

Lemma onclose_buffer cfg code reason c w c' w' :
  onclose cfg code reason c w = Ok (c', w') -> buffer_inv cfg c -> buffer_inv cfg c'.
Proof.
  unfold onclose, bind, ret, Math_random.
  destruct (flush _ w) as [[c1 w1]|e] eqn:Hflush; [|discriminate].
  destruct (dispatch _ c1 w1) as [[c2 w2]|e] eqn:Hdispatch; [|discriminate].
  intros Hrun Hinv.
  assert (Hc2 : buffer_inv cfg c2).
  { apply (buffer_inv_same _ _ _ (dispatch_same_buffer _ _ _ _ _ Hdispatch)).
    apply (flush_buffer _ _ _ _ _ Hflush).
    exact (buffer_inv_same _ _ _ (clearAllTimers_same_buffer c) Hinv). }
  destruct (isManualClose _ || _); [injection Hrun as <- <-; exact Hc2|].
  destruct (JITTER cfg); injection Hrun as <- <-; exact Hc2.
Qed.

Lemma heartbeat_tick_same_buffer c w c' w' :
  heartbeat_tick c w = Ok (c', w') -> same_buffer c c'.
Proof.
  unfold heartbeat_tick, bind, ret, Date_now.
  destruct (ws_readyState c) as [[]|]; intros [= <- <-]; try reflexivity.
  unfold same_buffer. rewrite sendMessage_metaRef. reflexivity.
Qed.

Lemma latencyCheck_tick_same_buffer cfg c w c' w' :
  latencyCheck_tick cfg c w = Ok (c', w') -> same_buffer c c'.
Proof.
  unfold latencyCheck_tick, bind, ret, Date_now.
  destruct (0 <? _); [|intros [= <- <-]; reflexivity].
  destruct (_ <? _); [|intros [= <- <-]; reflexivity].
  apply dispatch_same_buffer.
Qed.

Lemma run_task_buffer cfg task c w c' w' :
  run_task cfg task c w = Ok (c', w') -> buffer_inv cfg c -> buffer_inv cfg c'.
Proof.
  destruct task; cbn [run_task]; unfold bind, ret.
  - intros [= <- <-]. apply buffer_inv_same.
    unfold connectionTimeout_fires. repeat case_match; reflexivity.
  - intros Hrun. apply buffer_inv_same, (heartbeat_tick_same_buffer _ _ _ _ Hrun).
  - intros Hrun. apply buffer_inv_same, (latencyCheck_tick_same_buffer _ _ _ _ _ Hrun).
  - destruct (dispatch _ c w) as [[c1 w1]|e] eqn:Hdispatch; [|discriminate].
    intros [= <- <-] Hinv. apply (buffer_inv_same _ _ _ (connect_same_buffer cfg c1)).
    exact (buffer_inv_same _ _ _ (dispatch_same_buffer _ _ _ _ _ Hdispatch) Hinv).
  - intros Hrun. apply buffer_inv_same, (subscribe_same_buffer _ _ _ _ _ Hrun).
  - intros [= <- <-]. apply buffer_inv_same, connect_same_buffer.
  - apply flush_buffer.
Qed.

Lemma step_buffer cfg e c w c' w' :
  step cfg c e w = Ok (c', w') -> buffer_inv cfg c -> buffer_inv cfg c'.
Proof.
  destruct e; cbn [step]; unfold ret.
  - intros [= <- <-] Hinv. unfold mount.
    match goal with |- buffer_inv _ (connect _ ?c1) =>
      apply (buffer_inv_same _ _ _ (connect_same_buffer cfg c1)) end.
    destruct (BATCH_UPDATES cfg); exact Hinv.
  - unfold unmount. intros Hrun Hinv.
    apply (buffer_inv_same _ _ _ (disconnect_same_buffer _ _ _ _ Hrun)).
    destruct (flush_interval c); exact Hinv.
  - intros [= <- <-]. apply buffer_inv_same, connect_same_buffer.
  - intros Hrun. apply buffer_inv_same, (disconnect_same_buffer _ _ _ _ Hrun).
  - unfold reconnect, bind, ret.
    destruct (disconnect c w) as [[c1 w1]|err] eqn:Hdisconnect; [|discriminate].
    intros [= <- <-]. apply buffer_inv_same. unfold same_buffer. cbn.
    exact (disconnect_same_buffer _ _ _ _ Hdisconnect).
  - intros Hrun. apply buffer_inv_same, (subscribe_same_buffer _ _ _ _ _ Hrun).
  - intros Hrun. apply buffer_inv_same, (unsubscribe_same_buffer _ _ _ _ _ Hrun).
  - intros [= <- <-]. apply buffer_inv_same, sendMessage_same_buffer.
  - destruct (readyState <$> sockets c !! i) as [[]|];
      try solve [intros [= <- <-]; auto].
    intros Hrun. apply buffer_inv_same.
    exact (onopen_same_buffer _ _ _ _ _ Hrun).
  - destruct (readyState <$> sockets c !! i) as [[]|];
      try solve [intros [= <- <-]; auto].
    apply onmessage_buffer.
  - destruct (readyState <$> sockets c !! i) as [[]|];
      try solve [intros [= <- <-]; auto];
      intros Hrun Hinv; exact (onclose_buffer _ _ _ _ _ _ _ Hrun Hinv).
  - destruct (List.find _ (pending c)) as [entry|]; [|intros [= <- <-]; auto].
    intros Hrun Hinv. apply (run_task_buffer _ _ _ _ _ _ Hrun).
    destruct (timer_repeats entry); exact Hinv.
  - destruct (readyState <$> sockets c !! i) as [[]|]; intros [= <- <-] Hinv; exact Hinv.
Qed.

Lemma run_buffer cfg events c w c' w' :
  run cfg events c w = Ok (c', w') -> buffer_inv cfg c -> buffer_inv cfg c'.
Proof.
  unfold run. revert c w. induction events as [|e events IH]; intros c w.
  - intros [= <- <-]. auto.
  - cbn [forEach]. unfold bind.
    destruct (step cfg c e w) as [[c1 w1]|err] eqn:Hstep; [|discriminate].
    intros Hrun Hinv. apply (IH _ _ Hrun). exact (step_buffer _ _ _ _ _ _ Hstep Hinv).
Qed.

(** X12. Whatever happens to a hook after it is created, the buffer of
    [onmessage] stays shorter than [BUFFER_SIZE] (it is flushed as soon
    as it reaches it; with a size of 1 or less it is always empty), it
    holds no 'pong' and no 'heartbeat' frame, so the reducer never
    receives one in a batch, and it stays empty when batching is off. *)
Theorem buffer_stays_below_its_size_and_holds_data_frames cfg events w :
  match run cfg events initialClient w with
  | Ok (c, _) =>
      Z.of_nat (length (ref_messageBuffer (metaRef c))) < Z.max 1 (BUFFER_SIZE cfg) /\
      Forall (fun m => bufferable m = true) (ref_messageBuffer (metaRef c)) /\
      (if BATCH_UPDATES cfg then True else ref_messageBuffer (metaRef c) = [])
  | Throw _ => True
  end.
Proof.
  destruct (run cfg events initialClient w) as [[c w']|e] eqn:Hrun; [|exact I].
  assert (Hinv : buffer_inv cfg initialClient) by (apply buffer_inv_empty; reflexivity).
  destruct (run_buffer _ _ _ _ _ _ Hrun Hinv) as (Hlen & Hdata & Hoff).
  repeat split; [exact Hlen | exact Hdata |].
  destruct (BATCH_UPDATES cfg); [exact I | exact (Hoff eq_refl)].
Qed.

End Buffer.

(* ===================================================================== *)
(** * 23. Giving up *)
(* ===================================================================== *)

Section Exhaustion.
Context `{JSNumber}.
Import Enhanced.

Lemma at_rest_refl c : at_rest c c.
Proof. repeat split; auto; lia. Qed.

Lemma at_rest_trans c1 c2 c3 : at_rest c1 c2 -> at_rest c2 c3 -> at_rest c1 c3.
Proof.
  intros (Hn1 & Hs1 & Hd1) (Hn2 & Hs2 & Hd2). repeat split; [lia | congruence | auto].
Qed.

Lemma at_rest_exhausted cfg c c' : at_rest c c' -> exhausted cfg c -> exhausted cfg c'.
Proof. intros (Hn & _ & Hd) [Hmax Hdead]. split; [lia | auto]. Qed.

Lemma at_rest_same c c' :
  same_transport c c' ->
  ref_connectionAttempts (metaRef c) <= ref_connectionAttempts (metaRef c') ->
  at_rest c c'.
Proof. intros [Hs _] Hn. unfold at_rest. rewrite Hs. auto. Qed.

Lemma dead_not_live (l : list WebSocket) i :
  Forall (fun s => live s = false) l ->
  readyState <$> l !! i ≠ Some CONNECTING /\ readyState <$> l !! i ≠ Some OPEN.
Proof.
  intros Hdead. destruct (l !! i) as [s|] eqn:Hs; cbn; [|split; discriminate].
  rewrite Forall_lookup in Hdead. specialize (Hdead i s Hs). unfold live in Hdead.
  destruct (readyState s); try discriminate; split; discriminate.
Qed.

Lemma all_dead (l : list WebSocket) :
  forallb (fun s => negb (live s)) l = true -> Forall (fun s => live s = false) l.
Proof.
  intros Hall. apply Forall_forall. intros s Hs. apply list_elem_of_In in Hs.
  rewrite forallb_forall in Hall. apply negb_true_iff, Hall, Hs.
Qed.

Lemma exhausted_readyState cfg c :
  exhausted cfg c -> ws_readyState c ≠ Some CONNECTING /\ ws_readyState c ≠ Some OPEN.
Proof.
  intros [_ Hdead]. unfold ws_readyState.
  destruct (ws (metaRef c)) as [i|]; [apply dead_not_live, Hdead | split; discriminate].
Qed.

Lemma exhausted_connect cfg c : exhausted cfg c -> connect cfg c = c.
Proof.
  intros Hout. unfold connect. replace (connect_refused cfg c) with true; [reflexivity|].
  unfold connect_refused. destruct Hout as [Hmax Hdead]. apply Z.ltb_lt in Hmax.
  rewrite Hmax. repeat case_match; reflexivity.
Qed.

Lemma exhausted_sendMessage cfg message c : exhausted cfg c -> sendMessage message c = c.
Proof.
  intros Hout. apply exhausted_readyState in Hout. destruct Hout as [_ Hopen].
  unfold sendMessage. destruct (ws (metaRef c)); [|reflexivity].
  destruct (ws_readyState c) as [[]|]; try reflexivity. congruence.
Qed.

Lemma dispatch_at_rest a c w c' w' : dispatch a c w = Ok (c', w') -> at_rest c c'.
Proof.
  intros Hrun. apply dispatch_inv in Hrun. destruct Hrun as (s' & _ & ->).
  unfold at_rest. cbn. repeat split; auto; lia.
Qed.

Lemma flush_at_rest c w c' w' : flush c w = Ok (c', w') -> at_rest c c'.
Proof.
  unfold flush, bind, ret. destruct (0 <? _)%nat; [|intros [= <- <-]; apply at_rest_refl].
  destruct (dispatch _ c w) as [[c1 w1]|e] eqn:Hdispatch; [|discriminate].
  intros [= <- <-]. apply dispatch_inv in Hdispatch. destruct Hdispatch as (s' & _ & ->).
  unfold at_rest. cbn. repeat split; auto; lia.
Qed.

Lemma clearAllTimers_at_rest c : at_rest c (clearAllTimers c).
Proof.
  apply at_rest_same; [apply clearAllTimers_transport|].
  rewrite clearAllTimers_metaRef. cbn. lia.
Qed.

Lemma onclose_at_rest cfg code reason c w c' w' :
  onclose cfg code reason c w = Ok (c', w') -> at_rest c c'.
Proof.
  unfold onclose, bind, ret, Math_random.
  destruct (flush _ w) as [[c1 w1]|e] eqn:Hflush; [|discriminate].
  destruct (dispatch _ c1 w1) as [[c2 w2]|e] eqn:Hdispatch; [|discriminate].
  apply flush_at_rest in Hflush. apply dispatch_at_rest in Hdispatch.
  assert (Hc2 : at_rest c c2).
  { eapply at_rest_trans; [apply clearAllTimers_at_rest|].
    eapply at_rest_trans; eassumption. }
  destruct (isManualClose _ || _); [intros [= <- <-]; exact Hc2|].
  assert (Hup : forall delay,
    at_rest c2
      (let '(id, c3) := schedule ReconnectTimer delay false
                          (set_metaRef (set_ref_connectionAttempts
                             (ref_connectionAttempts (metaRef c2) + 1) (metaRef c2)) c2) in
       set_metaRef (set_timers {| heartbeat := heartbeat (timers (metaRef c3));
                                  reconnect_timer := Some id;
                                  connection := connection (timers (metaRef c3));
                                  latencyCheck := latencyCheck (timers (metaRef c3)) |}
                      (metaRef c3)) c3)).
  { intros delay. unfold schedule, at_rest. cbn. repeat split; auto; lia. }
  destruct (JITTER cfg); intros [= <- <-]; (eapply at_rest_trans; [exact Hc2 | apply Hup]).
Qed.

Lemma alter_closed_at_rest i c :
  at_rest c (set_sockets (alter (set_readyState CLOSED) i (sockets c)) c).
Proof.
  unfold at_rest. cbn. repeat split; [lia | |].
  - apply list_eq. intros j. rewrite !list_lookup_fmap.
    destruct (decide (i = j)) as [->|Hne].
    + rewrite list_lookup_alter_eq. destruct (sockets c !! j); reflexivity.
    + rewrite list_lookup_alter_ne by done. reflexivity.
  - intros Hdead. rewrite Forall_lookup in *. intros j s Hj.
    destruct (decide (i = j)) as [->|Hne].
    + rewrite list_lookup_alter_eq in Hj. destruct (sockets c !! j); [|discriminate].
      cbn in Hj. injection Hj as <-. reflexivity.
    + rewrite list_lookup_alter_ne in Hj by done. eauto.
Qed.

Lemma subscribe_at_rest cfg channel c w c' w' :
  exhausted cfg c -> subscribe channel c w = Ok (c', w') -> at_rest c c'.
Proof.
  unfold subscribe, bind, Date_now. intros Hout.
  rewrite (exhausted_sendMessage cfg _ _ Hout). apply dispatch_at_rest.
Qed.

Lemma unsubscribe_at_rest cfg channel c w c' w' :
  exhausted cfg c -> unsubscribe channel c w = Ok (c', w') -> at_rest c c'.
Proof.
  unfold unsubscribe, bind, Date_now. intros Hout.
  rewrite (exhausted_sendMessage cfg _ _ Hout). apply dispatch_at_rest.
Qed.

Lemma exhausted_pending cfg p c : exhausted cfg c -> exhausted cfg (set_pending p c).
Proof. auto. Qed.

Lemma run_task_at_rest cfg task c w c' w' :
  exhausted cfg c -> run_task cfg task c w = Ok (c', w') -> at_rest c c'.
Proof.
  intros Hout. destruct task; cbn [run_task]; unfold bind, ret.
  - intros [= <- <-]. unfold connectionTimeout_fires.
    destruct (sockets c !! ws0) as [s|] eqn:Hs; [|apply at_rest_refl].
    destruct (readyState s) eqn:Hready; cbn; try apply at_rest_refl.
    destruct Hout as [_ Hdead]. apply (dead_not_live _ ws0) in Hdead.
    rewrite Hs in Hdead. cbn in Hdead. rewrite Hready in Hdead. tauto.
  - unfold heartbeat_tick. pose proof (exhausted_readyState _ _ Hout) as [_ Hopen].
    destruct (ws_readyState c) as [[]|]; try (intros [= <- <-]; apply at_rest_refl).
    congruence.
  - unfold latencyCheck_tick, bind, ret, Date_now.
    destruct (0 <? _); [|intros [= <- <-]; apply at_rest_refl].
    destruct (_ <? _); [|intros [= <- <-]; apply at_rest_refl].
    apply dispatch_at_rest.
  - destruct (dispatch _ c w) as [[c1 w1]|e] eqn:Hdispatch; [|discriminate].
    intros [= <- <-]. apply dispatch_at_rest in Hdispatch.
    rewrite (exhausted_connect cfg c1); [exact Hdispatch|].
    exact (at_rest_exhausted _ _ _ Hdispatch Hout).
  - apply (subscribe_at_rest cfg), Hout.
  - intros [= <- <-]. rewrite (exhausted_connect cfg c Hout). apply at_rest_refl.
  - apply flush_at_rest.
Qed.

Lemma step_at_rest cfg e c w c' w' :
  exhausted cfg c -> resets e = false -> step cfg c e w = Ok (c', w') -> at_rest c c'.
Proof.
  intros Hout Hquiet. destruct e; try discriminate Hquiet; cbn [step]; unfold ret.
  - intros [= <- <-]. unfold mount. destruct (BATCH_UPDATES cfg).
    + unfold schedule. cbn.
      match goal with |- at_rest _ (connect _ ?c1) =>
        rewrite (exhausted_connect cfg c1) by exact Hout end.
      unfold at_rest. cbn. repeat split; auto; lia.
    + rewrite (exhausted_connect cfg c Hout). apply at_rest_refl.
  - intros [= <- <-]. rewrite (exhausted_connect cfg c Hout). apply at_rest_refl.
  - apply (subscribe_at_rest cfg), Hout.
  - apply (unsubscribe_at_rest cfg), Hout.
  - intros [= <- <-]. rewrite (exhausted_sendMessage cfg _ _ Hout). apply at_rest_refl.
  - destruct Hout as [_ Hdead]. apply (dead_not_live _ i) in Hdead.
    destruct (readyState <$> sockets c !! i) as [[]|];
      try (intros [= <- <-]; apply at_rest_refl). tauto.
  - destruct Hout as [_ Hdead]. apply (dead_not_live _ i) in Hdead.
    destruct (readyState <$> sockets c !! i) as [[]|];
      try (intros [= <- <-]; apply at_rest_refl). tauto.
  - destruct (readyState <$> sockets c !! i) as [[]|];
      try (intros [= <- <-]; apply at_rest_refl);
      intros Hrun; apply onclose_at_rest in Hrun;
      (eapply at_rest_trans; [apply alter_closed_at_rest | exact Hrun]).
  - destruct (List.find _ (pending c)) as [entry|]; [|intros [= <- <-]; apply at_rest_refl].
    destruct (timer_repeats entry).
    + apply run_task_at_rest, Hout.
    + intros Hrun. apply (run_task_at_rest cfg) in Hrun; [exact Hrun | exact Hout].
  - destruct Hout as [_ Hdead]. apply (dead_not_live _ i) in Hdead.
    destruct (readyState <$> sockets c !! i) as [[]|];
      try (intros [= <- <-]; apply at_rest_refl). tauto.
Qed.

Lemma run_at_rest cfg events c w c' w' :
  exhausted cfg c -> Forall (fun e => resets e = false) events ->
  run cfg events c w = Ok (c', w') -> at_rest c c'.
Proof.
  unfold run. revert c w. induction events as [|e events IH]; intros c w Hout Hquiet.
  - intros [= <- <-]. apply at_rest_refl.
  - cbn [forEach]. unfold bind.
    destruct (step cfg c e w) as [[c1 w1]|err] eqn:Hstep; [|discriminate].
    apply Forall_cons in Hquiet. destruct Hquiet as [He Hrest].
    pose proof (step_at_rest _ _ _ _ _ _ Hout He Hstep) as Hfirst.
    intros Hrun. eapply at_rest_trans; [exact Hfirst|].
    apply (IH c1 w1); [exact (at_rest_exhausted _ _ _ Hfirst Hout) | exact Hrest | exact Hrun].
Qed.

(** X13. Giving up is final.  Once the attempt counter of [metaRef] is
    past the maximum and no transport is alive, no timer, socket event
    or call other than [disconnect], [reconnect] or the unmount makes
    the hook connect again: no socket is created, nothing is sent, and
    the hook is still exhausted afterwards.  A pending reconnect timer
    still fires and announces a reconnection that [connect] refuses. *)
Theorem an_exhausted_hook_stays_exhausted cfg events c w :
  exhausted cfg c -> Forall (fun e => resets e = false) events ->
  match run cfg events c w with
  | Ok (c', _) =>
      exhausted cfg c' /\
      length (sockets c') = length (sockets c) /\
      sent <$> sockets c' = sent <$> sockets c
  | Throw _ => True
  end.
Proof.
  intros Hout Hquiet.
  destruct (run cfg events c w) as [[c' w']|e] eqn:Hrun; [|exact I].
  pose proof (run_at_rest _ _ _ _ _ _ Hout Hquiet Hrun) as Hrest.
  split; [exact (at_rest_exhausted _ _ _ Hrest Hout)|].
  destruct Hrest as (_ & Hsent & _). split; [|exact Hsent].
  apply (f_equal length) in Hsent. rewrite !length_fmap in Hsent. exact Hsent.
Qed.

End Exhaustion.

(** After six failed attempts, neither the last reconnect timer (11),
    nor a call of [connect], nor a subscription makes the hook connect;
    the snapshot keeps announcing a reconnection. *)
Lemma exhausted_witness :
  exhausted (sample_config false false) after_six_failures /\
  Forall (fun e => resets e = false)
    [Enhanced.TimerFires 11; Enhanced.CallConnect; Enhanced.CallSubscribe "prices"] /\
  match Enhanced.run (sample_config false false)
          [Enhanced.TimerFires 11; Enhanced.CallConnect; Enhanced.CallSubscribe "prices"]
          after_six_failures sample_world with
  | Ok (c', _) =>
      exhausted (sample_config false false) c' /\
      length (Enhanced.sockets c') = length (Enhanced.sockets after_six_failures) /\
      sent <$> Enhanced.sockets c' = sent <$> Enhanced.sockets after_six_failures
  | Throw _ => True
  end /\
  match Enhanced.run (sample_config false false)
          [Enhanced.TimerFires 11; Enhanced.CallConnect; Enhanced.CallSubscribe "prices"]
          after_six_failures sample_world with
  | Ok (c', _) =>
      length (Enhanced.sockets c') = 6%nat /\
      Enhanced.error (Enhanced.state c') = JStr "Reconnecting... Attempt 1."
  | Throw _ => False
  end.
Proof.
  assert (Hout : exhausted (sample_config false false) after_six_failures).
  { split; [vm_compute; reflexivity|].
    apply all_dead. vm_compute. reflexivity. }
  assert (Hquiet : Forall (fun e => resets e = false)
            [Enhanced.TimerFires 11; Enhanced.CallConnect; Enhanced.CallSubscribe "prices"])
    by (repeat constructor).
  split; [exact Hout|]. split; [exact Hquiet|].
  split.
  - exact (an_exhausted_hook_stays_exhausted (sample_config false false) _ _ sample_world
             Hout Hquiet).
  - vm_compute. split; reflexivity.
Defined.

(* ===================================================================== *)
(** * 24. The attempt counter of the basic hook *)
(* ===================================================================== *)

Section BasicAttemptCounter.
Context `{JSNumber}.
Import Basic.

Lemma basic_clearAllTimers_pending c :
  pending (clearAllTimers c)
  = filter (fun e => Some (timer_id e) ∉ basic_handles (timers (metaRef c))) (pending c).
Proof. rewrite basic_clearAllTimers_shape. reflexivity. Qed.

Lemma basic_clearAllTimers_next_timer c : next_timer (clearAllTimers c) = next_timer c.
Proof. rewrite basic_clearAllTimers_shape. reflexivity. Qed.

Lemma basic_tracked_inv_nil n t :
  (forall id, Some id ∈ basic_handles t -> (id < n)%nat) -> basic_tracked_inv [] n t.
Proof.
  intros Hslots. refine (conj _ (conj Hslots (conj _ _)));
    intros e He; apply elem_of_nil in He; contradiction.
Qed.

Lemma basic_tracked_inv_filter (P : TimerEntry -> Prop) `{!forall x, Decision (P x)} p n t :
  basic_tracked_inv p n t -> basic_tracked_inv (filter P p) n t.
Proof.
  intros (Hfresh & Hslots & Hkept & Hrep).
  refine (conj _ (conj Hslots (conj _ _))); intros e He; apply list_elem_of_filter in He;
    destruct He as [_ He];
    first [exact (Hfresh e He) | exact (Hkept e He) | exact (Hrep e He)].
Qed.

Lemma basic_tracked_iff_handle p n t e :
  basic_tracked_inv p n t -> e ∈ p ->
  Some (timer_id e) ∉ basic_handles t <-> basic_tracked (timer_task e) = false.
Proof.
  intros (_ & _ & Hkept & _) He. specialize (Hkept e He).
  destruct (basic_tracked (timer_task e)) eqn:Htracked; [|tauto].
  split; [|discriminate]. intros Hout. exfalso. apply Hout.
  unfold basic_handles. rewrite !elem_of_cons.
  destruct (timer_task e); cbn in *; try discriminate; rewrite <- Hkept; tauto.
Qed.

(** After [clearAllTimers] no timer of a tracked kind is pending. *)
Lemma basic_clearAllTimers_tracked c :
  basic_timers_tracked c ->
  basic_timers_tracked (clearAllTimers c) /\
  forall e, e ∈ pending (clearAllTimers c) -> basic_tracked (timer_task e) = false.
Proof.
  unfold basic_timers_tracked. intros Hinv.
  rewrite basic_clearAllTimers_pending, basic_clearAllTimers_next_timer,
    basic_clearAllTimers_metaRef.
  split; [apply basic_tracked_inv_filter, Hinv|].
  intros e He. apply list_elem_of_filter in He. destruct He as [Hout He].
  exact (proj1 (basic_tracked_iff_handle _ _ _ _ Hinv He) Hout).
Qed.

Lemma basic_tracked_inv_untracked task delay p n t :
  basic_tracked task = false -> basic_tracked_inv p n t ->
  basic_tracked_inv (p ++ [{| timer_id := n; timer_task := task; timer_delay := delay;
                              timer_repeats := basic_is_interval task |}]) (S n) t.
Proof.
  intros Htask (Hfresh & Hslots & Hkept & Hrep). refine (conj _ (conj _ (conj _ _))).
  - intros e He. apply elem_of_app in He. destruct He as [He|He].
    + specialize (Hfresh e He). lia.
    + apply list_elem_of_singleton in He. subst e. cbn. lia.
  - intros id Hid. specialize (Hslots id Hid). lia.
  - intros e He. apply elem_of_app in He. destruct He as [He|He]; [exact (Hkept e He)|].
    apply list_elem_of_singleton in He. subst e. cbn. rewrite Htask.
    intros Hin. specialize (Hslots n Hin). lia.
  - intros e He. apply elem_of_app in He. destruct He as [He|He]; [exact (Hrep e He)|].
    apply list_elem_of_singleton in He. subst e. reflexivity.
Qed.

(** Queueing a timer of a tracked kind and storing its handle, when no
    timer of a tracked kind is pending. *)
Lemma basic_tracked_inv_tracked task delay p n t t' :
  basic_tracked task = true ->
  (forall e, e ∈ p -> basic_tracked (timer_task e) = false) ->
  basic_slot_of task t' = Some n ->
  (forall id, Some id ∈ basic_handles t' -> id = n \/ Some id ∈ basic_handles t) ->
  basic_tracked_inv p n t ->
  basic_tracked_inv (p ++ [{| timer_id := n; timer_task := task; timer_delay := delay;
                              timer_repeats := basic_is_interval task |}]) (S n) t'.
Proof.
  intros Htask Hnone Hset Hhandles (Hfresh & Hslots & Hkept & Hrep).
  refine (conj _ (conj _ (conj _ _))).
  - intros e He. apply elem_of_app in He. destruct He as [He|He].
    + specialize (Hfresh e He). lia.
    + apply list_elem_of_singleton in He. subst e. cbn. lia.
  - intros id Hid. destruct (Hhandles id Hid) as [->|Hold]; [lia|].
    specialize (Hslots id Hold). lia.
  - intros e He. apply elem_of_app in He. destruct He as [He|He].
    + specialize (Hkept e He). specialize (Hfresh e He). rewrite (Hnone e He) in *.
      intros Hin. destruct (Hhandles _ Hin) as [Heq|Hold]; [lia|contradiction].
    + apply list_elem_of_singleton in He. subst e. cbn. rewrite Htask. exact Hset.
  - intros e He. apply elem_of_app in He. destruct He as [He|He]; [exact (Hrep e He)|].
    apply list_elem_of_singleton in He. subst e. reflexivity.
Qed.

Lemma basic_timers_tracked_same c c' :
  basic_same_timers c c' -> basic_timers_tracked c -> basic_timers_tracked c'.
Proof. unfold basic_timers_tracked. intros (-> & -> & ->). auto. Qed.

Lemma basic_dispatch_inv a c w c' w' :
  dispatch a c w = Ok (c', w') ->
  exists s', reducer (state c) a w = Ok (s', w') /\ c' = set_state s' c.
Proof.
  unfold dispatch, bind, ret. destruct (reducer (state c) a w) as [[s w1]|e]; [|discriminate].
  intros [= <- <-]. eauto.
Qed.

Lemma basic_reducer_attempts s a w s' w' :
  reducer s a w = Ok (s', w') ->
  connectionAttempts s' = match a with
                          | CONNECTED | DISCONNECTED _ => 0
                          | RECONNECTING => connectionAttempts s + 1
                          | MESSAGE _ => connectionAttempts s
                          end.
Proof.
  destruct a; cbn [reducer]; unfold_monad; try (intros [= <- <-]; reflexivity).
  destruct (switch_type (type payload)); intros [= <- <-]; reflexivity.
Qed.

Lemma basic_dispatch_attempts a c w c' w' :
  dispatch a c w = Ok (c', w') ->
  connectionAttempts (state c')
  = match a with
    | CONNECTED | DISCONNECTED _ => 0
    | RECONNECTING => connectionAttempts (state c) + 1
    | MESSAGE _ => connectionAttempts (state c)
    end.
Proof.
  intros Hrun. apply basic_dispatch_inv in Hrun. destruct Hrun as (s' & Hs' & ->).
  exact (basic_reducer_attempts _ _ _ _ _ Hs').
Qed.

Lemma basic_dispatch_same_timers a c w c' w' :
  dispatch a c w = Ok (c', w') -> basic_same_timers c c'.
Proof.
  intros Hrun. apply basic_dispatch_inv in Hrun. destruct Hrun as (s' & _ & ->).
  repeat split.
Qed.

Lemma basic_sendMessage_same_timers message c : basic_same_timers c (sendMessage message c).
Proof. unfold sendMessage. repeat case_match; repeat split. Qed.

Lemma basic_sendMessage_state message c : state (sendMessage message c) = state c.
Proof. unfold sendMessage. repeat case_match; reflexivity. Qed.

Lemma basic_connect_tracked cfg attempts c :
  basic_timers_tracked c -> basic_timers_tracked (connect cfg attempts c).
Proof.
  intros Hinv. unfold connect. destruct (connect_refused cfg attempts c); [exact Hinv|].
  apply basic_clearAllTimers_tracked in Hinv. destruct Hinv as [Hinv Hnone].
  unfold basic_timers_tracked in *. unfold schedule. cbn.
  apply (basic_tracked_inv_tracked (ConnectionTimeout _) _ _ _
           (timers (metaRef (clearAllTimers c)))); try reflexivity;
    [exact Hnone | | exact Hinv].
  intros id. unfold basic_handles. cbn. rewrite !elem_of_cons, !elem_of_nil.
  intros [?|[?|[?|[]]]]; [tauto | tauto | left; congruence].
Qed.

Lemma basic_onopen_tracked cfg c w c' w' :
  onopen cfg c w = Ok (c', w') -> basic_timers_tracked c -> basic_timers_tracked c'.
Proof.
  unfold onopen, bind, ret.
  destruct (dispatch _ _ w) as [[c1 w1]|e] eqn:Hdispatch; [|discriminate].
  intros [= <- <-] Hinv.
  apply basic_dispatch_same_timers in Hdispatch. destruct Hdispatch as (Hp & Hn & Ht).
  apply basic_clearAllTimers_tracked in Hinv. destruct Hinv as [Hinv Hnone].
  unfold basic_timers_tracked in *. unfold schedule. cbn. rewrite Hp, Hn, Ht.
  apply (basic_tracked_inv_tracked HeartbeatTick _ _ _
           (timers (metaRef (clearAllTimers c)))); try reflexivity;
    [exact Hnone | | exact Hinv].
  intros id. unfold basic_handles. cbn. rewrite !elem_of_cons, !elem_of_nil.
  intros [?|[?|[?|[]]]]; [tauto | left; congruence | tauto].
Qed.

Lemma basic_onclose_tracked cfg attempts code reason c w c' w' :
  onclose cfg attempts code reason c w = Ok (c', w') ->
  basic_timers_tracked c -> basic_timers_tracked c'.
Proof.
  unfold onclose, bind, ret.
  destruct (dispatch _ _ w) as [[c1 w1]|e] eqn:Hdispatch; [|discriminate].
  intros Hrun Hinv.
  apply basic_dispatch_same_timers in Hdispatch. destruct Hdispatch as (Hp & Hn & Ht).
  apply basic_clearAllTimers_tracked in Hinv. destruct Hinv as [Hinv Hnone].
  unfold basic_timers_tracked in *. rewrite <- Hp, <- Hn, <- Ht in Hinv.
  rewrite <- Hp in Hnone.
  destruct (isManualClose _ || _); injection Hrun as <- <-; [exact Hinv|].
  unfold schedule. cbn.
  apply (basic_tracked_inv_tracked (ReconnectTimer _) _ _ _ (timers (metaRef c1)));
    try reflexivity; [exact Hnone | | exact Hinv].
  intros id. unfold basic_handles. cbn. rewrite !elem_of_cons, !elem_of_nil.
  intros [?|[?|[?|[]]]]; [left; congruence | tauto | tauto].
Qed.

Lemma basic_disconnect_same c w c' w' :
  disconnect c w = Ok (c', w') ->
  pending c' = pending (clearAllTimers c) /\ next_timer c' = next_timer c /\
  timers (metaRef c') = timers (metaRef c) /\ connectionAttempts (state c') = 0.
Proof.
  unfold disconnect. intros Hrun.
  pose proof (basic_dispatch_attempts _ _ _ _ _ Hrun) as Hzero.
  apply basic_dispatch_same_timers in Hrun. destruct Hrun as (-> & -> & ->).
  rewrite !basic_clearAllTimers_shape. cbn.
  destruct (ws (metaRef c)); cbn; auto.
Qed.

Lemma basic_disconnect_tracked c w c' w' :
  disconnect c w = Ok (c', w') -> basic_timers_tracked c -> basic_timers_tracked c'.
Proof.
  intros Hrun Hinv. destruct (basic_disconnect_same _ _ _ _ Hrun) as (Hp & Hn & Ht & _).
  apply basic_clearAllTimers_tracked in Hinv. destruct Hinv as [Hinv _].
  unfold basic_timers_tracked in *. rewrite Hp, Hn, Ht.
  rewrite basic_clearAllTimers_next_timer, basic_clearAllTimers_metaRef in Hinv.
  exact Hinv.
Qed.

Lemma basic_connectionTimeout_fires_same i c :
  basic_same_timers c (connectionTimeout_fires i c) /\
  state (connectionTimeout_fires i c) = state c.
Proof. unfold connectionTimeout_fires. repeat case_match; repeat split. Qed.

Lemma basic_onmessage_same frame c w c' w' :
  onmessage frame c w = Ok (c', w') ->
  basic_same_timers c c' /\ connectionAttempts (state c') = connectionAttempts (state c).
Proof.
  unfold onmessage. destruct frame as [message|]; [|intros [= <- <-]; repeat split].
  destruct (_ && _); [|intros [= <- <-]; repeat split].
  intros Hrun. split; [exact (basic_dispatch_same_timers _ _ _ _ _ Hrun)|].
  exact (basic_dispatch_attempts _ _ _ _ _ Hrun).
Qed.

Lemma basic_heartbeat_tick_same c w c' w' :
  heartbeat_tick c w = Ok (c', w') ->
  basic_same_timers c c' /\ connectionAttempts (state c') = connectionAttempts (state c).
Proof.
  unfold heartbeat_tick, bind, ret, Date_now. intros [= <- <-].
  split; [apply basic_sendMessage_same_timers | rewrite basic_sendMessage_state; reflexivity].
Qed.

Lemma basic_clearTimeout_tracked id c :
  basic_timers_tracked c -> basic_timers_tracked (clearTimeout id c).
Proof. unfold basic_timers_tracked, clearTimeout. cbn. apply basic_tracked_inv_filter. Qed.

Lemma basic_run_task_tracked cfg task c w c' w' :
  run_task cfg task c w = Ok (c', w') -> basic_timers_tracked c -> basic_timers_tracked c'.
Proof.
  destruct task; cbn [run_task]; unfold bind, ret.
  - intros [= <- <-]. apply basic_timers_tracked_same, basic_connectionTimeout_fires_same.
  - intros Hrun. apply basic_timers_tracked_same, (basic_heartbeat_tick_same _ _ _ _ Hrun).
  - destruct (dispatch _ c w) as [[c1 w1]|e] eqn:Hdispatch; [|discriminate].
    intros [= <- <-] Hinv. apply basic_connect_tracked.
    exact (basic_timers_tracked_same _ _ (basic_dispatch_same_timers _ _ _ _ _ Hdispatch) Hinv).
  - intros [= <- <-]. apply basic_connect_tracked.
Qed.

Lemma basic_step_tracked cfg e c w c' w' :
  step cfg c e w = Ok (c', w') -> basic_timers_tracked c -> basic_timers_tracked c'.
Proof.
  destruct e; cbn [step]; unfold ret.
  - intros [= <- <-]. apply basic_connect_tracked.
  - apply basic_disconnect_tracked.
  - unfold reconnect, bind, ret.
    destruct (disconnect c w) as [[c1 w1]|err] eqn:Hdisconnect; [|discriminate].
    intros [= <- <-] Hinv. apply (basic_disconnect_tracked _ _ _ _ Hdisconnect) in Hinv.
    unfold basic_timers_tracked, schedule. cbn.
    apply (basic_tracked_inv_untracked (ConnectLater _)); [reflexivity | exact Hinv].
  - intros [= <- <-]. apply basic_timers_tracked_same, basic_sendMessage_same_timers.
  - destruct (readyState <$> sockets c !! i) as [[]|];
      try solve [intros [= <- <-]; auto].
    intros Hrun Hinv. apply (basic_onopen_tracked _ _ _ _ _ Hrun). exact Hinv.
  - destruct (readyState <$> sockets c !! i) as [[]|];
      try solve [intros [= <- <-]; auto].
    intros Hrun. apply basic_timers_tracked_same, (basic_onmessage_same _ _ _ _ _ Hrun).
  - destruct (readyState <$> sockets c !! i) as [[]|];
      try solve [intros [= <- <-]; auto];
      intros Hrun Hinv; apply (basic_onclose_tracked _ _ _ _ _ _ _ _ Hrun); exact Hinv.
  - destruct (List.find _ (pending c)) as [entry|]; [|intros [= <- <-]; auto].
    intros Hrun Hinv. apply (basic_run_task_tracked _ _ _ _ _ _ Hrun).
    destruct (timer_repeats entry); [|apply basic_clearTimeout_tracked]; exact Hinv.
  - destruct (readyState <$> sockets c !! i) as [[]|]; intros [= <- <-] Hinv; exact Hinv.
Qed.

Lemma basic_attempts_inv_zero c : connectionAttempts (state c) = 0 -> basic_attempts_inv c.
Proof. intros Hzero. split; [lia | auto]. Qed.

Lemma basic_attempts_inv_keep c c' :
  connectionAttempts (state c') = connectionAttempts (state c) ->
  (forall e, e ∈ pending c' -> basic_is_reconnect (timer_task e) = true -> e ∈ pending c) ->
  basic_attempts_inv c -> basic_attempts_inv c'.
Proof.
  intros Hsame Hsub [Hrange Hzero]. split; rewrite Hsame; [exact Hrange|].
  intros e He Htask. exact (Hzero e (Hsub e He Htask) Htask).
Qed.

Lemma basic_attempts_inv_same c c' :
  basic_same_timers c c' /\ connectionAttempts (state c') = connectionAttempts (state c) ->
  basic_attempts_inv c -> basic_attempts_inv c'.
Proof.
  intros [(Hp & _ & _) Hsame]. apply basic_attempts_inv_keep; [exact Hsame|].
  rewrite Hp. auto.
Qed.

Lemma basic_connect_state cfg attempts c : state (connect cfg attempts c) = state c.
Proof.
  unfold connect. destruct (connect_refused cfg attempts c); [reflexivity|].
  unfold schedule. cbn. apply basic_clearAllTimers_state.
Qed.

Lemma basic_connect_pending cfg attempts c e :
  e ∈ pending (connect cfg attempts c) -> basic_is_reconnect (timer_task e) = true ->
  e ∈ pending c.
Proof.
  unfold connect. destruct (connect_refused cfg attempts c); [auto|].
  unfold schedule. cbn. rewrite basic_clearAllTimers_pending.
  intros He Htask. apply elem_of_app in He. destruct He as [He|He].
  - apply list_elem_of_filter in He. tauto.
  - apply list_elem_of_singleton in He. subst e. discriminate.
Qed.

Lemma basic_connect_attempts cfg attempts c :
  basic_attempts_inv c -> basic_attempts_inv (connect cfg attempts c).
Proof.
  apply basic_attempts_inv_keep;
    [rewrite basic_connect_state; reflexivity | apply basic_connect_pending].
Qed.

Lemma basic_onopen_attempts cfg c w c' w' :
  onopen cfg c w = Ok (c', w') -> connectionAttempts (state c') = 0.
Proof.
  unfold onopen, bind, ret.
  destruct (dispatch _ _ w) as [[c1 w1]|e] eqn:Hdispatch; [|discriminate].
  intros [= <- <-]. exact (basic_dispatch_attempts _ _ _ _ _ Hdispatch).
Qed.

Lemma basic_onclose_attempts cfg attempts code reason c w c' w' :
  onclose cfg attempts code reason c w = Ok (c', w') -> connectionAttempts (state c') = 0.
Proof.
  unfold onclose, bind, ret.
  destruct (dispatch _ _ w) as [[c1 w1]|e] eqn:Hdispatch; [|discriminate].
  apply basic_dispatch_attempts in Hdispatch.
  destruct (isManualClose _ || _); intros [= <- <-]; exact Hdispatch.
Qed.

Lemma basic_reconnect_timer_fires cfg attempts id entry c w c' w' :
  basic_timers_tracked c -> basic_attempts_inv c ->
  entry ∈ pending c -> timer_id entry = id -> timer_task entry = ReconnectTimer attempts ->
  run_task cfg (ReconnectTimer attempts) (clearTimeout id c) w = Ok (c', w') ->
  basic_attempts_inv c'.
Proof.
  intros (_ & _ & Hkept & _) [_ Hzero] Hentry Hid Htask. cbn [run_task]. unfold bind, ret.
  destruct (dispatch _ _ w) as [[c1 w1]|e] eqn:Hdispatch; [|discriminate].
  intros [= <- <-].
  pose proof (basic_dispatch_attempts _ _ _ _ _ Hdispatch) as Hone. cbn in Hone.
  rewrite (Hzero entry Hentry) in Hone by (rewrite Htask; reflexivity).
  apply basic_dispatch_same_timers in Hdispatch. destruct Hdispatch as (Hp & _ & _).
  split; rewrite basic_connect_state, Hone; [lia|].
  intros e He Hreconnect. exfalso.
  apply basic_connect_pending in He; [|exact Hreconnect].
  rewrite Hp in He. cbn in He. apply list_elem_of_filter in He. destruct He as [Hne He].
  pose proof (Hkept e He) as Hslot. pose proof (Hkept entry Hentry) as Hslot'.
  rewrite Htask in Hslot'. cbn in Hslot'.
  destruct (timer_task e); try discriminate Hreconnect. cbn in Hslot. congruence.
Qed.

Lemma basic_step_attempts cfg e c w c' w' :
  basic_timers_tracked c -> step cfg c e w = Ok (c', w') ->
  basic_attempts_inv c -> basic_attempts_inv c'.
Proof.
  intros Htracked. destruct e; cbn [step]; unfold ret.
  - intros [= <- <-]. apply basic_connect_attempts.
  - intros Hrun _. apply basic_attempts_inv_zero.
    exact (proj2 (proj2 (proj2 (basic_disconnect_same _ _ _ _ Hrun)))).
  - unfold reconnect, bind, ret.
    destruct (disconnect c w) as [[c1 w1]|err] eqn:Hdisconnect; [|discriminate].
    intros [= <- <-] _. apply basic_attempts_inv_zero.
    exact (proj2 (proj2 (proj2 (basic_disconnect_same _ _ _ _ Hdisconnect)))).
  - intros [= <- <-]. apply basic_attempts_inv_same.
    split; [apply basic_sendMessage_same_timers | rewrite basic_sendMessage_state; reflexivity].
  - destruct (readyState <$> sockets c !! i) as [[]|];
      try solve [intros [= <- <-]; auto].
    intros Hrun _. apply basic_attempts_inv_zero, (basic_onopen_attempts _ _ _ _ _ Hrun).
  - destruct (readyState <$> sockets c !! i) as [[]|];
      try solve [intros [= <- <-]; auto].
    intros Hrun. apply basic_attempts_inv_same, (basic_onmessage_same _ _ _ _ _ Hrun).
  - destruct (readyState <$> sockets c !! i) as [[]|];
      try solve [intros [= <- <-]; auto];
      intros Hrun _; apply basic_attempts_inv_zero,
        (basic_onclose_attempts _ _ _ _ _ _ _ _ Hrun).
  - destruct (List.find _ (pending c)) as [entry|] eqn:Hfind; [|intros [= <- <-]; auto].
    apply find_some in Hfind. destruct Hfind as [Hentry Hid].
    apply list_elem_of_In in Hentry. apply Nat.eqb_eq in Hid.
    intros Hrun Hinv.
    assert (Hrepeats : timer_repeats entry = basic_is_interval (timer_task entry))
      by (destruct Htracked as (_ & _ & _ & Hrep); exact (Hrep entry Hentry)).
    assert (Hcleared : basic_attempts_inv
                         (if timer_repeats entry then c else clearTimeout id c)).
    { destruct (timer_repeats entry); [exact Hinv|].
      revert Hinv. apply basic_attempts_inv_keep; [reflexivity|].
      cbn. intros e He _. apply list_elem_of_filter in He. tauto. }
    destruct (timer_task entry) eqn:Htask; cbn [run_task] in Hrun; unfold bind, ret in Hrun.
    + injection Hrun as <- <-. revert Hcleared. apply basic_attempts_inv_same.
      destruct (basic_connectionTimeout_fires_same ws0
                  (if timer_repeats entry then c else clearTimeout id c)) as [Hsame Hstate].
      split; [exact Hsame | rewrite Hstate; reflexivity].
    + revert Hcleared. apply basic_attempts_inv_same, (basic_heartbeat_tick_same _ _ _ _ Hrun).
    + rewrite Hrepeats in Hrun. cbn in Hrun.
      apply (basic_reconnect_timer_fires cfg attempts id entry c w c' w'); auto.
    + injection Hrun as <- <-. apply basic_connect_attempts. exact Hcleared.
  - destruct (readyState <$> sockets c !! i) as [[]|]; intros [= <- <-] Hinv; exact Hinv.
Qed.

Lemma basic_run_attempts cfg events c w c' w' :
  basic_timers_tracked c -> basic_attempts_inv c -> run cfg events c w = Ok (c', w') ->
  basic_attempts_inv c'.
Proof.
  unfold run. revert c w. induction events as [|e events IH]; intros c w Htracked Hinv.
  - intros [= <- <-]. exact Hinv.
  - cbn [forEach]. unfold bind.
    destruct (step cfg c e w) as [[c1 w1]|err] eqn:Hstep; [|discriminate].
    apply IH.
    + exact (basic_step_tracked _ _ _ _ _ _ Hstep Htracked).
    + exact (basic_step_attempts _ _ _ _ _ _ Htracked Hstep Hinv).
Qed.

(** X14. In the basic hook the attempt counter of the snapshot is never
    anything but 0 or 1, whatever the events and whatever counter the
    closures involved were rendered with: every close dispatches
    DISCONNECTED, which resets it, before the reconnect timer counts
    again.  On the counter of any snapshot the hook can reach (the only
    values a render can hand to a closure), the test
    [state.connectionAttempts > maxReconnectAttempts] of [connect] is
    false for a maximum of at least 1, and the delay of [onclose] is at
    most twice the base delay. *)
Theorem basic_attempt_counter_never_exceeds_one cfg events w :
  match run cfg events initialClient w with
  | Ok (c, _) =>
      0 <= connectionAttempts (state c) <= 1 /\
      (if 1 <=? maxReconnectAttempts cfg
       then (maxReconnectAttempts cfg <? connectionAttempts (state c)) = false
       else True) /\
      (if 0 <=? reconnectDelay cfg
       then backoff cfg (connectionAttempts (state c)) <= 2 * reconnectDelay cfg
       else True)
  | Throw _ => True
  end.
Proof.
  destruct (run cfg events initialClient w) as [[c w']|e] eqn:Hrun; [|exact I].
  assert (Htracked : basic_timers_tracked initialClient).
  { apply basic_tracked_inv_nil. intros id. unfold basic_handles. cbn.
    rewrite !elem_of_cons, elem_of_nil. intuition discriminate. }
  assert (Hinv : basic_attempts_inv initialClient)
    by (apply basic_attempts_inv_zero; reflexivity).
  destruct (basic_run_attempts _ _ _ _ _ _ Htracked Hinv Hrun) as [Hrange _].
  split; [exact Hrange|]. split.
  - destruct (1 <=? maxReconnectAttempts cfg) eqn:Hmax; [|exact I].
    apply Z.leb_le in Hmax. apply Z.ltb_ge. lia.
  - destruct (0 <=? reconnectDelay cfg) eqn:Hdelay; [|exact I].
    apply Z.leb_le in Hdelay. unfold backoff.
    assert (Hcases : connectionAttempts (state c) = 0 \/ connectionAttempts (state c) = 1)
      by lia.
    destruct Hcases as [-> | ->]; cbn; lia.
Qed.

End BasicAttemptCounter.

(* ===================================================================== *)
(** * 25. The dashboard on what the hook returns *)
(* ===================================================================== *)

Section DashboardFacts.
Context `{JSArith}.
Import Dashboard.

(** Reading a property of a truthy value never throws. *)
Lemma js_get_truthy key (v : JSValue) :
  ToBoolean v = true -> js_get key v = Ok (js_get_optional key v).
Proof. destruct v; try discriminate; reflexivity. Qed.

Lemma js_get_readable key (v : JSValue) :
  js_get key v = if readable v then Ok (js_get_optional key v)
                 else Throw (TypeError "Cannot read properties of null or undefined").
Proof. destruct v; reflexivity. Qed.

Lemma call_toFixed_numeric (v : JSValue) digits :
  match call_toFixed v digits with
  | Ok text => exists n, v = JNum n /\ text = number_toFixed n digits
  | Throw _ => match v with JNum _ => False | _ => True end
  end.
Proof. destruct v; cbn; eauto. Qed.

(** X15. [accountMetrics] returns [null] for a falsy account, and for a
    truthy one it returns the cards exactly when [balance], [equity],
    [profit], [margin_level] and [margin_free] are all numbers; when
    one of them is missing or is not a number (a numeric string
    included) it throws.  When it returns, the profit and equity cards
    share one trend, the profit status follows it, and the values are
    [toFixed(2)] of the amounts ([toFixed(1)] for the margin level). *)
Theorem accountMetrics_needs_five_numbers (accountData : JSValue) :
  match accountMetrics accountData with
  | Ok None => ToBoolean accountData = false
  | Ok (Some m) =>
      ToBoolean accountData = true /\ well_formed_account accountData = true /\
      call_toFixed (js_get_optional "balance" accountData) 2 = Ok (value (balance m)) /\
      call_toFixed (js_get_optional "equity" accountData) 2 = Ok (value (equity m)) /\
      call_toFixed (js_get_optional "profit" accountData) 2 = Ok (value (profit m)) /\
      call_toFixed (js_get_optional "margin_level" accountData) 1
      = Ok (value (marginLevel m)) /\
      call_toFixed (js_get_optional "margin_free" accountData) 2 = Ok (value (freeMargin m)) /\
      trend (profit m) = trend (equity m) /\
      status (profit m) = match trend (profit m) with
                          | Some up => Some success
                          | Some down => Some error
                          | _ => Some neutral
                          end
  | Throw _ => ToBoolean accountData = true /\ well_formed_account accountData = false
  end.
Proof.
  unfold accountMetrics. destruct (ToBoolean accountData) eqn:Htruthy; [|reflexivity].
  cbn [negb]. rewrite !(js_get_truthy _ _ Htruthy). cbn [and_then].
  unfold well_formed_account, numeric_field.
  destruct (js_get_optional "balance" accountData); cbn; try (split; reflexivity).
  destruct (js_get_optional "equity" accountData); cbn; try (split; reflexivity).
  destruct (js_get_optional "profit" accountData) eqn:Hprofit; cbn; try (split; reflexivity).
  destruct (js_get_optional "margin_level" accountData); cbn;
    try (split; reflexivity).
  destruct (js_get_optional "margin_free" accountData); cbn;
    try (split; reflexivity).
  repeat (split; [reflexivity|]).
  destruct (js_gt (JNum n1) 0), (js_lt (JNum n1) 0); reflexivity.
Qed.

Lemma reduce_counts (items : list JSValue) (acc : Summary) :
  match reduce items acc with
  | Ok s =>
      forallb readable items = true /\
      total s = total acc + Z.of_nat (length items) /\
      profitable s = profitable acc + Z.of_nat (length (winners items)) /\
      losing s = losing acc + Z.of_nat (length (losers items))
  | Throw _ => forallb readable items = false
  end.
Proof.
  revert acc. induction items as [|position items IH]; intros acc.
  - cbn. repeat split; lia.
  - cbn [reduce]. unfold count_position. rewrite js_get_readable.
    cbn [forallb]. destruct (readable position); cbn [and_then andb]; [|reflexivity].
    match goal with |- match reduce items ?a with _ => _ end => specialize (IH a) end.
    destruct (reduce items _) as [s|e]; [|exact IH].
    destruct IH as (Hread & Htotal & Hwin & Hlose). split; [exact Hread|].
    unfold winners, losers in *. cbn [List.filter length].
    destruct (js_gt (js_get_optional "profit" position) 0),
             (js_lt (js_get_optional "profit" position) 0);
      cbn in *; repeat split; lia.
Qed.

(** What [positionSummary] returns, by the comparisons of the profits
    with zero. *)
Lemma positionSummary_by_comparison (positions : JSValue) :
  match positionSummary positions with
  | Ok s =>
      well_formed_positions positions = true /\
      let items := match positions with JArr items => items | _ => [] end in
      total s = Z.of_nat (length items) /\
      profitable s = Z.of_nat (length (winners items)) /\
      losing s = Z.of_nat (length (losers items)) /\
      profitable s + losing s <= total s + Z.of_nat (length (winners (losers items)))
  | Throw _ => well_formed_positions positions = false
  end.
Proof.
  unfold positionSummary, well_formed_positions.
  destruct positions as [| |b|n|text|items|props]; cbn [ToBoolean negb];
    try (cbn; repeat split; lia).
  - destruct b; cbn; repeat split; lia.
  - destruct (number_truthy n); cbn; repeat split; lia.
  - destruct (negb (text =? "")%string); cbn; repeat split; lia.
  - pose proof (reduce_counts items no_positions) as Hcounts.
    destruct (reduce items no_positions) as [s|e]; [|exact Hcounts].
    destruct Hcounts as (Hread & Htotal & Hwin & Hlose). cbn in Htotal, Hwin, Hlose.
    split; [exact Hread|]. cbv zeta. repeat split; try assumption.
    rewrite Htotal, Hwin, Hlose. clear.
    unfold winners, losers. induction items as [|p items IH]; [cbn; lia|].
    cbn [List.filter length].
    destruct (js_gt (js_get_optional "profit" p) 0) eqn:Hgt,
             (js_lt (js_get_optional "profit" p) 0) eqn:Hlt;
      cbn [List.filter length]; rewrite ?Hgt; cbn [length]; lia.
Qed.

Lemma account_update_case (s : Enhanced.WebSocketState) m w :
  type m = JStr "account_update" ->
  Enhanced.reducer s (Enhanced.MESSAGE m) w
  = Ok (Enhanced.set_accountData (data m)
          (Enhanced.set_lastMessageTime (Some (now w)) s), tick w).
Proof.
  intros Htype. cbn [Enhanced.reducer]. unfold Enhanced.processMessage. unfold_monad.
  rewrite Htype. reflexivity.
Qed.

Lemma position_update_case (s : Enhanced.WebSocketState) m w props v :
  type m = JStr "position_update" -> data m = JObj props ->
  own_property "positions" props = Some v ->
  Enhanced.reducer s (Enhanced.MESSAGE m) w
  = Ok (Enhanced.set_positions v (Enhanced.set_lastMessageTime (Some (now w)) s), tick w).
Proof.
  intros Htype Hdata Hv. cbn [Enhanced.reducer]. unfold Enhanced.processMessage. unfold_monad.
  rewrite Htype, Hdata. cbn. rewrite Hv. reflexivity.
Qed.

(** X17. The reducer stores what the server sends without looking at
    it, and the dashboard then fails on it: an 'account_update' whose
    payload is truthy but lacks one of the five numbers is accepted and
    makes [accountMetrics] throw on the new snapshot; a
    'position_update' whose payload has a [positions] field that is
    neither falsy nor an array of readable values is accepted and makes
    [positionSummary] throw. *)
Theorem unchecked_payloads_crash_the_dashboard (s : Enhanced.WebSocketState) m w :
  (type m = JStr "account_update" ->
   ToBoolean (data m) = true -> well_formed_account (data m) = false ->
   exists s' e,
     Enhanced.reducer s (Enhanced.MESSAGE m) w = Ok (s', tick w) /\
     accountMetrics (Enhanced.accountData s') = Throw e) /\
  (forall props v,
     type m = JStr "position_update" -> data m = JObj props ->
     own_property "positions" props = Some v -> well_formed_positions v = false ->
     exists s' e,
       Enhanced.reducer s (Enhanced.MESSAGE m) w = Ok (s', tick w) /\
       positionSummary (Enhanced.positions s') = Throw e).
Proof.
  split.
  - intros Htype Htruthy Hbad. rewrite (account_update_case s m w Htype).
    destruct (accountMetrics (data m)) as [[metrics|]|e] eqn:Hmetrics.
    + exfalso. revert Hmetrics. unfold accountMetrics. rewrite Htruthy. cbn [negb].
      rewrite !(js_get_truthy _ _ Htruthy). cbn [and_then].
      unfold well_formed_account, numeric_field in Hbad.
      destruct (js_get_optional "balance" (data m)); cbn; try discriminate.
      destruct (js_get_optional "equity" (data m)); cbn; try discriminate.
      destruct (js_get_optional "profit" (data m)); cbn; try discriminate.
      destruct (js_get_optional "margin_level" (data m)); cbn; try discriminate.
      destruct (js_get_optional "margin_free" (data m)); cbn; try discriminate.
    + exfalso. revert Hmetrics. unfold accountMetrics. rewrite Htruthy. cbn [negb].
      rewrite !(js_get_truthy _ _ Htruthy). cbn [and_then].
      destruct (js_get_optional "balance" (data m)); cbn; try discriminate.
      destruct (js_get_optional "equity" (data m)); cbn; try discriminate.
      destruct (js_get_optional "profit" (data m)); cbn; try discriminate.
      destruct (js_get_optional "margin_level" (data m)); cbn; try discriminate.
      destruct (js_get_optional "margin_free" (data m)); cbn; discriminate.
    + eexists _, e. split; [reflexivity|]. exact Hmetrics.
  - intros props v Htype Hdata Hv Hbad.
    rewrite (position_update_case s m w props v Htype Hdata Hv).
    destruct (positionSummary v) as [summary|e] eqn:Hsummary.
    + exfalso. revert Hsummary. unfold positionSummary.
      unfold well_formed_positions in Hbad.
      destruct v as [| |b|n|text|items|ps]; cbn [ToBoolean negb] in *; try discriminate.
      * rewrite Hbad. discriminate.
      * rewrite Hbad. discriminate.
      * rewrite Hbad. discriminate.
      * pose proof (reduce_counts items no_positions) as Hcounts.
        destruct (reduce items no_positions); [|discriminate].
        destruct Hcounts as [Hread _]. congruence.
    + eexists _, e. split; [reflexivity|]. exact Hsummary.
Qed.

End DashboardFacts.

(** X16. [positionSummary] returns zeros for a falsy [positions]; for an
    array none of whose elements is [null] it returns the number of
    elements as [total], the number of those whose profit compares
    above zero as [profitable] and of those whose profit compares below
    zero as [losing].  The comparisons are those of JavaScript, on the
    profit converted to a number: a profit that is [true], ["5"] or
    [[7]] counts as profitable and ["-3"] as losing, and a position
    counts in [total] only when its profit so converted is neither
    above nor below zero (zero, [null], a missing profit).  The two
    counts together exceed [total] by no more than the number of
    positions that compare both above and below zero.  For any other
    value, an object or a non-empty string included, and for an array
    with a [null] element, it throws.  The second part is the summary
    of six positions with the profits [true], ["5"], [[7]], ["-3"],
    [null] and none. *)
Theorem positionSummary_counts :
  (forall `{JSArith} (positions : JSValue),
      match Dashboard.positionSummary positions with
      | Ok s =>
          well_formed_positions positions = true /\
          let items := match positions with JArr items => items | _ => [] end in
          Dashboard.total s = Z.of_nat (length items) /\
          Dashboard.profitable s = Z.of_nat (length (winners items)) /\
          Dashboard.losing s = Z.of_nat (length (losers items)) /\
          Dashboard.profitable s + Dashboard.losing s
          <= Dashboard.total s + Z.of_nat (length (winners (losers items)))
      | Throw _ => well_formed_positions positions = false
      end) /\
  match Dashboard.positionSummary
          (JArr [JObj [("profit", JBool true)]; JObj [("profit", JStr "5")];
                 JObj [("profit", JArr [JNum (number_of_Z 7)])];
                 JObj [("profit", JStr "-3")];
                 JObj [("profit", JNull)]; JObj [("ticket", JNum (number_of_Z 1))]]) with
  | Ok s => Dashboard.total s = 6 /\ Dashboard.profitable s = 3 /\ Dashboard.losing s = 1
  | Throw _ => False
  end.
Proof.
  split.
  - intros N A positions. exact (positionSummary_by_comparison positions).
  - vm_compute. repeat split.
Qed.

(** The account frame [{balance: 100}] has no equity, and the positions
    frame carries a string. *)
Lemma unchecked_payloads_witness :
  (exists s' e,
     Enhanced.reducer Enhanced.initialState (Enhanced.MESSAGE (account_update 100))
       sample_world = Ok (s', tick sample_world) /\
     Dashboard.accountMetrics (Enhanced.accountData s') = Throw e) /\
  (exists s' e,
     Enhanced.reducer Enhanced.initialState (Enhanced.MESSAGE positions_as_text)
       sample_world = Ok (s', tick sample_world) /\
     Dashboard.positionSummary (Enhanced.positions s') = Throw e).
Proof.
  destruct (unchecked_payloads_crash_the_dashboard Enhanced.initialState
              (account_update 100) sample_world) as [Haccount _].
  destruct (unchecked_payloads_crash_the_dashboard Enhanced.initialState
              positions_as_text sample_world) as [_ Hpositions].
  split.
  - apply Haccount; reflexivity.
  - apply (Hpositions [("positions", JStr "none")] (JStr "none")); reflexivity.
Defined.

(* ===================================================================== *)
(** * 26. Reconnecting by hand *)
(* ===================================================================== *)

Section ReconnectWorks.
Context `{JSNumber}.
Import Enhanced.

Lemma find_fresh (f : TimerEntry -> bool) l x :
  (forall e, e ∈ l -> f e = false) -> f x = true -> List.find f (l ++ [x]) = Some x.
Proof.
  intros Hnone Hx. induction l as [|a l IH]; cbn.
  - rewrite Hx. reflexivity.
  - rewrite (Hnone a) by left. apply IH. intros e He. apply Hnone. right. exact He.
Qed.

(** What [disconnect] leaves of [metaRef] and of the sockets. *)
Lemma disconnect_metaRef c w c' w' :
  disconnect c w = Ok (c', w') ->
  ws (metaRef c') = None /\ ref_connectionAttempts (metaRef c') = 0 /\
  length (sockets c') = length (sockets c).
Proof.
  unfold disconnect. intros Hrun. apply dispatch_inv in Hrun.
  destruct Hrun as (s' & _ & ->). cbn. rewrite !clearAllTimers_metaRef. cbn.
  destruct (ws (metaRef c)); cbn; rewrite ?clearAllTimers_metaRef, ?clearAllTimers_sockets;
    cbn; rewrite ?length_alter; repeat split; reflexivity.
Qed.

(** A [connect] that is not refused holds a new connecting socket. *)
Lemma connect_accepted cfg c :
  connect_refused cfg c = false ->
  ws_readyState (connect cfg c) = Some CONNECTING /\
  length (sockets (connect cfg c)) = S (length (sockets c)) /\
  ref_connectionAttempts (metaRef (connect cfg c)) = ref_connectionAttempts (metaRef c) /\
  isManualClose (metaRef (connect cfg c)) = false.
Proof.
  intros Hguard. unfold connect. rewrite Hguard. unfold schedule, ws_readyState. cbn.
  rewrite clearAllTimers_sockets, clearAllTimers_metaRef. cbn.
  rewrite lookup_app_r by lia. rewrite Nat.sub_diag. cbn.
  rewrite length_app. cbn. repeat split; lia.
Qed.

Lemma reconnect_then_timer cfg c w :
  timers_tracked c -> 0 <= maxReconnectAttempts cfg ->
  match run cfg [CallReconnect; TimerFires (next_timer c)] c w with
  | Ok (c', _) =>
      ws_readyState c' = Some CONNECTING /\
      length (sockets c') = S (length (sockets c)) /\
      ref_connectionAttempts (metaRef c') = 0 /\
      isManualClose (metaRef c') = false
  | Throw _ => False
  end.
Proof.
  intros Hinv Hmax. unfold run. cbn [forEach step]. unfold bind at 1. unfold reconnect.
  unfold bind at 1.
  destruct (disconnect c w) as [[c1 w1]|e] eqn:Hdisconnect;
    [|unfold disconnect, dispatch in Hdisconnect; cbn in Hdisconnect; discriminate].
  destruct (disconnect_pending _ _ _ _ Hdisconnect Hinv) as (Hp & Hn & _).
  destruct (disconnect_metaRef _ _ _ _ Hdisconnect) as (Hws & Hzero & Hlen).
  unfold ret at 1. unfold bind. unfold schedule. cbn [snd pending].
  rewrite Hn.
  rewrite find_fresh; cbn [timer_id timer_repeats timer_task].
  - cbn [run_task]. unfold ret.
    match goal with |- context [connect cfg ?x] => set (c2 := x) end.
    assert (Hguard : connect_refused cfg c2 = false).
    { unfold connect_refused, ws_readyState. unfold c2, clearTimeout. cbn. rewrite Hws, Hzero.
      apply Z.ltb_ge. exact Hmax. }
    destruct (connect_accepted cfg c2 Hguard) as (Hready & Hsockets & Hattempts & Hmanual).
    split; [exact Hready|]. split; [rewrite Hsockets; unfold c2; cbn; lia|].
    split; [rewrite Hattempts; unfold c2; cbn; exact Hzero | exact Hmanual].
  - intros e He. apply Nat.eqb_neq. rewrite Hp in He. apply list_elem_of_filter in He.
    destruct He as [_ He]. destruct Hinv as (Hfresh & _). specialize (Hfresh e He). lia.
  - apply Nat.eqb_refl.
Qed.

(** X18. [reconnect()] always works: in whatever state the hook is,
    the exhausted one included, calling [reconnect] and letting its
    100 ms timer fire leaves the hook holding one new socket that is
    connecting, with the attempt counter of [metaRef] at 0 and the
    manual-close flag cleared (for a maximum of attempts that is not
    negative). *)
Theorem reconnect_always_starts_a_new_connection cfg events w :
  match run cfg events initialClient w with
  | Ok (c, w1) =>
      if 0 <=? maxReconnectAttempts cfg
      then match run cfg [CallReconnect; TimerFires (next_timer c)] c w1 with
           | Ok (c', _) =>
               ws_readyState c' = Some CONNECTING /\
               length (sockets c') = S (length (sockets c)) /\
               ref_connectionAttempts (metaRef c') = 0 /\
               isManualClose (metaRef c') = false
           | Throw _ => False
           end
      else True
  | Throw _ => True
  end.
Proof.
  destruct (run cfg events initialClient w) as [[c w1]|e] eqn:Hrun; [|exact I].
  destruct (0 <=? maxReconnectAttempts cfg) eqn:Hmax; [|exact I].
  apply Z.leb_le in Hmax. apply reconnect_then_timer; [|exact Hmax].
  apply (run_tracked _ _ _ _ _ _ Hrun). apply tracked_inv_nil.
Qed.

End ReconnectWorks.

(* ===================================================================== *)
(** * 27. The transport of the basic hook *)
(* ===================================================================== *)

Section BasicTransport.
Context `{JSNumber}.
Import Basic.

Lemma basic_grow_same_transport c c' :
  basic_same_transport c c' -> sockets_grow (sockets c) (sockets c').
Proof. intros [-> _]. apply sockets_grow_refl. Qed.

Lemma basic_sendMessage_grows message c :
  sockets_grow (sockets c) (sockets (sendMessage message c)).
Proof.
  unfold sendMessage, ws_readyState.
  destruct (ws (metaRef c)) as [i|]; [|apply sockets_grow_refl].
  destruct (sockets c !! i) as [a|] eqn:Ha; cbn; [|apply sockets_grow_refl].
  destruct (readyState a) eqn:Hready; try apply sockets_grow_refl.
  cbn. apply sockets_grow_alter. intros a' Ha'. apply socket_grows_send. congruence.
Qed.

Lemma basic_connect_grows cfg attempts c :
  sockets_grow (sockets c) (sockets (connect cfg attempts c)).
Proof.
  unfold connect. destruct (connect_refused cfg attempts c); [apply sockets_grow_refl|].
  unfold schedule. cbn. rewrite basic_clearAllTimers_sockets. apply sockets_grow_app.
Qed.

Lemma basic_disconnect_grows c w c' w' :
  disconnect c w = Ok (c', w') -> sockets_grow (sockets c) (sockets c').
Proof.
  unfold disconnect. intros Hrun. apply basic_dispatch_transport in Hrun.
  destruct Hrun as [-> _]. cbn. rewrite basic_clearAllTimers_metaRef. cbn.
  destruct (ws (metaRef c)); cbn; rewrite basic_clearAllTimers_sockets; cbn;
    [|apply sockets_grow_refl].
  apply sockets_grow_alter. intros a _. apply socket_grows_close.
Qed.

Lemma basic_connectionTimeout_fires_grows i c :
  sockets_grow (sockets c) (sockets (connectionTimeout_fires i c)).
Proof.
  unfold connectionTimeout_fires.
  destruct (sockets c !! i) as [s|]; [|apply sockets_grow_refl].
  destruct (ReadyState_eqb _ _); [|apply sockets_grow_refl].
  cbn. apply sockets_grow_alter. intros a _. apply socket_grows_close.
Qed.

Lemma basic_run_task_grows cfg task c w c' w' :
  run_task cfg task c w = Ok (c', w') -> sockets_grow (sockets c) (sockets c').
Proof.
  destruct task; cbn [run_task]; unfold bind, ret.
  - intros [= <- <-]. apply basic_connectionTimeout_fires_grows.
  - unfold heartbeat_tick, bind, ret, Date_now. intros [= <- <-].
    apply basic_sendMessage_grows.
  - destruct (dispatch _ c w) as [[c1 w1]|e] eqn:Hdispatch; [|discriminate].
    intros [= <- <-]. apply basic_dispatch_transport in Hdispatch.
    destruct Hdispatch as [<- _]. apply basic_connect_grows.
  - intros [= <- <-]. apply basic_connect_grows.
Qed.

Lemma basic_step_grows cfg e c w c' w' :
  step cfg c e w = Ok (c', w') -> sockets_grow (sockets c) (sockets c').
Proof.
  destruct e; cbn [step]; unfold ret.
  - intros [= <- <-]. apply basic_connect_grows.
  - apply basic_disconnect_grows.
  - unfold reconnect, bind, ret.
    destruct (disconnect c w) as [[c1 w1]|err] eqn:Hdisconnect; [|discriminate].
    intros [= <- <-]. exact (basic_disconnect_grows _ _ _ _ Hdisconnect).
  - intros [= <- <-]. apply basic_sendMessage_grows.
  - destruct (sockets c !! i) as [a|] eqn:Ha; cbn; [|intros [= <- <-]; apply sockets_grow_refl].
    destruct (readyState a) eqn:Hready; try (intros [= <- <-]; apply sockets_grow_refl).
    intros Hrun. apply basic_onopen_transport in Hrun. destruct Hrun as [-> _]. cbn.
    apply sockets_grow_alter. intros a' Ha'. apply socket_grows_readyState.
    assert (a' = a) as -> by congruence. rewrite Hready. cbn. lia.
  - destruct (readyState <$> sockets c !! i) as [[]|];
      try (intros [= <- <-]; apply sockets_grow_refl).
    intros Hrun. apply basic_grow_same_transport, (basic_onmessage_transport _ _ _ _ _ Hrun).
  - destruct (readyState <$> sockets c !! i) as [[]|];
      try (intros [= <- <-]; apply sockets_grow_refl);
      intros Hrun; apply basic_onclose_transport in Hrun; destruct Hrun as [-> _]; cbn;
      apply sockets_grow_alter; intros a' Ha'; apply socket_grows_readyState;
      destruct (readyState a'); cbn; lia.
  - destruct (List.find _ (pending c)) as [entry|]; [|intros [= <- <-]; apply sockets_grow_refl].
    intros Hrun. apply basic_run_task_grows in Hrun. destruct (timer_repeats entry); exact Hrun.
  - destruct (sockets c !! i) as [a|] eqn:Ha; cbn; [|intros [= <- <-]; apply sockets_grow_refl].
    destruct (readyState a) eqn:Hready; intros [= <- <-]; try apply sockets_grow_refl.
    cbn. apply sockets_grow_alter. intros a' Ha'. apply socket_grows_readyState.
    assert (a' = a) as -> by congruence. rewrite Hready. cbn. lia.
Qed.

Lemma basic_run_grows cfg events c w c' w' :
  run cfg events c w = Ok (c', w') -> sockets_grow (sockets c) (sockets c').
Proof.
  unfold run. revert c w. induction events as [|e events IH]; intros c w.
  - intros [= <- <-]. apply sockets_grow_refl.
  - cbn [forEach]. unfold bind.
    destruct (step cfg c e w) as [[c1 w1]|err] eqn:Hstep; [|discriminate].
    intros Hrun. eapply sockets_grow_trans; [exact (basic_step_grows _ _ _ _ _ _ Hstep)|].
    exact (IH _ _ Hrun).
Qed.

(** X19. The basic hook sends on open sockets only, whatever the
    events and whatever counters its closures were rendered with.  From
    any state on, a socket keeps its place, its ready state never goes
    back, frames stay sent in order and none is sent on a socket that is
    connecting or has started closing. *)
Theorem basic_hook_sends_on_open_sockets_only cfg events c w :
  match run cfg events c w with
  | Ok (c', _) => sockets_grow (sockets c) (sockets c')
  | Throw _ => True
  end.
Proof.
  destruct (run cfg events c w) as [[c' w']|e] eqn:Hrun; [|exact I].
  exact (basic_run_grows _ _ _ _ _ _ Hrun).
Qed.

End BasicTransport.

(* ===================================================================== *)
(** * 28. The two reducers side by side *)
(* ===================================================================== *)

Section TwoReducers.
Context `{JSNumber}.

(** X20. On the five fields the two snapshots share, the enhanced
    reducer does what the basic reducer does, for every action the
    basic hook has and every message, except for an 'error' message
    whose payload is a bare string and for 'pong' messages: whenever
    the enhanced reducer returns, the basic reducer returns the same
    account, connection flag, error, attempt counter and message time,
    having read the clock as often. *)
Theorem enhanced_reducer_extends_the_basic_one (s : Enhanced.WebSocketState)
  (a : Basic.WebSocketAction) w :
  match Enhanced.reducer s (as_enhanced a) w with
  | Ok (s', w') =>
      if treated_differently a then True
      else Basic.reducer (shared_fields s) a w = Ok (shared_fields s', w')
  | Throw _ => True
  end.
Proof.
  destruct a as [|reason| |m]; cbn [as_enhanced Enhanced.reducer Basic.reducer treated_differently];
    unfold_monad; try reflexivity.
  unfold Enhanced.processMessage. unfold_monad. unfold Enhanced.guarded_in, Enhanced.type_is.
  destruct m as [t d]. cbn [type data].
  destruct t as [| | | |kind| |]; cbn; try reflexivity.
  repeat match goal with
         | |- context [String.eqb kind ?k] =>
             destruct (String.eqb_spec kind k) as [->|?]; cbn
         end; try reflexivity.
  all: destruct d as [| | | | | |props]; cbn; try reflexivity.
  all: try match goal with
           | |- context [own_property ?k ?props] =>
               destruct (own_property k props) as [found|] eqn:Hfound; cbn; try reflexivity
           end.
  all: rewrite ?andb_false_r; cbn; try reflexivity.
  all: try match goal with
           | |- context [if ?b then Throw _ else _] =>
               destruct b; cbn; first [reflexivity | exact I]
           end.
  destruct (ToBoolean found); exact I.
Qed.

End TwoReducers.

(* ===================================================================== *)
(** * 29. The latency and the last ping *)
(* ===================================================================== *)

Section Latency.
Context `{JSNumber}.
Import Enhanced.

Lemma ping_inv_keep c c' :
  sockets_grow (sockets c) (sockets c') -> same_ping c c' -> ping_inv c -> ping_inv c'.
Proof.
  unfold ping_inv, same_ping. intros Hgrow ->. intros [Hzero|(j & s & Hs & Hsent)]; [auto|].
  right. destruct (Hgrow j s Hs) as (s' & Hs' & _ & Hprefix & _).
  exists j, s'. split; [exact Hs'|]. destruct Hprefix as [more ->].
  apply elem_of_app. left. exact Hsent.
Qed.

Lemma dispatch_same_ping a c w c' w' : dispatch a c w = Ok (c', w') -> same_ping c c'.
Proof. intros Hrun. apply dispatch_inv in Hrun. destruct Hrun as (s' & _ & ->). reflexivity. Qed.

Lemma connect_same_ping cfg c : same_ping c (connect cfg c).
Proof.
  unfold connect, same_ping. destruct (connect_refused cfg c); [reflexivity|].
  unfold schedule. cbn. rewrite clearAllTimers_metaRef. reflexivity.
Qed.

Lemma disconnect_same_ping c w c' w' : disconnect c w = Ok (c', w') -> same_ping c c'.
Proof.
  unfold disconnect. intros Hrun. apply dispatch_same_ping in Hrun.
  unfold same_ping in *. rewrite Hrun. cbn. rewrite !clearAllTimers_metaRef. cbn.
  destruct (ws (metaRef c)); cbn; rewrite clearAllTimers_metaRef; reflexivity.
Qed.

Lemma subscribe_same_ping channel c w c' w' :
  subscribe channel c w = Ok (c', w') -> same_ping c c'.
Proof.
  unfold subscribe, bind, Date_now. intros Hrun. apply dispatch_same_ping in Hrun.
  unfold same_ping in *. rewrite Hrun, sendMessage_metaRef. reflexivity.
Qed.

Lemma unsubscribe_same_ping channel c w c' w' :
  unsubscribe channel c w = Ok (c', w') -> same_ping c c'.
Proof.
  unfold unsubscribe, bind, Date_now. intros Hrun. apply dispatch_same_ping in Hrun.
  unfold same_ping in *. rewrite Hrun, sendMessage_metaRef. reflexivity.
Qed.

Lemma flush_same_ping c w c' w' : flush c w = Ok (c', w') -> same_ping c c'.
Proof.
  unfold flush, bind, ret. destruct (0 <? _)%nat; [|intros [= <- <-]; reflexivity].
  destruct (dispatch _ c w) as [[c1 w1]|e] eqn:Hdispatch; [|discriminate].
  intros [= <- <-]. apply dispatch_same_ping in Hdispatch. exact Hdispatch.
Qed.

Lemma onopen_same_ping cfg c w c' w' : onopen cfg c w = Ok (c', w') -> same_ping c c'.
Proof.
  unfold onopen, bind, ret.
  destruct (dispatch _ _ w) as [[c1 w1]|e] eqn:Hdispatch; [|discriminate].
  intros [= <- <-]. apply dispatch_same_ping in Hdispatch.
  unfold same_ping in *. cbn in Hdispatch. rewrite clearAllTimers_metaRef in Hdispatch.
  cbn in Hdispatch. rewrite <- Hdispatch.
  unfold autoSubscribeToChannels, essentialChannels.
  destruct (negb (autoSubscribe cfg)); reflexivity.
Qed.

Lemma onmessage_same_ping cfg frame c w c' w' :
  onmessage cfg frame c w = Ok (c', w') -> same_ping c c'.
Proof.
  unfold onmessage.
  destruct frame as [message|]; [|intros [= <- <-]; reflexivity].
  destruct (type_is "pong" message); [unfold bind, Date_now; apply dispatch_same_ping|].
  destruct (type_is "heartbeat" message); [intros [= <- <-]; reflexivity|].
  destruct (BATCH_UPDATES cfg); [|apply dispatch_same_ping].
  cbv zeta. destruct (BUFFER_SIZE cfg <=? _); [|intros [= <- <-]; reflexivity].
  unfold bind, ret.
  destruct (dispatch _ _ w) as [[c1 w1]|e] eqn:Hdispatch; [|discriminate].
  intros [= <- <-]. apply dispatch_same_ping in Hdispatch. exact Hdispatch.
Qed.

Lemma onclose_same_ping cfg code reason c w c' w' :
  onclose cfg code reason c w = Ok (c', w') -> same_ping c c'.
Proof.
  unfold onclose, bind, ret, Math_random.
  destruct (flush _ w) as [[c1 w1]|e] eqn:Hflush; [|discriminate].
  destruct (dispatch _ c1 w1) as [[c2 w2]|e] eqn:Hdispatch; [|discriminate].
  apply flush_same_ping in Hflush. apply dispatch_same_ping in Hdispatch.
  unfold same_ping in *. rewrite clearAllTimers_metaRef in Hflush. cbn in Hflush.
  destruct (isManualClose _ || _); [intros [= <- <-]; congruence|].
  destruct (JITTER cfg); intros [= <- <-]; unfold schedule; cbn; congruence.
Qed.

Lemma latencyCheck_tick_same_ping cfg c w c' w' :
  latencyCheck_tick cfg c w = Ok (c', w') -> same_ping c c'.
Proof.
  unfold latencyCheck_tick, bind, ret, Date_now.
  destruct (0 <? _); [|intros [= <- <-]; reflexivity].
  destruct (_ <? _); [|intros [= <- <-]; reflexivity].
  apply dispatch_same_ping.
Qed.

(** The heartbeat stores the time it reads and sends it in the same
    breath. *)
Lemma heartbeat_tick_ping c w c' w' :
  heartbeat_tick c w = Ok (c', w') -> ping_inv c -> ping_inv c'.
Proof.
  intros Hrun Hinv.
  pose proof (heartbeat_tick_grows _ _ _ _ Hrun) as Hgrow.
  revert Hrun. unfold heartbeat_tick, bind, ret, Date_now.
  destruct (ws_readyState c) as [[]|] eqn:Hready;
    try (intros [= <- <-]; exact Hinv).
  intros [= <- <-]. right. unfold ws_readyState in Hready.
  destruct (ws (metaRef c)) as [i|] eqn:Hws; [|discriminate].
  destruct (sockets c !! i) as [a|] eqn:Ha; [|discriminate].
  exists i, (WebSocket_send (ping_frame (now w)) a).
  unfold sendMessage, ws_readyState. cbn. rewrite Hws, Ha. cbn. cbn in Hready.
  injection Hready as Hready. rewrite Hready. cbn. rewrite list_lookup_alter_eq, Ha.
  split; [reflexivity|]. cbn. apply elem_of_app. right. apply list_elem_of_singleton.
  reflexivity.
Qed.

Lemma run_task_ping cfg task c w c' w' :
  run_task cfg task c w = Ok (c', w') -> ping_inv c -> ping_inv c'.
Proof.
  intros Hrun. pose proof (run_task_grows _ _ _ _ _ _ Hrun) as Hgrow. revert Hrun.
  destruct task; cbn [run_task]; unfold bind, ret.
  - intros [= <- <-]. apply (ping_inv_keep _ _ Hgrow).
    unfold same_ping, connectionTimeout_fires. repeat case_match; reflexivity.
  - apply heartbeat_tick_ping.
  - intros Hrun. apply (ping_inv_keep _ _ Hgrow), (latencyCheck_tick_same_ping _ _ _ _ _ Hrun).
  - destruct (dispatch _ c w) as [[c1 w1]|e] eqn:Hdispatch; [|discriminate].
    intros [= <- <-]. apply (ping_inv_keep _ _ Hgrow).
    apply dispatch_same_ping in Hdispatch. unfold same_ping in *.
    rewrite (connect_same_ping cfg c1). exact Hdispatch.
  - intros Hrun. apply (ping_inv_keep _ _ Hgrow), (subscribe_same_ping _ _ _ _ _ Hrun).
  - intros [= <- <-]. apply (ping_inv_keep _ _ Hgrow), connect_same_ping.
  - intros Hrun. apply (ping_inv_keep _ _ Hgrow), (flush_same_ping _ _ _ _ Hrun).
Qed.

Lemma step_ping cfg e c w c' w' :
  step cfg c e w = Ok (c', w') -> ping_inv c -> ping_inv c'.
Proof.
  intros Hrun. pose proof (step_grows _ _ _ _ _ _ Hrun) as Hgrow. revert Hrun.
  destruct e; cbn [step]; unfold ret.
  - intros [= <- <-]. apply (ping_inv_keep _ _ Hgrow). unfold mount.
    match goal with |- same_ping _ (connect _ ?c1) =>
      unfold same_ping; rewrite (connect_same_ping cfg c1) end.
    destruct (BATCH_UPDATES cfg); reflexivity.
  - unfold unmount. intros Hrun. apply (ping_inv_keep _ _ Hgrow).
    apply disconnect_same_ping in Hrun. unfold same_ping in *. rewrite Hrun.
    destruct (flush_interval c); reflexivity.
  - intros [= <- <-]. apply (ping_inv_keep _ _ Hgrow), connect_same_ping.
  - intros Hrun. apply (ping_inv_keep _ _ Hgrow), (disconnect_same_ping _ _ _ _ Hrun).
  - unfold reconnect, bind, ret.
    destruct (disconnect c w) as [[c1 w1]|err] eqn:Hdisconnect; [|discriminate].
    intros [= <- <-]. apply (ping_inv_keep _ _ Hgrow).
    exact (disconnect_same_ping _ _ _ _ Hdisconnect).
  - intros Hrun. apply (ping_inv_keep _ _ Hgrow), (subscribe_same_ping _ _ _ _ _ Hrun).
  - intros Hrun. apply (ping_inv_keep _ _ Hgrow), (unsubscribe_same_ping _ _ _ _ _ Hrun).
  - intros [= <- <-]. apply (ping_inv_keep _ _ Hgrow).
    unfold same_ping. rewrite sendMessage_metaRef. reflexivity.
  - destruct (readyState <$> sockets c !! i) as [[]|];
      try solve [intros [= <- <-]; auto].
    intros Hrun. apply (ping_inv_keep _ _ Hgrow).
    exact (onopen_same_ping _ _ _ _ _ Hrun).
  - destruct (readyState <$> sockets c !! i) as [[]|];
      try solve [intros [= <- <-]; auto].
    intros Hrun. apply (ping_inv_keep _ _ Hgrow), (onmessage_same_ping _ _ _ _ _ _ Hrun).
  - destruct (readyState <$> sockets c !! i) as [[]|];
      try solve [intros [= <- <-]; auto];
      intros Hrun; apply (ping_inv_keep _ _ Hgrow);
      exact (onclose_same_ping _ _ _ _ _ _ _ Hrun).
  - destruct (List.find _ (pending c)) as [entry|]; [|intros [= <- <-]; auto].
    intros Hrun Hinv. apply (run_task_ping _ _ _ _ _ _ Hrun).
    destruct (timer_repeats entry); exact Hinv.
  - destruct (readyState <$> sockets c !! i) as [[]|];
      try solve [intros [= <- <-]; auto].
    intros [= <- <-]. apply (ping_inv_keep _ _ Hgrow). reflexivity.
Qed.

Lemma run_ping cfg events c w c' w' :
  run cfg events c w = Ok (c', w') -> ping_inv c -> ping_inv c'.
Proof.
  unfold run. revert c w. induction events as [|e events IH]; intros c w.
  - intros [= <- <-]. auto.
  - cbn [forEach]. unfold bind.
    destruct (step cfg c e w) as [[c1 w1]|err] eqn:Hstep; [|discriminate].
    intros Hrun Hinv. apply (IH _ _ Hrun). exact (step_ping _ _ _ _ _ _ Hstep Hinv).
Qed.

Lemma pong_case cfg c i m w :
  readyState <$> sockets c !! i = Some OPEN -> type_is "pong" m = true ->
  step cfg c (SocketMessage i (Some m)) w
  = Ok (set_state (set_latency (number_of_Z (now w - lastPingTime (metaRef c))) (state c)) c,
        tick w).
Proof.
  intros Hopen Hpong. cbn [step]. rewrite Hopen. unfold onmessage. rewrite Hpong.
  unfold dispatch. cbn [reducer]. unfold_monad. reflexivity.
Qed.

(** X21. A 'pong' is answered from [metaRef], not from the frame: in
    every state a hook can reach, a 'pong' frame arriving on an open
    socket, whatever it carries, sets the latency to the time elapsed
    since [lastPingTime] and changes nothing else in the snapshot (not
    even [lastMessageTime]); and [lastPingTime] is the time stamp of a
    ping the hook has really sent on one of its sockets (possibly an
    earlier one), or 0 when it has sent none, in which case the latency
    is the clock reading itself. *)
Theorem latency_is_measured_from_the_last_ping_sent cfg events i m w :
  match run cfg events initialClient w with
  | Ok (c, w1) =>
      match readyState <$> sockets c !! i, type_is "pong" m with
      | Some OPEN, true =>
          match step cfg c (SocketMessage i (Some m)) w1 with
          | Ok (c', _) =>
              state c' = set_latency (number_of_Z (now w1 - lastPingTime (metaRef c)))
                           (state c) /\
              (lastPingTime (metaRef c) = 0 \/
               exists j s, sockets c !! j = Some s /\
                           ping_frame (lastPingTime (metaRef c)) ∈ sent s)
          | Throw _ => False
          end
      | _, _ => True
      end
  | Throw _ => True
  end.
Proof.
  destruct (run cfg events initialClient w) as [[c w1]|e] eqn:Hrun; [|exact I].
  destruct (readyState <$> sockets c !! i) as [[]|] eqn:Hopen; try exact I.
  destruct (type_is "pong" m) eqn:Hpong; [|exact I].
  rewrite (pong_case cfg c i m w1 Hopen Hpong). split; [reflexivity|].
  apply (run_ping _ _ _ _ _ _ Hrun). left. reflexivity.
Qed.

End Latency.
